(** * Contact normalisation, classification and storage of the beauty-brand bot

    A shallow embedding of the contact pipeline of the Telegram bot:
      - [telegram-bot/utils/helpers.py]: [clean_phone_number],
        [validate_phone_number], [validate_email_address],
        [format_whatsapp_number], [extract_business_keywords],
        [categorize_business_size], [generate_search_suggestions],
        [create_contact_summary];
      - [telegram-bot/utils/database.py]: [DatabaseManager.save_brand],
        [_save_contacts], [_determine_contact_type], [_extract_contact_value],
        [get_all_brands], [search_brands], [get_contacts_by_type];
      - [telegram-bot/agents/contact_finder_agent.py]:
        [ContactFinderAgent._clean_phone_number], [_extract_all_contacts],
        [_parse_contact_results] with its grouping loop,
        [_validate_phone_number] and [validate_contact_info];
      - [telegram-bot/main.py]: the store step of [process_contact_search].

    Modelling conventions.
      - A Python [str] is a Rocq [string]; a character is a code point in
        U+0000..U+00FF (Latin-1), so the character tables below ([\d],
        [str.isdigit], [str.lower], [str.strip]) are Python's tables cut to
        that range.
      - A Python function with a [try]/[except] is a function into [res]:
        [Ret v] is a normal return, [Raise e] an exception leaving the
        function.  Every exception modelled derives from [Exception].
      - The third-party libraries ([phonenumbers], [email_validator]) are
        parameters: nothing is assumed about what they return or raise.
        For the extraction patterns of the agent the [re] engine is a
        parameter too: a function from pattern and text to the matches.
      - [logger] calls are kept where a property speaks of the log (the
        store); the helpers' handlers only return.
      - The SQLite database is a pair of tables (lists of rows in rowid
        order) with their AUTOINCREMENT counters; a storage fault is an
        [sqlite3.Error] raised by a statement, chosen by a fault oracle. *)

From Stdlib Require Import ZArith NArith String Ascii List Bool Lia.
From stdpp Require Import gmap strings.
Import ListNotations.

Open Scope string_scope.

(* stdpp freezes [String.append] under [simpl]; the proofs below compute with it. *)
Arguments String.append !s1 s2 : simpl nomatch.

(** ** Python strings *)

Module Py.

Definition code (c : ascii) : N := N_of_ascii c.

Definition in_range (lo hi : N) (c : ascii) : bool :=
  ((lo <=? code c) && (code c <=? hi))%N.

(** [\d] of the [re] module on [str] patterns: Unicode category Nd, which
    in U+0000..U+00FF is '0'..'9'. *)
Definition re_digit (c : ascii) : bool := in_range 48 57 c.

(** [str.isdigit]: Numeric_Type Digit or Decimal, which adds the
    superscripts U+00B2, U+00B3 and U+00B9. *)
Definition isdigit (c : ascii) : bool :=
  re_digit c || (code c =? 178)%N || (code c =? 179)%N || (code c =? 185)%N.

Definition is_upper_az (c : ascii) : bool := in_range 65 90 c.
Definition is_lower_az (c : ascii) : bool := in_range 97 122 c.
Definition is_alpha_az (c : ascii) : bool := is_upper_az c || is_lower_az c.

(** [str.lower] on one character: 'A'..'Z' and U+00C0..U+00DE (without the
    multiplication sign U+00D7) move up by 32. *)
Definition lower_char (c : ascii) : ascii :=
  if is_upper_az c || (in_range 192 222 c && negb (code c =? 215)%N)
  then ascii_of_N (code c + 32)
  else c.

(** [str.isspace]: in Latin-1 the characters U+0009..U+000D, U+001C..U+0020,
    U+0085 and U+00A0. *)
Definition isspace (c : ascii) : bool :=
  in_range 9 13 c || in_range 28 32 c || (code c =? 133)%N || (code c =? 160)%N.

Fixpoint map_str (f : ascii -> ascii) (s : string) : string :=
  match s with
  | EmptyString => EmptyString
  | String c s' => String (f c) (map_str f s')
  end.

Fixpoint filter_str (keep : ascii -> bool) (s : string) : string :=
  match s with
  | EmptyString => EmptyString
  | String c s' => if keep c then String c (filter_str keep s') else filter_str keep s'
  end.

Fixpoint all_str (p : ascii -> bool) (s : string) : bool :=
  match s with
  | EmptyString => true
  | String c s' => p c && all_str p s'
  end.

Fixpoint any_str (p : ascii -> bool) (s : string) : bool :=
  match s with
  | EmptyString => false
  | String c s' => p c || any_str p s'
  end.

(** [s.lower()] *)
Definition lower (s : string) : string := map_str lower_char s.

(** [not s]: the empty string is the only false string. *)
Definition is_empty (s : string) : bool :=
  match s with EmptyString => true | _ => false end.

(** [s.startswith(p)] *)
Fixpoint startswith (s p : string) : bool :=
  match p with
  | EmptyString => true
  | String a p' =>
      match s with
      | EmptyString => false
      | String b s' => Ascii.eqb a b && startswith s' p'
      end
  end.

(** [s[n:]] for [0 <= n] *)
Fixpoint slice_from (n : nat) (s : string) : string :=
  match n, s with
  | O, _ => s
  | S n', String _ s' => slice_from n' s'
  | S _, EmptyString => EmptyString
  end.

(** [sub in s] *)
Fixpoint contains (s sub : string) : bool :=
  startswith s sub ||
  match s with
  | EmptyString => false
  | String _ s' => contains s' sub
  end.

(** [any(sub in s for sub in subs)] *)
Definition any_in (subs : list string) (s : string) : bool :=
  existsb (fun sub => contains s sub) subs.

(** [c in s] for a one-character [c] *)
Definition contains_char (s : string) (c : ascii) : bool :=
  any_str (Ascii.eqb c) s.

Fixpoint lstrip (s : string) : string :=
  match s with
  | String c s' => if isspace c then lstrip s' else s
  | EmptyString => EmptyString
  end.

Fixpoint rstrip (s : string) : string :=
  match s with
  | EmptyString => EmptyString
  | String c s' =>
      match rstrip s' with
      | EmptyString => if isspace c then EmptyString else String c EmptyString
      | r => String c r
      end
  end.

(** [s.strip()] *)
Definition strip (s : string) : string := rstrip (lstrip s).

(** [re.sub(r'[^...]', '', s)]: every character outside the class is
    deleted, the others are kept in order. *)
Definition re_sub_not_in (class : ascii -> bool) (s : string) : string :=
  filter_str class s.

End Py.

(** ** Exceptions and results *)

Inductive exn : Type :=
| NumberParseException      (* phonenumbers *)
| EmailNotValidError        (* email_validator *)
| SqliteError               (* sqlite3.Error: a storage fault *)
| OtherException (name : string).

Inductive res (A : Type) : Type :=
| Ret (a : A)
| Raise (e : exn).
Arguments Ret {A} a.
Arguments Raise {A} e.

Definition is_NumberParseException (e : exn) : bool :=
  match e with NumberParseException => true | _ => false end.

Definition is_EmailNotValidError (e : exn) : bool :=
  match e with EmailNotValidError => true | _ => false end.

(** [try: body  except Exception as e: handler e] *)
Definition try_except {A} (body : res A) (handler : exn -> res A) : res A :=
  match body with
  | Ret a => Ret a
  | Raise e => handler e
  end.

(** [try: body  except E: handler], for one exception class [E]: any other
    exception goes on. *)
Definition try_except_only {A} (is_E : exn -> bool) (body : res A) (handler : res A) : res A :=
  match body with
  | Ret a => Ret a
  | Raise e => if is_E e then handler else Raise e
  end.

Definition res_bind {A B} (m : res A) (k : A -> res B) : res B :=
  match m with
  | Ret a => k a
  | Raise e => Raise e
  end.

(** ** helpers.py: phone numbers *)

Module Helpers.
Import Py.

(** The class [[\d+]]: a digit or a plus sign. *)
Definition digit_or_plus (c : ascii) : bool := re_digit c || Ascii.eqb c "+".

(** The [if]/[elif] chain of [clean_phone_number] on [cleaned]
    ("Handle Indonesian number formats"). *)
Definition indonesian_format (cleaned : string) : string :=
  if startswith cleaned "08" then
    (* Convert 08xxx to +628xxx *)
    "+62" ++ slice_from 1 cleaned
  else if startswith cleaned "62" && negb (startswith cleaned "+62") then
    (* Convert 62xxx to +62xxx *)
    "+" ++ cleaned
  else if startswith cleaned "8" && (9 <=? String.length cleaned)%nat then
    (* Convert 8xxx to +628xxx *)
    "+62" ++ cleaned
  else if negb (startswith cleaned "+") && (10 <=? String.length cleaned)%nat then
    (* Assume Indonesian number *)
    "+62" ++ cleaned
  else cleaned.

(** The body of the [try] of [clean_phone_number]. *)
Definition clean_phone_number_body (phone : string) : res (option string) :=
  if is_empty phone then Ret None
  else
    (* cleaned = re.sub(r'[^\d+]', '', phone) *)
    let cleaned := re_sub_not_in digit_or_plus phone in
    let cleaned := indonesian_format cleaned in
    if startswith cleaned "+62"
       && (12 <=? String.length cleaned)%nat
       && (String.length cleaned <=? 15)%nat
    then Ret (Some cleaned)
    else Ret None.

Definition clean_phone_number (phone : string) : res (option string) :=
  try_except (clean_phone_number_body phone) (fun _ => Ret None).

(** The [if]/[elif] chain in the first loop of [create_contact_summary]:
    the key of the summary list the contact is appended to, if any. *)
Definition summary_key (contact : string) : option string :=
  let contact_lower := lower contact in
  if contains contact_lower "whatsapp" || contains contact_lower "wa." then
    Some "whatsapp_contacts"
  else if contains_char contact "@" then Some "email_contacts"
  else if any_str isdigit contact then Some "phone_contacts"
  else if any_in ["instagram"; "facebook"; "tiktok"] contact_lower then
    Some "social_contacts"
  else None.

(** *** Regular expressions of [validate_email_address]

    The pattern is anchored and has no group, so only the language it
    accepts matters; it is decided with Brzozowski derivatives. *)

Inductive regex : Type :=
| Void
| Eps
| Class (p : ascii -> bool)
| Seq (r1 r2 : regex)
| Alt (r1 r2 : regex)
| Star (r : regex).

Fixpoint nullable (r : regex) : bool :=
  match r with
  | Void => false
  | Eps => true
  | Class _ => false
  | Seq r1 r2 => nullable r1 && nullable r2
  | Alt r1 r2 => nullable r1 || nullable r2
  | Star _ => true
  end.

Fixpoint deriv (c : ascii) (r : regex) : regex :=
  match r with
  | Void => Void
  | Eps => Void
  | Class p => if p c then Eps else Void
  | Seq r1 r2 =>
      if nullable r1 then Alt (Seq (deriv c r1) r2) (deriv c r2)
      else Seq (deriv c r1) r2
  | Alt r1 r2 => Alt (deriv c r1) (deriv c r2)
  | Star r1 => Seq (deriv c r1) (Star r1)
  end.

Fixpoint accepts (r : regex) (s : string) : bool :=
  match s with
  | EmptyString => nullable r
  | String c s' => accepts (deriv c r) s'
  end.

Definition lit (c : ascii) : regex := Class (Ascii.eqb c).
(** [r+] *)
Definition plus (r : regex) : regex := Seq r (Star r).
(** [r{2,}] *)
Definition at_least_2 (r : regex) : regex := Seq r (Seq r (Star r)).
(** [$]: the end of the string, or just before a newline that ends it. *)
Definition dollar : regex := Alt Eps (lit "010").

(** [[a-zA-Z0-9._%+-]] *)
Definition local_class (c : ascii) : bool :=
  in_range 97 122 c || in_range 65 90 c || in_range 48 57 c
  || Ascii.eqb c "." || Ascii.eqb c "_" || Ascii.eqb c "%"
  || Ascii.eqb c "+" || Ascii.eqb c "-".

(** [[a-zA-Z0-9.-]] *)
Definition domain_class (c : ascii) : bool :=
  in_range 97 122 c || in_range 65 90 c || in_range 48 57 c
  || Ascii.eqb c "." || Ascii.eqb c "-".

(** [[a-zA-Z]] *)
Definition tld_class (c : ascii) : bool :=
  in_range 97 122 c || in_range 65 90 c.

(** [r'^[a-zA-Z0-9._%+-]+@[a-zA-Z0-9.-]+\.[a-zA-Z]{2,}$'] *)
Definition email_pattern : regex :=
  Seq (plus (Class local_class))
   (Seq (lit "@")
    (Seq (plus (Class domain_class))
     (Seq (lit ".")
      (Seq (at_least_2 (Class tld_class))
       dollar)))).

(** [re.match(pattern, s)] as a truth value, for a pattern that ends in
    [$]: the match starts at position 0 and must reach the end. *)
Definition re_match (pattern : regex) (s : string) : bool := accepts pattern s.

(** *** The validators; the two libraries are parameters *)

Section Validators.

(** [phonenumbers.PhoneNumber], [phonenumbers.parse(number, region)] and
    [phonenumbers.is_valid_number(parsed)]. *)
Variable PhoneNumber : Type.
Variable phonenumbers_parse : string -> string -> res PhoneNumber.
Variable phonenumbers_is_valid_number : PhoneNumber -> res bool.

(** [email_validator.validate_email(email)] *)
Variable ValidatedEmail : Type.
Variable validate_email : string -> res ValidatedEmail.

(** [if not cleaned]: [None] and the empty string are false. *)
Definition not_opt (o : option string) : bool :=
  match o with
  | None => true
  | Some s => is_empty s
  end.

Definition validate_phone_number_body (phone : string) : res bool :=
  if is_empty phone then Ret false
  else
    res_bind (clean_phone_number phone) (fun cleaned_opt =>
    if not_opt cleaned_opt then Ret false
    else
      let cleaned := default EmptyString cleaned_opt in
      (* the inner try: [Some b] is [return b], [None] is [pass] *)
      res_bind
        (try_except_only is_NumberParseException
           (res_bind (phonenumbers_parse cleaned "ID") (fun parsed =>
            res_bind (phonenumbers_is_valid_number parsed) (fun valid =>
            Ret (Some valid))))
           (Ret None))
        (fun returned =>
         match returned with
         | Some valid => Ret valid
         | None =>
             if startswith cleaned "+62" then
               (* digits_only = re.sub(r'[^\d]', '', cleaned) *)
               let digits_only := re_sub_not_in re_digit cleaned in
               Ret ((11 <=? String.length digits_only)%nat
                    && (String.length digits_only <=? 15)%nat)
             else Ret false
         end)).

Definition validate_phone_number (phone : string) : res bool :=
  try_except (validate_phone_number_body phone) (fun _ => Ret false).

Definition validate_email_address_body (email : string) : res bool :=
  if is_empty email then Ret false
  else if negb (re_match email_pattern email) then Ret false
  else
    try_except_only is_EmailNotValidError
      (res_bind (validate_email email) (fun validated => Ret true))
      (Ret false).

Definition validate_email_address (email : string) : res bool :=
  try_except (validate_email_address_body email) (fun _ => Ret false).

End Validators.

End Helpers.

(** ** database.py: the contact store *)

Module Database.
Import Py.

(** *** Contact strings *)

Definition _determine_contact_type (contact : string) : string :=
  let contact_lower := lower contact in
  if contains contact_lower "whatsapp" || contains contact_lower "wa." then "whatsapp"
  else if contains_char contact "@" then "email"
  else if any_str isdigit contact then "phone"
  else if any_in ["instagram"; "facebook"; "tiktok"; "youtube"] contact_lower then "social"
  else "other".

(** The [for prefix in ...] loop of [_extract_contact_value]: the first
    prefix the lower-cased contact starts with is cut off. *)
Fixpoint strip_first_prefix (prefixes : list string) (contact : string) : string :=
  match prefixes with
  | [] => strip contact
  | prefix :: rest =>
      if startswith (lower contact) prefix
      then strip (slice_from (String.length prefix) contact)
      else strip_first_prefix rest contact
  end.

Definition _extract_contact_value (contact : string) : string :=
  strip_first_prefix ["phone:"; "email:"; "whatsapp:"; "wa:"; "social:"] contact.

(** *** The input dictionary

    [brand_data] is read with [brand_data.get(key, default)] only; a field
    is [None] when the key is absent, and a key that is present holds a
    string (a list of strings for [contacts]). *)
Record brand_data : Type := {
  bd_name : option string;
  bd_website : option string;
  bd_category : option string;
  bd_location : option string;
  bd_business_type : option string;
  bd_contacts : option (list string);
  bd_description : option string
}.

(** [d.get(key, default)] *)
Definition get {A} (field : option A) (default : A) : A :=
  match field with
  | Some v => v
  | None => default
  end.

(** [f"{d.get(key)}"]: an absent key prints as [None]. *)
Definition fmt (field : option string) : string := get field "None".

(** *** Tables

    Columns that [save_brand] neither reads nor writes after the insert
    ([social_media], [notes], the two timestamps) are left out.  The
    [contacts] column holds [json.dumps] of a list of strings and is kept
    as that list. *)
Record brand_row : Type := {
  b_id : Z;
  b_name : string;
  b_website : string;
  b_category : string;
  b_location : string;
  b_business_type : string;
  b_contacts : list string;
  b_description : string;
  b_is_active : bool
}.

Record contact_row : Type := {
  c_id : Z;
  c_brand_id : Z;
  c_contact_type : string;
  c_contact_value : string
}.

(** [brands_seq] and [contacts_seq] are the AUTOINCREMENT counters of
    [sqlite_sequence]: the largest rowid ever given out. *)
Record database : Type := {
  brands : list brand_row;
  brands_seq : Z;
  contacts : list contact_row;
  contacts_seq : Z
}.

(** [init_database] on a new file *)
Definition init_database : database :=
  {| brands := []; brands_seq := 0; contacts := []; contacts_seq := 0 |}.

(** *** SQL statements as functions on the tables *)

(** [WHERE name = ? OR website = ?]: text is compared byte by byte. *)
Definition brand_matches (name website : string) (row : brand_row) : bool :=
  String.eqb (b_name row) name || String.eqb (b_website row) website.

(** [SELECT id FROM brands WHERE name = ? OR website = ?] then
    [cursor.fetchone()]: the first matching row of the table scan. *)
Definition select_brand_id (name website : string) (d : database) : option Z :=
  option_map b_id (find (brand_matches name website) (brands d)).

Definition set_brand_fields
    (website category location business_type : string) (contacts_json : list string)
    (description : string) (row : brand_row) : brand_row :=
  {| b_id := b_id row;
     b_name := b_name row;
     b_website := website;
     b_category := category;
     b_location := location;
     b_business_type := business_type;
     b_contacts := contacts_json;
     b_description := description;
     b_is_active := b_is_active row |}.

(** [UPDATE brands SET website = ?, category = ?, location = ?,
    business_type = ?, contacts = ?, description = ?, updated_at = ...
    WHERE id = ?] *)
Definition update_brand
    (website category location business_type : string) (contacts_json : list string)
    (description : string) (brand_id : Z) (d : database) : database :=
  {| brands :=
       map (fun row =>
              if (b_id row =? brand_id)%Z
              then set_brand_fields website category location business_type
                     contacts_json description row
              else row)
           (brands d);
     brands_seq := brands_seq d;
     contacts := contacts d;
     contacts_seq := contacts_seq d |}.

(** [INSERT INTO brands (name, website, category, location, business_type,
    contacts, description) VALUES (...)]; the result is [cursor.lastrowid]. *)
Definition insert_brand
    (name website category location business_type : string) (contacts_json : list string)
    (description : string) (d : database) : Z * database :=
  let id := (brands_seq d + 1)%Z in
  (id,
   {| brands :=
        brands d ++
        [ {| b_id := id;
             b_name := name;
             b_website := website;
             b_category := category;
             b_location := location;
             b_business_type := business_type;
             b_contacts := contacts_json;
             b_description := description;
             b_is_active := true |} ];
      brands_seq := id;
      contacts := contacts d;
      contacts_seq := contacts_seq d |}).

(** [DELETE FROM contacts WHERE brand_id = ?] *)
Definition delete_contacts (brand_id : Z) (d : database) : database :=
  {| brands := brands d;
     brands_seq := brands_seq d;
     contacts := List.filter (fun c => negb (c_brand_id c =? brand_id)%Z) (contacts d);
     contacts_seq := contacts_seq d |}.

(** [INSERT INTO contacts (brand_id, contact_type, contact_value) VALUES (?, ?, ?)] *)
Definition insert_contact (brand_id : Z) (contact_type contact_value : string)
    (d : database) : database :=
  let id := (contacts_seq d + 1)%Z in
  {| brands := brands d;
     brands_seq := brands_seq d;
     contacts :=
       contacts d ++
       [ {| c_id := id;
            c_brand_id := brand_id;
            c_contact_type := contact_type;
            c_contact_value := contact_value |} ];
     contacts_seq := id |}.

(** *** The store monad: state, log and exceptions *)

Inductive log_record : Type :=
| LogInfo (msg : string)
| LogError (msg : string) (cause : exn).

Record world : Type := {
  db : database;
  log : list log_record
}.

Inductive outcome (A : Type) : Type :=
| Done (a : A) (w : world)
| Failed (e : exn) (w : world).
Arguments Done {A} a w.
Arguments Failed {A} e w.

Definition M (A : Type) : Type := world -> outcome A.

Definition ret {A} (a : A) : M A := fun w => Done a w.

Definition bind {A B} (m : M A) (k : A -> M B) : M B :=
  fun w =>
    match m w with
    | Done a w' => k a w'
    | Failed e w' => Failed e w'
    end.

Notation "x <- m ;; k" := (bind m (fun x => k))
  (at level 100, m at next level, right associativity).
Notation "m ;;; k" := (bind m (fun _ => k))
  (at level 100, right associativity).

(** [try: body  except Exception as e: handler e] *)
Definition try_except_M {A} (body : M A) (handler : exn -> M A) : M A :=
  fun w =>
    match body w with
    | Done a w' => Done a w'
    | Failed e w' => handler e w'
    end.

Definition logger_info (msg : string) : M unit :=
  fun w => Done tt {| db := db w; log := log w ++ [LogInfo msg] |}.

Definition logger_error (msg : string) (e : exn) : M unit :=
  fun w => Done tt {| db := db w; log := log w ++ [LogError msg e] |}.

(** The places of [save_brand] where SQLite is called. *)
Inductive db_op : Type :=
| Connect
| SelectBrand
| UpdateBrand
| InsertBrand
| DeleteContacts
| InsertContact (index : nat)
| Commit.

Section Store.

(** The fault oracle: [fault op = true] when the call at [op] raises
    [sqlite3.Error]. *)
Variable fault : db_op -> bool.

(** One call into SQLite: it raises, or runs the statement. *)
Definition execute {A} (op : db_op) (stmt : database -> A * database) : M A :=
  fun w =>
    if fault op then Failed SqliteError w
    else let '(a, d) := stmt (db w) in Done a {| db := d; log := log w |}.

Definition query {A} (op : db_op) (q : database -> A) : M A :=
  execute op (fun d => (q d, d)).

Definition statement (op : db_op) (f : database -> database) : M unit :=
  execute op (fun d => (tt, f d)).

(** [with sqlite3.connect(self.db_path) as conn: body]: leaving the
    block by an exception rolls the transaction back. *)
Definition with_connection {A} (body : M A) : M A :=
  fun w =>
    if fault Connect then Failed SqliteError w
    else
      match body w with
      | Done a w' => Done a w'
      | Failed e w' => Failed e {| db := db w; log := log w' |}
      end.

(** The [for contact in contacts] loop of [_save_contacts]; [index] is
    the position of the contact in the list. *)
Fixpoint save_contacts_loop (brand_id : Z) (index : nat) (contact_list : list string)
    : M unit :=
  match contact_list with
  | [] => ret tt
  | contact :: rest =>
      let contact_type := _determine_contact_type contact in
      let contact_value := _extract_contact_value contact in
      (if negb (is_empty contact_value)
       then statement (InsertContact index)
              (insert_contact brand_id contact_type contact_value)
       else ret tt) ;;;
      save_contacts_loop brand_id (S index) rest
  end.

Definition _save_contacts (brand_id : Z) (contact_list : list string) : M unit :=
  try_except_M
    ((* Clear existing contacts for this brand *)
     statement DeleteContacts (delete_contacts brand_id) ;;;
     save_contacts_loop brand_id 0 contact_list)
    (fun e => logger_error "Error saving contacts" e).

Definition save_brand (brand_data : brand_data) : M Z :=
  try_except_M
    (with_connection
       (existing <- query SelectBrand
                      (select_brand_id (get (bd_name brand_data) EmptyString)
                                       (get (bd_website brand_data) EmptyString)) ;;
        brand_id <-
          match existing with
          | Some brand_id =>
              statement UpdateBrand
                (update_brand
                   (get (bd_website brand_data) EmptyString)
                   (get (bd_category brand_data) EmptyString)
                   (get (bd_location brand_data) EmptyString)
                   (get (bd_business_type brand_data) EmptyString)
                   (get (bd_contacts brand_data) [])
                   (get (bd_description brand_data) EmptyString)
                   brand_id) ;;;
              logger_info ("Updated existing brand: " ++ fmt (bd_name brand_data)) ;;;
              ret brand_id
          | None =>
              brand_id <- execute InsertBrand
                            (insert_brand
                               (get (bd_name brand_data) "Unknown")
                               (get (bd_website brand_data) EmptyString)
                               (get (bd_category brand_data) EmptyString)
                               (get (bd_location brand_data) EmptyString)
                               (get (bd_business_type brand_data) EmptyString)
                               (get (bd_contacts brand_data) [])
                               (get (bd_description brand_data) EmptyString)) ;;
              logger_info ("Saved new brand: " ++ fmt (bd_name brand_data)) ;;;
              ret brand_id
          end ;;
        _save_contacts brand_id (get (bd_contacts brand_data) []) ;;;
        statement Commit (fun d => d) ;;;
        ret brand_id))
    (fun e => logger_error "Error saving brand data" e ;;; ret 0%Z).

End Store.

(** No storage fault at all. *)
Definition no_fault : db_op -> bool := fun _ => false.

(** The contacts of a brand in the [contacts] table. *)
Definition contacts_of (brand_id : Z) (d : database) : list contact_row :=
  List.filter (fun c => (c_brand_id c =? brand_id)%Z) (contacts d).

End Database.

(** ** contact_finder_agent.py: extraction and grouping *)

Module Agent.
Import Py.

(** One entry of the list built by [_extract_all_contacts]: the dictionary
    with the keys [type], [value], [source] and [raw]. *)
Record contact : Type := {
  ct_type : string;
  ct_value : string;
  ct_source : string;
  ct_raw : string
}.

(** [grouped_contacts]: the four buckets, each in insertion order. *)
Record grouped_contacts : Type := {
  whatsapp : list string;
  phone : list string;
  email : list string;
  social : list string
}.

(** The dictionary returned for a query. *)
Record result : Type := {
  query : string;
  whatsapp_numbers : list string;
  phone_numbers : list string;
  email_addresses : list string;
  social_media : list string;
  total_contacts_found : nat
}.

(** [s.replace(old, '')] for a non-empty [old]: the occurrences of [old]
    are deleted from left to right; [skip] counts the characters of the
    current occurrence that are still to be dropped. *)
Fixpoint delete_occurrences (old s : string) (skip : nat) : string :=
  match s with
  | EmptyString => EmptyString
  | String c s' =>
      match skip with
      | S k => delete_occurrences old s' k
      | O =>
          if startswith s old
          then delete_occurrences old s' (String.length old - 1)
          else String c (delete_occurrences old s' 0)
      end
  end.

Definition replace_by_empty (s old : string) : string := delete_occurrences old s 0.

Definition empty_groups : grouped_contacts :=
  {| whatsapp := []; phone := []; email := []; social := [] |}.

(** The body of [for contact in all_contacts] in [_parse_contact_results],
    on the pair of [seen_values] and [grouped_contacts]. *)
Definition group_step (st : gset string * grouped_contacts) (contact : contact)
    : gset string * grouped_contacts :=
  let '(seen_values, g) := st in
  let value := ct_value contact in
  let contact_type := ct_type contact in
  if bool_decide (value ∉ seen_values) then
    let seen_values := seen_values ∪ {[ value ]} in
    if String.eqb contact_type "whatsapp"
       || (String.eqb contact_type "phone" && startswith value "+62") then
      (seen_values,
       {| whatsapp := whatsapp g ++ [value]; phone := phone g;
          email := email g; social := social g |})
    else if String.eqb contact_type "phone" then
      (seen_values,
       {| whatsapp := whatsapp g; phone := phone g ++ [value];
          email := email g; social := social g |})
    else if String.eqb contact_type "email" then
      (seen_values,
       {| whatsapp := whatsapp g; phone := phone g;
          email := email g ++ [value]; social := social g |})
    else if startswith contact_type "social_" then
      (seen_values,
       {| whatsapp := whatsapp g; phone := phone g; email := email g;
          social := social g ++ [replace_by_empty contact_type "social_" ++ ": " ++ value] |})
    else (seen_values, g)
  else (seen_values, g).

(** The whole loop, from the empty set and the empty buckets. *)
Definition group_contacts (all_contacts : list contact) : gset string * grouped_contacts :=
  fold_left group_step all_contacts (∅, empty_groups).

(** [any(grouped_contacts.values())] *)
Definition any_group (g : grouped_contacts) : bool :=
  negb (forallb (fun bucket : list string => match bucket with [] => true | _ => false end)
          [whatsapp g; phone g; email g; social g]).

(** What follows the call of [_extract_all_contacts] in
    [_parse_contact_results]. *)
Definition build_results (all_contacts : list contact) (original_query : string)
    : list result :=
  let '(seen_values, g) := group_contacts all_contacts in
  let result :=
    {| query := original_query;
       whatsapp_numbers := whatsapp g;
       phone_numbers := phone g;
       email_addresses := email g;
       social_media := social g;
       total_contacts_found := size seen_values |} in
  if any_group g then [result] else [].

Section Extraction.

(** The [re] engine, [phonenumbers] and [email_validator] are parameters.
    [re_findall pattern text ignorecase] is [re.findall]; every pattern
    below has at most one group, so a match is a string.
    [re_search pattern text] is [re.search(...)] followed by [.group()]. *)
Variable re_findall : string -> string -> bool -> list string.
Variable re_search : string -> string -> option string.
Variable PhoneNumber : Type.
Variable phonenumbers_parse : string -> string -> res PhoneNumber.
Variable phonenumbers_is_valid_number : PhoneNumber -> res bool.
Variable phonenumbers_format_E164 : PhoneNumber -> res string.
Variable ValidatedEmail : Type.
Variable validate_email : string -> res ValidatedEmail.
Variable validated_email : ValidatedEmail -> string.

Definition _clean_phone_number_body (phone : string) : res (option string) :=
  let cleaned := re_sub_not_in Helpers.digit_or_plus phone in
  let cleaned :=
    if startswith cleaned "08" then
      "+62" ++ slice_from 1 cleaned
    else if startswith cleaned "62" && negb (startswith cleaned "+62") then
      "+" ++ cleaned
    else if startswith cleaned "8" && (9 <=? String.length cleaned)%nat then
      "+62" ++ cleaned
    else cleaned in
  (* the inner try: [Some v] is [return v], [None] falls through *)
  res_bind
    (try_except_only is_NumberParseException
       (res_bind (phonenumbers_parse cleaned "ID") (fun parsed =>
        res_bind (phonenumbers_is_valid_number parsed) (fun valid =>
        if valid
        then res_bind (phonenumbers_format_E164 parsed) (fun e164 => Ret (Some e164))
        else Ret None)))
       (Ret None))
    (fun returned =>
     match returned with
     | Some e164 => Ret (Some e164)
     | None =>
         if startswith cleaned "+62"
            && (12 <=? String.length cleaned)%nat
            && (String.length cleaned <=? 15)%nat
         then Ret (Some cleaned)
         else Ret None
     end).

Definition _clean_phone_number (phone : string) : res (option string) :=
  try_except (_clean_phone_number_body phone) (fun _ => Ret None).

Definition _validate_email_address (email : string) : res (option string) :=
  try_except
    (match re_search "\b[A-Za-z0-9._%+-]+@[A-Za-z0-9.-]+\.[A-Z|a-z]{2,}\b" email with
     | Some email_addr =>
         res_bind (validate_email email_addr) (fun validated =>
         Ret (Some (validated_email validated)))
     | None => Ret None
     end)
    (fun _ => Ret None).

Definition phone_patterns : list string :=
  [ "\+62\s?8\d{8,11}";
    "\+62\s?\d{2,3}\s?\d{7,8}";
    "08\d{8,11}";
    "62\s?8\d{8,11}";
    "\b\d{4}[-.\s]?\d{4}[-.\s]?\d{3,4}\b" ].

Definition email_pattern : string :=
  "\b[A-Za-z0-9._%+-]+@[A-Za-z0-9.-]+\.[A-Z|a-z]{2,}\b".

Definition whatsapp_patterns : list string :=
  [ "wa\.me/(\d+)";
    "whatsapp.*?((?:\+62|62|08)\d{8,12})";
    "WA.*?((?:\+62|62|08)\d{8,12})";
    "hubungi.*?((?:\+62|62|08)\d{8,12})" ].

Definition social_patterns : list (string * string) :=
  [ ("instagram", "instagram\.com/([a-zA-Z0-9._]+)");
    ("facebook", "facebook\.com/([a-zA-Z0-9.]+)");
    ("tiktok", "tiktok\.com/@([a-zA-Z0-9._]+)");
    ("youtube", "youtube\.com/([a-zA-Z0-9]+)");
    ("telegram", "t\.me/([a-zA-Z0-9_]+)") ].

(** [if x:] on an optional string *)
Definition truthy (o : option string) : bool :=
  match o with
  | Some s => negb (is_empty s)
  | None => false
  end.

(** The numbers found by the given patterns, cleaned and tagged
    [contact_type]; a match that does not clean is dropped. *)
Fixpoint cleaned_matches (contact_type source_url : string) (matches : list string)
    : res (list contact) :=
  match matches with
  | [] => Ret []
  | m :: rest =>
      res_bind (_clean_phone_number m) (fun cleaned_phone =>
      res_bind (cleaned_matches contact_type source_url rest) (fun tail =>
      Ret (if truthy cleaned_phone
           then {| ct_type := contact_type;
                   ct_value := default EmptyString cleaned_phone;
                   ct_source := source_url;
                   ct_raw := m |} :: tail
           else tail)))
  end.

Fixpoint validated_emails (source_url : string) (matches : list string)
    : res (list contact) :=
  match matches with
  | [] => Ret []
  | m :: rest =>
      res_bind (_validate_email_address m) (fun validated =>
      res_bind (validated_emails source_url rest) (fun tail =>
      Ret (if truthy validated
           then {| ct_type := "email";
                   ct_value := lower m;
                   ct_source := source_url;
                   ct_raw := m |} :: tail
           else tail)))
  end.

Definition social_matches (source_url : string) (entry : string * string) (text : string)
    : list contact :=
  let '(platform, pattern) := entry in
  map (fun m => {| ct_type := "social_" ++ platform;
                   ct_value := platform ++ ".com/" ++ m;
                   ct_source := source_url;
                   ct_raw := m |})
      (re_findall pattern text true).

Definition _extract_all_contacts (text source_url : string) : res (list contact) :=
  res_bind (cleaned_matches "phone" source_url
              (flat_map (fun pattern => re_findall pattern text true) phone_patterns))
    (fun phones =>
  res_bind (validated_emails source_url (re_findall email_pattern text false))
    (fun emails =>
  res_bind (cleaned_matches "whatsapp" source_url
              (flat_map (fun pattern => re_findall pattern text true) whatsapp_patterns))
    (fun whatsapps =>
  Ret (phones ++ emails ++ whatsapps
       ++ flat_map (fun entry => social_matches source_url entry text) social_patterns)%list))).

Definition _parse_contact_results (agent_result original_query : string)
    : res (list result) :=
  try_except
    (res_bind (_extract_all_contacts agent_result EmptyString) (fun all_contacts =>
     Ret (build_results all_contacts original_query)))
    (fun _ => Ret []).

End Extraction.

End Agent.

(** ** The properties of the specification, in its words *)

Module Props.
Import Py.

(** "digits only after the leading [+]": every character from position 1
    on is a digit. *)
Definition digits_after_plus (c : string) : bool :=
  all_str re_digit (slice_from 1 c).

(** The "whatsapp marker" of a contact string: the substring [whatsapp] or
    [wa.] in its lower-case form. *)
Definition whatsapp_marker (contact : string) : bool :=
  contains (lower contact) "whatsapp" || contains (lower contact) "wa.".

Import Database.

(** The two upserts of the "upsert merge" scenario. *)
Definition acme_first : brand_data :=
  {| bd_name := Some "Acme";
     bd_website := Some "acme.id";
     bd_category := None;
     bd_location := None;
     bd_business_type := None;
     bd_contacts := Some ["a@acme.id"];
     bd_description := None |}.

Definition acme_second : brand_data :=
  {| bd_name := Some "Acme";
     bd_website := Some "acme.id";
     bd_category := Some "Skincare";
     bd_location := None;
     bd_business_type := None;
     bd_contacts := Some ["+6281111111111"];
     bd_description := None |}.

(** A later observation of the same brand without a category. *)
Definition acme_no_category : brand_data :=
  {| bd_name := Some "Acme";
     bd_website := Some "acme.id";
     bd_category := None;
     bd_location := None;
     bd_business_type := None;
     bd_contacts := Some ["+6281111111111"];
     bd_description := None |}.

(** A brand known by its name only. *)
Definition named (name : string) : brand_data :=
  {| bd_name := Some name;
     bd_website := None;
     bd_category := None;
     bd_location := None;
     bd_business_type := None;
     bd_contacts := None;
     bd_description := None |}.

(** The store after [init_database], nothing logged yet. *)
Definition new_world : world := {| db := init_database; log := [] |}.


(** The contact stage leaves the [brands] table alone. *)
Definition same_brands (d d' : database) : Prop :=
  brands d' = brands d /\ brands_seq d' = brands_seq d.

(** The row a contact string leaves in the [contacts] table, if any. *)
Definition store_contact (brand_id : Z) (d : database) (contact : string) : database :=
  if negb (is_empty (_extract_contact_value contact))
  then insert_contact brand_id (_determine_contact_type contact)
         (_extract_contact_value contact) d
  else d.

(** The [contacts] table after a fault-free [_save_contacts]: the rows of
    the brand are deleted, then one row per contact is added. *)
Definition replace_contacts (brand_id : Z) (contact_list : list string) (d : database)
    : database :=
  fold_left (store_contact brand_id) contact_list (delete_contacts brand_id d).

(** The values of the rows of [brand_id] in the [contacts] table. *)
Definition contact_values (brand_id : Z) (d : database) : list string :=
  map c_contact_value (contacts_of brand_id d).






Import Agent.

(** The first candidate of the list that carries the value [v]. *)
Definition first_with_value (v : string) (all_contacts : list contact) : option contact :=
  find (fun c => String.eqb (ct_value c) v) all_contacts.

(** The test that sends a new value to the [whatsapp] bucket. *)
Definition whatsapp_rule (c : contact) : bool :=
  String.eqb (ct_type c) "whatsapp"
  || (String.eqb (ct_type c) "phone" && startswith (ct_value c) "+62").

(** The test that sends a new value to the [phone] bucket. *)
Definition phone_rule (c : contact) : bool :=
  negb (whatsapp_rule c) && String.eqb (ct_type c) "phone".

(** A candidate found by a plain phone pattern. *)
Definition plain_phone (v raw : string) : contact :=
  {| ct_type := "phone"; ct_value := v; ct_source := EmptyString; ct_raw := raw |}.

End Props.

(** ** helpers.py: the other pure helpers *)

Module HelpersMore.
Import Py Helpers.

(** [format_whatsapp_number]: the cleaned number without its plus signs,
    the input itself when it does not clean. *)
Definition format_whatsapp_number (phone : string) : res string :=
  try_except
    (res_bind (clean_phone_number phone) (fun cleaned =>
     if negb (not_opt cleaned)
     then
       (* Remove + for WhatsApp API *)
       Ret (Agent.replace_by_empty (default EmptyString cleaned) "+")
     else Ret phone))
    (fun _ => Ret phone).

Definition beauty_keywords : list string :=
  [ "skincare"; "makeup"; "kosmetik"; "kecantikan"; "perawatan";
    "serum"; "moisturizer"; "cleanser"; "toner"; "masker";
    "foundation"; "lipstick"; "eyeshadow"; "blush"; "concealer";
    "sunscreen"; "essence"; "facial"; "body care"; "hair care";
    "natural"; "organic"; "halal"; "herbal"; "traditional" ].

Definition business_keywords : list string :=
  [ "umkm"; "usaha"; "bisnis"; "brand"; "company"; "enterprise";
    "startup"; "home industry"; "small business"; "lokal";
    "indonesia"; "jakarta"; "surabaya"; "bandung"; "medan" ].

(** [extract_business_keywords]: the keywords of the two tables that occur
    in the lower-cased text, in table order. *)
Definition extract_business_keywords (text : string) : res (list string) :=
  try_except
    (let all_keywords := (beauty_keywords ++ business_keywords)%list in
     let text_lower := lower text in
     Ret (List.filter (fun keyword => contains text_lower keyword) all_keywords))
    (fun _ => Ret []).

Definition large_indicators : list string :=
  [ "group"; "corporation"; "tbk"; "pt."; "multinational";
    "international"; "holding"; "conglomerate" ].

Definition medium_indicators : list string :=
  [ "company"; "enterprise"; "corporation"; "industry";
    "manufacturer"; "distributor"; "wholesale" ].

Definition small_indicators : list string :=
  [ "umkm"; "home"; "handmade"; "artisan"; "lokal"; "rumahan";
    "startup"; "small"; "micro"; "personal"; "individual" ].

(** A value of the dictionary [brand_info], as far as
    [categorize_business_size] tells values apart: [None], a string, a
    list (and any other sized container) by its items, a number. *)
Inductive value : Type :=
| VNone
| VStr (s : string)
| VList (items : list string)
| VInt (n : Z).

(** [brand_info] at the keys that [categorize_business_size] reads; an
    absent key is [None]. *)
Record size_input : Type := {
  sz_name : option value;
  sz_website : option value;
  sz_description : option value;
  sz_contacts : option value
}.

(** [brand_info.get(key, '').lower()]: only a string has [lower]. *)
Definition get_lower (field : option value) : res string :=
  match field with
  | None => Ret (lower EmptyString)
  | Some (VStr s) => Ret (lower s)
  | Some _ => Raise (OtherException "AttributeError")
  end.

(** [len(brand_info.get('contacts', []))]: [None] and a number have no
    [len]. *)
Definition get_len (field : option value) : res nat :=
  match field with
  | None => Ret 0%nat
  | Some (VStr s) => Ret (String.length s)
  | Some (VList items) => Ret (length items)
  | Some _ => Raise (OtherException "TypeError")
  end.

(** [categorize_business_size]; [brand_info] is read at the keys [name],
    [website], [description] and [contacts]. *)
Definition categorize_business_size (brand_info : size_input) : res string :=
  try_except
    (res_bind (get_lower (sz_name brand_info)) (fun name =>
     res_bind (get_lower (sz_website brand_info)) (fun website =>
     res_bind (get_lower (sz_description brand_info)) (fun description =>
     (* text_to_analyze = f"{name} {website} {description}" *)
     let text_to_analyze := name ++ " " ++ website ++ " " ++ description in
     if any_in large_indicators text_to_analyze then Ret "Large"
     else if any_in medium_indicators text_to_analyze then Ret "Medium"
     else if any_in small_indicators text_to_analyze then Ret "Small"
     else
       (* [website and len(...) > 2]: [len] is called for a website that is
          not empty *)
       if negb (is_empty website)
       then res_bind (get_len (sz_contacts brand_info)) (fun n =>
            if (2 <? n)%nat then Ret "Medium" else Ret "Small")
       else Ret "Small"))))
    (fun _ => Ret "Unknown").

Definition beauty_categories : list string :=
  [ "skincare"; "makeup"; "cosmetics"; "beauty tools";
    "hair care"; "body care"; "fragrance"; "nail care" ].

Definition business_types : list string :=
  [ "UMKM skincare"; "brand lokal makeup"; "kosmetik halal";
    "perawatan wajah alami"; "startup beauty Indonesia" ].

Definition location_suggestions (query : string) : list string :=
  [ query ++ " Jakarta"; query ++ " Surabaya"; query ++ " Bandung";
    query ++ " Yogyakarta"; query ++ " Indonesia" ].

(** [generate_search_suggestions]; [l[:n]] is [firstn n l]. *)
Definition generate_search_suggestions (query : string) : res (list string) :=
  try_except
    (let suggestions := [] in
     let query_lower := lower query in
     let suggestions :=
       if any_in ["beauty"; "kecantikan"; "kosmetik"] query_lower
       then (suggestions ++ firstn 3 beauty_categories)%list else suggestions in
     let suggestions :=
       if any_in ["umkm"; "small"; "local"; "lokal"] query_lower
       then (suggestions ++ firstn 3 business_types)%list else suggestions in
     let suggestions :=
       if (3 <? String.length query)%nat
       then (suggestions ++ firstn 2 (location_suggestions query))%list
       else suggestions in
     Ret (firstn 5 suggestions))
    (fun _ => Ret []).

(** The dictionary read by [create_contact_summary], at its keys [name],
    [website], [contacts], [whatsapp_numbers], [email_addresses],
    [phone_numbers] and [social_media]; [None] is an absent key. *)
Record summary_input : Type := {
  si_name : option string;
  si_website : option string;
  si_contacts : option (list string);
  si_whatsapp_numbers : option (list string);
  si_email_addresses : option (list string);
  si_phone_numbers : option (list string);
  si_social_media : option (list string)
}.

(** The four lists of the summary while they are filled. *)
Record summary_lists : Type := {
  sl_whatsapp : list string;
  sl_email : list string;
  sl_phone : list string;
  sl_social : list string
}.

(** The summary returned.  Each list is [list(set(...))]: its order is not
    fixed by the language, so the model keeps the set. *)
Record contact_summary : Type := {
  brand_name : string;
  whatsapp_contacts : gset string;
  email_contacts : gset string;
  phone_contacts : gset string;
  social_contacts : gset string;
  has_website : bool;
  total_contacts : nat
}.

(** The body of [for contact in contacts]. *)
Definition summary_step (lists : summary_lists) (contact : string) : summary_lists :=
  let contact_lower := lower contact in
  if contains contact_lower "whatsapp" || contains contact_lower "wa." then
    {| sl_whatsapp := sl_whatsapp lists ++ [contact]; sl_email := sl_email lists;
       sl_phone := sl_phone lists; sl_social := sl_social lists |}
  else if contains_char contact "@" then
    {| sl_whatsapp := sl_whatsapp lists; sl_email := sl_email lists ++ [contact];
       sl_phone := sl_phone lists; sl_social := sl_social lists |}
  else if any_str isdigit contact then
    {| sl_whatsapp := sl_whatsapp lists; sl_email := sl_email lists;
       sl_phone := sl_phone lists ++ [contact]; sl_social := sl_social lists |}
  else if any_in ["instagram"; "facebook"; "tiktok"] contact_lower then
    {| sl_whatsapp := sl_whatsapp lists; sl_email := sl_email lists;
       sl_phone := sl_phone lists; sl_social := sl_social lists ++ [contact] |}
  else lists.

(** "Also check specific contact type fields": each list is extended by
    the field of its kind. *)
Definition extend_with_fields (brand_data : summary_input) (lists : summary_lists)
    : summary_lists :=
  {| sl_whatsapp := sl_whatsapp lists ++ Database.get (si_whatsapp_numbers brand_data) [];
     sl_email := sl_email lists ++ Database.get (si_email_addresses brand_data) [];
     sl_phone := sl_phone lists ++ Database.get (si_phone_numbers brand_data) [];
     sl_social := sl_social lists ++ Database.get (si_social_media brand_data) [] |}.

Definition create_contact_summary (brand_data : summary_input) : res contact_summary :=
  try_except
    (let lists :=
       fold_left summary_step (Database.get (si_contacts brand_data) [])
         {| sl_whatsapp := []; sl_email := []; sl_phone := []; sl_social := [] |} in
     let lists := extend_with_fields brand_data lists in
     (* Remove duplicates *)
     let whatsapp : gset string := list_to_set (sl_whatsapp lists) in
     let email : gset string := list_to_set (sl_email lists) in
     let phone : gset string := list_to_set (sl_phone lists) in
     let social : gset string := list_to_set (sl_social lists) in
     Ret {| brand_name := Database.get (si_name brand_data) "Unknown";
            whatsapp_contacts := whatsapp;
            email_contacts := email;
            phone_contacts := phone;
            social_contacts := social;
            has_website :=
              negb (is_empty (Database.get (si_website brand_data) EmptyString));
            total_contacts := size whatsapp + size email + size phone + size social |})
    (fun _ =>
       Ret {| brand_name := Database.get (si_name brand_data) "Unknown";
              whatsapp_contacts := ∅;
              email_contacts := ∅;
              phone_contacts := ∅;
              social_contacts := ∅;
              has_website := false;
              total_contacts := 0 |}).

End HelpersMore.

(** ** database.py: the read queries *)

Module Queries.
Import Py Database.

(** [ORDER BY]: a stable insertion sort for the order [le]; SQLite leaves
    the order of rows with equal keys open. *)
Fixpoint insert_by {A} (le : A -> A -> bool) (x : A) (l : list A) : list A :=
  match l with
  | [] => [x]
  | y :: l' => if le x y then x :: l else y :: insert_by le x l'
  end.

Definition order_by {A} (le : A -> A -> bool) (l : list A) : list A :=
  fold_right (insert_by le) [] l.

(** [LIMIT ? OFFSET ?]: a negative limit is no limit, a negative offset is
    no offset. *)
Definition limit_offset {A} (limit offset : Z) (l : list A) : list A :=
  let l := skipn (Z.to_nat offset) l in
  if (limit <? 0)%Z then l else firstn (Z.to_nat limit) l.

(** One row of [get_contacts_by_type]: the dictionary with the keys
    [value], [type], [brand_name] and [brand_id]. *)
Record contact_entry : Type := {
  ce_value : string;
  ce_type : string;
  ce_brand_name : string;
  ce_brand_id : Z
}.

(** [SELECT c.contact_value, c.contact_type, b.name, b.id FROM contacts c
    JOIN brands b ON c.brand_id = b.id
    WHERE c.contact_type = ? AND b.is_active = 1 ORDER BY b.name];
    text is ordered by its code points. *)
Definition select_contacts_by_type (contact_type : string) (d : database)
    : list contact_entry :=
  order_by (fun e1 e2 => String.leb (ce_brand_name e1) (ce_brand_name e2))
    (flat_map
       (fun c =>
          map (fun b => {| ce_value := c_contact_value c;
                           ce_type := c_contact_type c;
                           ce_brand_name := b_name b;
                           ce_brand_id := b_id b |})
            (List.filter
               (fun b => (c_brand_id c =? b_id b)%Z
                         && String.eqb (c_contact_type c) contact_type
                         && b_is_active b)
               (brands d)))
       (contacts d)).

(** The longest [LIKE] pattern of SQLite, in bytes.  A longer pattern
    makes the statement fail when the [LIKE] is evaluated; that is a fault
    of the read, so a run without a fault has its patterns within the
    limit. *)
Definition like_pattern_limit : Z := 50000.

(** [LIKE] compares the letters A..Z and a..z without regard to case. *)
Definition like_fold (c : ascii) : ascii :=
  if is_upper_az c then ascii_of_N (code c + 32) else c.

(** [LIKE] of SQLite for a pattern within the limit: [%] stands for any
    run of characters, [_] for one character, every other character for
    itself up to the case of A..Z.  The texts hold no U+0000. *)
Fixpoint sql_like (pattern text : string) : bool :=
  match pattern with
  | EmptyString => is_empty text
  | String p pattern' =>
      if Ascii.eqb p "%" then
        (fix any_run (t : string) : bool :=
           sql_like pattern' t
           || match t with
              | EmptyString => false
              | String _ t' => any_run t'
              end) text
      else
        match text with
        | EmptyString => false
        | String c text' =>
            (Ascii.eqb p "_" || Ascii.eqb (like_fold p) (like_fold c))
            && sql_like pattern' text'
        end
  end.

(** The [filters] dictionary of [search_brands], at its keys [category],
    [business_type] and [location]. *)
Record filters : Type := {
  f_category : option string;
  f_business_type : option string;
  f_location : option string
}.

(** [if filters.get(key)]: the key is there with a non-empty value. *)
Definition given (field : option string) : bool :=
  negb (is_empty (get field EmptyString)).

(** The [WHERE] clause that [search_brands] builds. *)
Definition search_condition (query : string) (filters : filters) (row : brand_row) : bool :=
  b_is_active row
  && (if negb (is_empty query) then
        let search_param := "%" ++ query ++ "%" in
        sql_like search_param (b_name row)
        || sql_like search_param (b_category row)
        || sql_like search_param (b_location row)
        || sql_like search_param (b_description row)
      else true)
  && (if given (f_category filters)
      then String.eqb (b_category row) (get (f_category filters) EmptyString)
      else true)
  && (if given (f_business_type filters)
      then String.eqb (b_business_type row) (get (f_business_type filters) EmptyString)
      else true)
  && (if given (f_location filters)
      then sql_like ("%" ++ get (f_location filters) EmptyString ++ "%") (b_location row)
      else true).

(** The places where the read queries call SQLite. *)
Inductive read_op : Type :=
| ReadConnect
| ReadPrepare
| ReadStep.

(** An integer that the [sqlite3] module binds to a parameter: 64 bits,
    signed; for any other [int] the binding raises [OverflowError]. *)
Definition sqlite_int (n : Z) : bool :=
  (- 2 ^ 63 <=? n)%Z && (n <? 2 ^ 63)%Z.

Section Reads.

(** The fault oracle of a read query, and the column [updated_at] of a
    row at the time of the query (the table model leaves the timestamps
    out). *)
Variable read_fault : read_op -> bool.
Variable updated_at : brand_row -> Z.

(** [with sqlite3.connect(...) as conn: cursor.execute(q, params); rows =
    cursor.fetchall()] for a [SELECT] with the integer parameters
    [params]: the statement is prepared, the parameters are bound, the rows
    are read; the tables stay as they are. *)
Definition fetchall {A} (params : list Z) (q : database -> list A) : M (list A) :=
  fun w =>
    if read_fault ReadConnect then Failed SqliteError w
    else if read_fault ReadPrepare then Failed SqliteError w
    else if negb (forallb sqlite_int params) then Failed (OtherException "OverflowError") w
    else if read_fault ReadStep then Failed SqliteError w
    else Done (q (db w)) w.

(** [ORDER BY updated_at DESC] *)
Definition newest_first (rows : list brand_row) : list brand_row :=
  order_by (fun r1 r2 => (updated_at r2 <=? updated_at r1)%Z) rows.

Definition get_contacts_by_type (contact_type : string) : M (list contact_entry) :=
  try_except_M
    (fetchall [] (select_contacts_by_type contact_type))
    (fun e => logger_error "Error getting contacts by type" e ;;; ret []).

(** [get_all_brands]; a dictionary of the result is kept as the row it is
    built from ([json.loads] of the [contacts] column is the list). *)
Definition get_all_brands (limit offset : Z) : M (list brand_row) :=
  try_except_M
    (fetchall [limit; offset] (fun d =>
       limit_offset limit offset
         (newest_first (List.filter b_is_active (brands d)))))
    (fun e => logger_error "Error getting brands" e ;;; ret []).

(** [search_brands]: the condition, newest first, [LIMIT 50]. *)
Definition search_brands (query : string) (filters : filters) : M (list brand_row) :=
  try_except_M
    (fetchall [] (fun d =>
       firstn 50 (newest_first (List.filter (search_condition query filters) (brands d)))))
    (fun e => logger_error "Error searching brands" e ;;; ret []).

End Reads.

(** No fault in a read query. *)
Definition no_read_fault : read_op -> bool := fun _ => false.

(** The default of the parameter [filters]: [None]. *)
Definition no_filters : filters :=
  {| f_category := None; f_business_type := None; f_location := None |}.

End Queries.

(** ** main.py: what the bot stores after a contact search *)

Module Bot.
Import Database.

(** [process_contact_search] calls [save_brand(results[0])] with a
    dictionary of [_parse_contact_results]: its keys are [query],
    [whatsapp_numbers], [phone_numbers], [email_addresses], [social_media]
    and [total_contacts_found], none of which [save_brand] reads.  So every
    [brand_data.get(key, default)] of [save_brand] takes its default. *)
Definition as_brand_data (result : Agent.result) : brand_data :=
  {| bd_name := None;
     bd_website := None;
     bd_category := None;
     bd_location := None;
     bd_business_type := None;
     bd_contacts := None;
     bd_description := None |}.

(** The store step of [process_contact_search]: [if results:
    save_brand(results[0])]. *)
Definition save_search_results (fault : db_op -> bool) (results : list Agent.result)
    : M unit :=
  match results with
  | [] => ret tt
  | result :: _ => bind (save_brand fault (as_brand_data result)) (fun _ => ret tt)
  end.

End Bot.

(** ** contact_finder_agent.py: the validation tool *)

Module Validation.
Import Py Agent.

(** [s.split(sep)] for a one-character [sep]: the parts between the
    separators, an empty string giving one empty part. *)
Fixpoint split_char (sep : ascii) (s : string) : list string :=
  match s with
  | EmptyString => [EmptyString]
  | String c s' =>
      if Ascii.eqb c sep then EmptyString :: split_char sep s'
      else
        match split_char sep s' with
        | part :: parts => String c part :: parts
        | [] => [String c EmptyString]
        end
  end.

(** The line feed, U+000A. *)
Definition newline : ascii := ascii_of_nat 10.

(** The dictionary [results] of [validate_contact_info]. *)
Record validation_results : Type := {
  valid_phones : list string;
  valid_emails : list string;
  valid_whatsapp : list string;
  invalid_contacts : list string
}.

Definition empty_results : validation_results :=
  {| valid_phones := []; valid_emails := []; valid_whatsapp := [];
     invalid_contacts := [] |}.

(** What [validate_contact_info] returns: [str(results)], or the text
    [Validation error: ...] of its handler. *)
Inductive validation_report : Type :=
| Printed (results : validation_results)
| ValidationError (e : exn).

Section Validate.

Variable re_search : string -> string -> option string.
Variable PhoneNumber : Type.
Variable phonenumbers_parse : string -> string -> res PhoneNumber.
Variable phonenumbers_is_valid_number : PhoneNumber -> res bool.
Variable phonenumbers_format_E164 : PhoneNumber -> res string.
Variable ValidatedEmail : Type.
Variable validate_email : string -> res ValidatedEmail.
Variable validated_email : ValidatedEmail -> string.

Definition _validate_phone_number (phone : string) : res (option string) :=
  try_except
    (match re_search "[\+62|08|62][\d\s\-\.]{8,14}" phone with
     | Some phone_match =>
         Agent._clean_phone_number PhoneNumber phonenumbers_parse
           phonenumbers_is_valid_number phonenumbers_format_E164 phone_match
     | None => Ret None
     end)
    (fun _ => Ret None).

(** The body of [for line in lines]. *)
Definition validate_line (results : validation_results) (line : string)
    : res validation_results :=
  let line := strip line in
  if is_empty line then Ret results
  else if any_str isdigit line then
    res_bind (_validate_phone_number line) (fun validated_phone =>
    if truthy validated_phone then
      let validated_phone := default EmptyString validated_phone in
      Ret {| valid_phones := valid_phones results ++ [validated_phone];
             valid_emails := valid_emails results;
             valid_whatsapp :=
               if startswith validated_phone "+62"
               then valid_whatsapp results ++ [validated_phone]
               else valid_whatsapp results;
             invalid_contacts := invalid_contacts results |}
    else
      Ret {| valid_phones := valid_phones results;
             valid_emails := valid_emails results;
             valid_whatsapp := valid_whatsapp results;
             invalid_contacts :=
               invalid_contacts results ++ ["Invalid phone: " ++ line] |})
  else if contains_char line "@" then
    res_bind (Agent._validate_email_address re_search ValidatedEmail validate_email
                validated_email line) (fun validated_email =>
    if truthy validated_email then
      Ret {| valid_phones := valid_phones results;
             valid_emails :=
               valid_emails results ++ [default EmptyString validated_email];
             valid_whatsapp := valid_whatsapp results;
             invalid_contacts := invalid_contacts results |}
    else
      Ret {| valid_phones := valid_phones results;
             valid_emails := valid_emails results;
             valid_whatsapp := valid_whatsapp results;
             invalid_contacts :=
               invalid_contacts results ++ ["Invalid email: " ++ line] |})
  else Ret results.

Fixpoint validate_lines (results : validation_results) (lines : list string)
    : res validation_results :=
  match lines with
  | [] => Ret results
  | line :: rest =>
      res_bind (validate_line results line) (fun results =>
      validate_lines results rest)
  end.

Definition validate_contact_info (contact_info : string) : validation_report :=
  match validate_lines empty_results (split_char newline contact_info) with
  | Ret results => Printed results
  | Raise e => ValidationError e
  end.

End Validate.

(** A stripped line that [validate_contact_info] looks at: it has a digit
    or an at sign. *)
Definition checked_line (line : string) : bool :=
  any_str isdigit line || contains_char line "@".

End Validation.

(** ** Further properties, in words *)

Module MoreProps.
Import Py Database.

(** No brand is soft-deleted. *)
Definition all_active (d : database) : Prop :=
  Forall (fun row => b_is_active row = true) (brands d).

(** The type and the value of a row of the [contacts] table. *)
Definition row_pair (c : contact_row) : string * string :=
  (c_contact_type c, c_contact_value c).

(** The five answers of [_determine_contact_type]. *)
Definition contact_types : list string :=
  ["whatsapp"; "email"; "phone"; "social"; "other"].

(** A text without the two wildcards of [LIKE]. *)
Definition no_wildcard (s : string) : bool :=
  negb (contains_char s "%") && negb (contains_char s "_").

(** A text with its letters A..Z in lower case, as [LIKE] compares it. *)
Definition like_folded (s : string) : string := map_str Queries.like_fold s.

(** The rows are in the order of [ORDER BY key DESC]: no row has a key
    above the key of a row before it. *)
Fixpoint descending (key : brand_row -> Z) (rows : list brand_row) : bool :=
  match rows with
  | [] => true
  | row :: rest =>
      forallb (fun row' => (key row' <=? key row)%Z) rest && descending key rest
  end.

(** [needle] occurs in [text], the letters A..Z and a..z compared without
    regard to case. *)
Definition mentions (text needle : string) : bool :=
  contains (like_folded text) (like_folded needle).

(** What [search_brands] asks of a row, for a query and filter texts
    without wildcards. *)
Definition search_hit (query : string) (filters : Queries.filters) (row : brand_row) : bool :=
  b_is_active row
  && (mentions (b_name row) query
      || mentions (b_category row) query
      || mentions (b_location row) query
      || mentions (b_description row) query)
  && (negb (Queries.given (Queries.f_category filters))
      || String.eqb (b_category row) (get (Queries.f_category filters) EmptyString))
  && (negb (Queries.given (Queries.f_business_type filters))
      || String.eqb (b_business_type row)
           (get (Queries.f_business_type filters) EmptyString))
  && mentions (b_location row) (get (Queries.f_location filters) EmptyString).

(** The four types that [_extract_all_contacts] gives to a candidate. *)
Definition extracted_type (contact_type : string) : bool :=
  String.eqb contact_type "phone"
  || String.eqb contact_type "email"
  || String.eqb contact_type "whatsapp"
  || startswith contact_type "social_".

(** A field of [brand_info] that is a string or absent. *)
Definition is_text (field : option HelpersMore.value) : bool :=
  match field with
  | None | Some (HelpersMore.VStr _) => true
  | Some _ => false
  end.

(** A field of [brand_info] that has a length or is absent. *)
Definition is_sized (field : option HelpersMore.value) : bool :=
  match field with
  | None | Some (HelpersMore.VStr _) | Some (HelpersMore.VList _) => true
  | Some _ => false
  end.

(** The text of a field in lower case, the empty string for an absent
    key. *)
Definition text_of (field : option HelpersMore.value) : string :=
  match field with
  | Some (HelpersMore.VStr s) => lower s
  | _ => EmptyString
  end.

(** Name, website and description are strings or absent. *)
Definition texts_ok (brand_info : HelpersMore.size_input) : bool :=
  is_text (HelpersMore.sz_name brand_info)
  && is_text (HelpersMore.sz_website brand_info)
  && is_text (HelpersMore.sz_description brand_info).

(** No indicator of any size occurs in the three texts. *)
Definition no_indicator (brand_info : HelpersMore.size_input) : bool :=
  negb (any_in (HelpersMore.large_indicators ++ HelpersMore.medium_indicators
                ++ HelpersMore.small_indicators)%list
          (text_of (HelpersMore.sz_name brand_info) ++ " "
           ++ text_of (HelpersMore.sz_website brand_info) ++ " "
           ++ text_of (HelpersMore.sz_description brand_info))).

(** The number of entries of the four buckets. *)
Definition bucket_total (g : Agent.grouped_contacts) : nat :=
  length (Agent.whatsapp g) + length (Agent.phone g) + length (Agent.email g)
  + length (Agent.social g).

(** How often a value stands in the whatsapp, phone and e-mail buckets. *)
Definition occurrences (x : string) (g : Agent.grouped_contacts) : nat :=
  count_occ string_dec (Agent.whatsapp g) x
  + count_occ string_dec (Agent.phone g) x
  + count_occ string_dec (Agent.email g) x.

(** The world after a fault-free [save_brand]. *)
Definition stored (bd : brand_data) (w : world) : world :=
  match save_brand no_fault bd w with
  | Done _ w' => w'
  | Failed _ w' => w'
  end.

End MoreProps.

(** * Properties *)

Module PyFacts.
Import Py.

Lemma filter_str_all (p : ascii -> bool) (s : string) :
  all_str p (filter_str p s) = true.
Proof.
  induction s as [|c s IH]; simpl; [reflexivity|].
  destruct (p c) eqn:E; simpl; [rewrite E|]; exact IH.
Qed.

Lemma filter_str_id (p : ascii -> bool) (s : string) :
  all_str p s = true -> filter_str p s = s.
Proof.
  induction s as [|c s IH]; simpl; [reflexivity|].
  intros H. apply andb_true_iff in H as [Hc Hs].
  rewrite Hc, (IH Hs). reflexivity.
Qed.

Lemma all_str_app (p : ascii -> bool) (s t : string) :
  all_str p (s ++ t) = all_str p s && all_str p t.
Proof.
  induction s as [|c s IH]; simpl; [reflexivity|].
  rewrite IH, andb_assoc. reflexivity.
Qed.

Lemma all_str_slice_from (p : ascii -> bool) (n : nat) (s : string) :
  all_str p s = true -> all_str p (slice_from n s) = true.
Proof.
  revert s; induction n as [|n IH]; intros s H; simpl; [exact H|].
  destruct s as [|c s]; [reflexivity|].
  simpl in H. apply andb_true_iff in H as [_ Hs]. apply IH, Hs.
Qed.

Lemma all_str_contains_char (p : ascii -> bool) (s : string) (c : ascii) :
  p c = false -> all_str p s = true -> contains_char s c = false.
Proof.
  intros Hc. unfold contains_char.
  induction s as [|d s IH]; simpl; [reflexivity|].
  intros H. apply andb_true_iff in H as [Hd Hs].
  rewrite (IH Hs), orb_false_r.
  destruct (Ascii.eqb_spec c d) as [->|]; [congruence|reflexivity].
Qed.

(** A string that starts with [p] is [p] followed by the rest. *)
Lemma startswith_app (s p : string) :
  startswith s p = true -> s = p ++ slice_from (String.length p) s.
Proof.
  revert s.
  induction p as [|c p IH]; intros s; simpl; [reflexivity|].
  destruct s as [|d s]; [discriminate|]. simpl.
  destruct (Ascii.eqb_spec c d) as [E|E]; [subst d|discriminate].
  cbn. intros H. f_equal. apply IH, H.
Qed.

End PyFacts.

Module HelpersFacts.
Import Py Helpers PyFacts.

Lemma clean_phone_number_unfold (phone : string) :
  clean_phone_number phone =
  if is_empty phone then Ret None
  else
    let cleaned := indonesian_format (re_sub_not_in digit_or_plus phone) in
    if startswith cleaned "+62"
       && (12 <=? String.length cleaned)%nat
       && (String.length cleaned <=? 15)%nat
    then Ret (Some cleaned)
    else Ret None.
Proof.
  unfold clean_phone_number, clean_phone_number_body, try_except.
  destruct (is_empty phone); [reflexivity|].
  cbv zeta.
  match goal with |- context [if ?b then Ret (Some ?x) else Ret None] => destruct b end;
    reflexivity.
Qed.

(** The prefix rules only add characters of the class [[\d+]]. *)
Lemma indonesian_format_class (cleaned : string) :
  all_str digit_or_plus cleaned = true ->
  all_str digit_or_plus (indonesian_format cleaned) = true.
Proof.
  intros H. unfold indonesian_format.
  repeat match goal with |- context [if ?b then _ else _] => destruct b end;
    rewrite ?all_str_app, ?all_str_slice_from by exact H; rewrite ?H; reflexivity.
Qed.

(** No prefix rule fires on a string that already starts with [+62]. *)
Lemma indonesian_format_canonical (c : string) :
  startswith c "+62" = true -> indonesian_format c = c.
Proof.
  intros H. apply startswith_app in H. rewrite H. reflexivity.
Qed.

(** What a returned value looks like. *)
Lemma clean_phone_number_returns (phone c : string) :
  clean_phone_number phone = Ret (Some c) ->
  startswith c "+62" = true
  /\ (12 <= String.length c <= 15)%nat
  /\ all_str digit_or_plus c = true.
Proof.
  rewrite clean_phone_number_unfold.
  destruct (is_empty phone); [discriminate|]. cbv zeta.
  set (cleaned := indonesian_format _).
  destruct (startswith cleaned "+62" && _ && _) eqn:E; [|discriminate].
  intros [= <-].
  apply andb_true_iff in E as [E Hhi]. apply andb_true_iff in E as [Hpre Hlo].
  apply Nat.leb_le in Hhi, Hlo.
  split; [exact Hpre|]. split; [lia|].
  apply indonesian_format_class, filter_str_all.
Qed.

(** A value of that shape is returned as it is. *)
Lemma clean_phone_number_fixes (c : string) :
  startswith c "+62" = true ->
  (12 <= String.length c <= 15)%nat ->
  all_str digit_or_plus c = true ->
  clean_phone_number c = Ret (Some c).
Proof.
  intros Hpre [Hlo Hhi] Hall.
  rewrite clean_phone_number_unfold.
  destruct c as [|a c]; [discriminate|]. cbn [is_empty]. cbv zeta.
  unfold re_sub_not_in. rewrite (filter_str_id _ _ Hall).
  rewrite (indonesian_format_canonical _ Hpre), Hpre.
  apply Nat.leb_le in Hlo, Hhi. rewrite Hlo, Hhi. reflexivity.
Qed.

(** C4. Normalisation is idempotent: a value [c] returned by
    [clean_phone_number] is returned unchanged when it is cleaned again. *)
Theorem clean_phone_number_idempotent (x c : string) :
  clean_phone_number x = Ret (Some c) ->
  clean_phone_number c = Ret (Some c).
Proof.
  intros H. apply clean_phone_number_returns in H as (Hpre & Hlen & Hall).
  apply clean_phone_number_fixes; assumption.
Qed.

Lemma clean_phone_number_idempotent_witness :
  clean_phone_number "0812-3456 7890" = Ret (Some "+6281234567890")
  /\ clean_phone_number "+6281234567890" = Ret (Some "+6281234567890").
Proof.
  split; [reflexivity|].
  apply (clean_phone_number_idempotent "0812-3456 7890"). reflexivity.
Defined.

(** C5 (amended). A value returned by [clean_phone_number] starts with
    [+62], has 12 to 15 characters and is made of digits and plus signs
    only; so it holds no space, hyphen or parenthesis. *)
Theorem clean_phone_number_canonical_form (phone c : string) :
  clean_phone_number phone = Ret (Some c) ->
  startswith c "+62" = true
  /\ (12 <= String.length c <= 15)%nat
  /\ all_str digit_or_plus c = true
  /\ contains_char c " " = false
  /\ contains_char c "-" = false
  /\ contains_char c "(" = false
  /\ contains_char c ")" = false.
Proof.
  intros H. apply clean_phone_number_returns in H as (Hpre & Hlen & Hall).
  repeat split; try assumption; try lia;
    apply (all_str_contains_char digit_or_plus); auto.
Qed.

Lemma clean_phone_number_canonical_form_witness :
  clean_phone_number "(0812) 3456-7890" = Ret (Some "+6281234567890")
  /\ startswith "+6281234567890" "+62" = true
  /\ (12 <= String.length "+6281234567890" <= 15)%nat
  /\ all_str digit_or_plus "+6281234567890" = true
  /\ contains_char "+6281234567890" " " = false
  /\ contains_char "+6281234567890" "-" = false
  /\ contains_char "+6281234567890" "(" = false
  /\ contains_char "+6281234567890" ")" = false.
Proof.
  split; [reflexivity|].
  apply (clean_phone_number_canonical_form "(0812) 3456-7890"). reflexivity.
Defined.

(** C5, as stated, fails: a plus sign inside the input is kept, so the
    value returned for [0812-3456+7890] has a plus sign at position 10. *)
Lemma clean_phone_number_keeps_inner_plus :
  clean_phone_number "0812-3456+7890" = Ret (Some "+628123456+7890")
  /\ Props.digits_after_plus "+628123456+7890" = false
  /\ String.get 10 "+628123456+7890" = Some "+"%char.
Proof. repeat split. Qed.

(** C6. The three spellings of one Indonesian number clean to the same
    value [+6281234567890]. *)
Theorem clean_phone_number_format_equivalence :
  clean_phone_number "081234567890" = Ret (Some "+6281234567890")
  /\ clean_phone_number "+6281234567890" = Ret (Some "+6281234567890")
  /\ clean_phone_number "6281234567890" = Ret (Some "+6281234567890").
Proof. repeat split. Qed.

End HelpersFacts.

Module ValidatorFacts.
Import Py Helpers PyFacts HelpersFacts.

(** Without a digit, only plus signs survive [re.sub]. *)
Lemma filter_no_digit (s : string) :
  any_str re_digit s = false ->
  all_str (Ascii.eqb "+") (re_sub_not_in digit_or_plus s) = true.
Proof.
  unfold re_sub_not_in, digit_or_plus.
  induction s as [|c s IH]; simpl; [reflexivity|].
  intros H. apply orb_false_iff in H as [Hc Hs]. rewrite Hc. simpl.
  destruct (Ascii.eqb_spec c "+") as [->|]; simpl; auto.
Qed.

Lemma only_plus_shape (s : string) :
  all_str (Ascii.eqb "+") s = true ->
  s = EmptyString \/ s = "+" \/ exists r, s = String "+" (String "+" r).
Proof.
  destruct s as [|a [|b r]]; cbn [all_str]; intros H; auto;
    repeat match type of H with
           | (_ && _) = true => let E := fresh "E" in apply andb_true_iff in H as [E H]
           end;
    repeat match goal with
           | E : Ascii.eqb _ _ = true |- _ => apply Ascii.eqb_eq in E; subst
           end; eauto.
Qed.

Lemma clean_phone_number_no_digit (s : string) :
  any_str re_digit s = false -> clean_phone_number s = Ret None.
Proof.
  intros H. rewrite clean_phone_number_unfold.
  destruct (is_empty s); [reflexivity|]. cbv zeta.
  destruct (only_plus_shape _ (filter_no_digit s H)) as [-> | [-> | [r ->]]];
    reflexivity.
Qed.

Section Total.

Variable PhoneNumber : Type.
Variable phonenumbers_parse : string -> string -> res PhoneNumber.
Variable phonenumbers_is_valid_number : PhoneNumber -> res bool.
Variable ValidatedEmail : Type.
Variable validate_email : string -> res ValidatedEmail.

Let validate_phone_number :=
  validate_phone_number PhoneNumber phonenumbers_parse phonenumbers_is_valid_number.
Let validate_email_address :=
  validate_email_address ValidatedEmail validate_email.

Lemma validate_phone_number_no_digit (s : string) :
  any_str re_digit s = false -> validate_phone_number s = Ret false.
Proof.
  intros H. unfold validate_phone_number, Helpers.validate_phone_number,
    validate_phone_number_body.
  rewrite (clean_phone_number_no_digit s H).
  destruct (is_empty s); reflexivity.
Qed.

Lemma validate_email_address_no_match (s : string) :
  re_match email_pattern s = false -> validate_email_address s = Ret false.
Proof.
  intros H. unfold validate_email_address, Helpers.validate_email_address,
    validate_email_address_body.
  rewrite H. destruct (is_empty s); reflexivity.
Qed.

(** C10. On every string the three validators return: no exception
    leaves them, whatever the two libraries do.  A string without a digit
    cleans to [None] and validates to [False]; a string the e-mail pattern
    rejects validates to [False]; so does the empty string everywhere. *)
Theorem validators_total (s : string) :
  (exists o, clean_phone_number s = Ret o)
  /\ (exists b, validate_phone_number s = Ret b)
  /\ (exists b, validate_email_address s = Ret b)
  /\ (any_str re_digit s = false ->
      clean_phone_number s = Ret None /\ validate_phone_number s = Ret false)
  /\ (re_match email_pattern s = false -> validate_email_address s = Ret false)
  /\ (is_empty s = true ->
      clean_phone_number s = Ret None
      /\ validate_phone_number s = Ret false
      /\ validate_email_address s = Ret false).
Proof.
  split; [|split; [|split; [|split; [|split]]]].
  - unfold clean_phone_number, try_except.
    destruct (clean_phone_number_body s); eauto.
  - unfold validate_phone_number, Helpers.validate_phone_number, try_except.
    destruct (validate_phone_number_body _ _ _ s); eauto.
  - unfold validate_email_address, Helpers.validate_email_address, try_except.
    destruct (validate_email_address_body _ _ s); eauto.
  - intros H. split.
    + apply clean_phone_number_no_digit, H.
    + apply validate_phone_number_no_digit, H.
  - apply validate_email_address_no_match.
  - intros H. destruct s; [|discriminate]. repeat split.
Qed.

End Total.

(** A library that rejects everything by raising an error that is not the
    documented one: the validators still return. *)
Lemma validators_total_witness :
  Helpers.validate_phone_number unit
    (fun _ _ => Raise (OtherException "RuntimeError")) (fun _ => Ret true)
    "no digits here" = Ret false
  /\ Helpers.validate_email_address unit
       (fun _ => Raise (OtherException "RuntimeError")) "not-an-email" = Ret false.
Proof.
  pose proof (validators_total unit
                (fun _ _ => Raise (OtherException "RuntimeError")) (fun _ => Ret true)
                unit (fun _ => Raise (OtherException "RuntimeError"))) as T.
  split.
  - destruct (T "no digits here") as (_ & _ & _ & Hdigit & _).
    apply Hdigit. reflexivity.
  - destruct (T "not-an-email") as (_ & _ & _ & _ & Hmatch & _).
    apply Hmatch. reflexivity.
Defined.

End ValidatorFacts.

Module DatabaseFacts.
Import Py Database Props.

(** C9. [_determine_contact_type] tests in the order whatsapp, email,
    phone, social: a marker gives [whatsapp]; without a marker an [@] gives
    [email]; without marker and [@] a digit gives [phone], also inside a
    social-media URL such as [instagram.com/brand123]; [social] is returned
    exactly for the strings without marker, [@] and digit that name a
    platform, such as [instagram.com/brand]; and [other] exactly for the
    strings that pass none of the four tests. *)
Theorem determine_contact_type_priority (contact : string) :
  (whatsapp_marker contact = true -> _determine_contact_type contact = "whatsapp")
  /\ (whatsapp_marker contact = false -> contains_char contact "@" = true ->
      _determine_contact_type contact = "email")
  /\ (whatsapp_marker contact = false -> contains_char contact "@" = false ->
      any_str isdigit contact = true ->
      _determine_contact_type contact = "phone")
  /\ (_determine_contact_type contact = "social" <->
      whatsapp_marker contact = false
      /\ contains_char contact "@" = false
      /\ any_str isdigit contact = false
      /\ any_in ["instagram"; "facebook"; "tiktok"; "youtube"] (lower contact) = true)
  /\ (_determine_contact_type contact = "other" <->
      whatsapp_marker contact = false
      /\ contains_char contact "@" = false
      /\ any_str isdigit contact = false
      /\ any_in ["instagram"; "facebook"; "tiktok"; "youtube"] (lower contact) = false)
  /\ _determine_contact_type "instagram.com/brand123" = "phone"
  /\ _determine_contact_type "instagram.com/brand" = "social".
Proof.
  unfold _determine_contact_type, whatsapp_marker. cbv zeta.
  split; [|split; [|split; [|split; [|split; [|split; reflexivity]]]]].
  - intros ->. reflexivity.
  - intros -> ->. reflexivity.
  - intros -> -> ->. reflexivity.
  - destruct (contains (lower contact) "whatsapp" || contains (lower contact) "wa.");
      destruct (contains_char contact "@");
      destruct (any_str isdigit contact);
      destruct (any_in _ (lower contact));
      (split; [intros H; try discriminate H; repeat split
              |intros (H1 & H2 & H3 & H4); try discriminate; reflexivity]).
  - destruct (contains (lower contact) "whatsapp" || contains (lower contact) "wa.");
      destruct (contains_char contact "@");
      destruct (any_str isdigit contact);
      destruct (any_in _ (lower contact));
      (split; [intros H; try discriminate H; repeat split
              |intros (H1 & H2 & H3 & H4); try discriminate; reflexivity]).
Qed.

Lemma determine_contact_type_priority_witness :
  _determine_contact_type "https://facebook.com/toko99" = "phone"
  /\ _determine_contact_type "WA. 0812" = "whatsapp"
  /\ _determine_contact_type "halo@acme.id" = "email"
  /\ _determine_contact_type "tiktok.com/@" = "email"
  /\ _determine_contact_type "YouTube: acme" = "social"
  /\ _determine_contact_type "Jl. Melati" = "other".
Proof.
  pose proof (determine_contact_type_priority "https://facebook.com/toko99")
    as (_ & _ & Hphone & _).
  pose proof (determine_contact_type_priority "WA. 0812") as (Hwa & _).
  pose proof (determine_contact_type_priority "halo@acme.id") as (_ & Hemail & _).
  pose proof (determine_contact_type_priority "tiktok.com/@") as (_ & Hat & _).
  pose proof (determine_contact_type_priority "YouTube: acme")
    as (_ & _ & _ & Hsocial & _).
  pose proof (determine_contact_type_priority "Jl. Melati")
    as (_ & _ & _ & _ & Hother & _).
  split; [apply Hphone; reflexivity|].
  split; [apply Hwa; reflexivity|].
  split; [apply Hemail; reflexivity|].
  split; [apply Hat; reflexivity|].
  split; [apply Hsocial; repeat split|apply Hother; repeat split].
Defined.

(** [create_contact_summary] sorts a contact with the same tests in the
    same order: whatever [_determine_contact_type] calls whatsapp, email or
    phone goes to the list of that name. *)
Lemma summary_key_agrees (contact : string) :
  (_determine_contact_type contact = "whatsapp" ->
   Helpers.summary_key contact = Some "whatsapp_contacts")
  /\ (_determine_contact_type contact = "email" ->
      Helpers.summary_key contact = Some "email_contacts")
  /\ (_determine_contact_type contact = "phone" ->
      Helpers.summary_key contact = Some "phone_contacts").
Proof.
  unfold _determine_contact_type, Helpers.summary_key. cbv zeta.
  destruct (contains (lower contact) "whatsapp" || contains (lower contact) "wa.");
    destruct (contains_char contact "@");
    destruct (any_str isdigit contact);
    destruct (any_in ["instagram"; "facebook"; "tiktok"; "youtube"] (lower contact));
    repeat split; intros; try reflexivity; discriminate.
Qed.

(** *** The contact stage *)

Lemma save_contacts_loop_brands fault brand_id contact_list :
  forall index w,
    match save_contacts_loop fault brand_id index contact_list w with
    | Done _ w' => same_brands (db w) (db w')
    | Failed _ w' => same_brands (db w) (db w')
    end.
Proof.
  induction contact_list as [|contact rest IH]; intros index w; simpl.
  - split; reflexivity.
  - unfold bind at 1.
    destruct (negb (is_empty (_extract_contact_value contact))).
    + unfold statement, execute. destruct (fault (InsertContact index)).
      * split; reflexivity.
      * simpl. specialize (IH (S index)
          {| db := insert_contact brand_id (_determine_contact_type contact)
                     (_extract_contact_value contact) (db w);
             log := log w |}).
        destruct (save_contacts_loop _ _ _ _ _); exact IH.
    + unfold ret. apply IH.
Qed.

(** [_save_contacts] catches every fault of its statements. *)
Lemma _save_contacts_done fault brand_id contact_list w :
  exists w', _save_contacts fault brand_id contact_list w = Done tt w'
             /\ same_brands (db w) (db w').
Proof.
  unfold _save_contacts, try_except_M, bind, statement, execute.
  destruct (fault DeleteContacts).
  - eexists; split; [reflexivity|]. split; reflexivity.
  - simpl.
    pose proof (save_contacts_loop_brands fault brand_id contact_list 0
                  {| db := delete_contacts brand_id (db w); log := log w |}) as H.
    destruct (save_contacts_loop _ _ _ _ _) as [[] w'|e w'].
    + eexists; split; [reflexivity|]. exact H.
    + eexists; split; [reflexivity|]. exact H.
Qed.



Lemma save_contacts_loop_no_fault brand_id contact_list :
  forall index d l,
    save_contacts_loop no_fault brand_id index contact_list {| db := d; log := l |}
    = Done tt {| db := fold_left (store_contact brand_id) contact_list d; log := l |}.
Proof.
  induction contact_list as [|contact rest IH]; intros index d l; simpl.
  - reflexivity.
  - unfold bind at 1. unfold store_contact at 2.
    destruct (negb (is_empty (_extract_contact_value contact))).
    + unfold statement, execute, no_fault. simpl. apply IH.
    + unfold ret. apply IH.
Qed.

(** Without a fault, [_save_contacts] replaces the rows of the brand. *)
Lemma _save_contacts_no_fault brand_id contact_list d l :
  _save_contacts no_fault brand_id contact_list {| db := d; log := l |}
  = Done tt {| db := replace_contacts brand_id contact_list d; log := l |}.
Proof.
  unfold _save_contacts, try_except_M, bind, statement, execute, no_fault. simpl.
  rewrite save_contacts_loop_no_fault. reflexivity.
Qed.

Ltac run_store :=
  unfold save_brand, try_except_M, with_connection, bind, query, statement,
    execute, logger_info, logger_error, ret;
  cbn [no_fault db log fst snd].

(** A fault-free upsert of a brand that is found: the row is updated, the
    contacts are replaced. *)
Lemma save_brand_no_fault_existing bd d l brand_id :
  select_brand_id (get (bd_name bd) EmptyString) (get (bd_website bd) EmptyString) d
    = Some brand_id ->
  save_brand no_fault bd {| db := d; log := l |}
  = Done brand_id
      {| db := replace_contacts brand_id (get (bd_contacts bd) [])
                 (update_brand (get (bd_website bd) EmptyString)
                    (get (bd_category bd) EmptyString)
                    (get (bd_location bd) EmptyString)
                    (get (bd_business_type bd) EmptyString)
                    (get (bd_contacts bd) [])
                    (get (bd_description bd) EmptyString) brand_id d);
         log := l ++ [LogInfo ("Updated existing brand: " ++ fmt (bd_name bd))] |}.
Proof.
  intros Hsel. run_store. rewrite Hsel. cbn [db log].
  rewrite _save_contacts_no_fault. reflexivity.
Qed.

(** A fault-free upsert of a brand that is not found: a row is inserted
    with the next rowid. *)
Lemma save_brand_no_fault_new bd d l :
  select_brand_id (get (bd_name bd) EmptyString) (get (bd_website bd) EmptyString) d
    = None ->
  save_brand no_fault bd {| db := d; log := l |}
  = Done (brands_seq d + 1)%Z
      {| db := replace_contacts (brands_seq d + 1) (get (bd_contacts bd) [])
                 (snd (insert_brand (get (bd_name bd) "Unknown")
                         (get (bd_website bd) EmptyString)
                         (get (bd_category bd) EmptyString)
                         (get (bd_location bd) EmptyString)
                         (get (bd_business_type bd) EmptyString)
                         (get (bd_contacts bd) [])
                         (get (bd_description bd) EmptyString) d));
         log := l ++ [LogInfo ("Saved new brand: " ++ fmt (bd_name bd))] |}.
Proof.
  intros Hsel. run_store. rewrite Hsel. unfold insert_brand. cbn [db log fst snd].
  rewrite _save_contacts_no_fault. reflexivity.
Qed.

(** *** The lookup *)

Lemma brand_matches_iff name website row :
  brand_matches name website row = true
  <-> b_name row = name \/ b_website row = website.
Proof.
  unfold brand_matches. rewrite orb_true_iff, !String.eqb_eq. tauto.
Qed.

Lemma select_brand_id_Some name website d brand_id :
  select_brand_id name website d = Some brand_id ->
  exists row, In row (brands d) /\ b_id row = brand_id
              /\ (b_name row = name \/ b_website row = website).
Proof.
  unfold select_brand_id.
  destruct (find _ (brands d)) as [row|] eqn:E; [|discriminate].
  intros [= <-]. apply find_some in E as [Hin Hm].
  exists row. rewrite <- brand_matches_iff. auto.
Qed.

Lemma select_brand_id_None name website d :
  select_brand_id name website d = None ->
  forall row, In row (brands d) -> b_name row <> name /\ b_website row <> website.
Proof.
  unfold select_brand_id.
  destruct (find _ (brands d)) as [row|] eqn:E; [discriminate|].
  intros _ row Hin. pose proof (find_none _ _ E row Hin) as Hm.
  split; intros Heq;
    (assert (brand_matches name website row = true) as Ht
       by (apply brand_matches_iff; auto));
    congruence.
Qed.

(** *** Well-formed tables *)




Lemma replace_contacts_same_brands brand_id contact_list d :
  same_brands d (replace_contacts brand_id contact_list d).
Proof.
  unfold replace_contacts.
  assert (forall d0, same_brands d0 (fold_left (store_contact brand_id) contact_list d0))
    as Hfold.
  { induction contact_list as [|c rest IH]; intros d0; simpl; [split; reflexivity|].
    destruct (IH (store_contact brand_id d0 c)) as [Hb Hs].
    unfold same_brands. rewrite Hb, Hs. unfold store_contact.
    destruct (negb _); split; reflexivity. }
  apply (Hfold (delete_contacts brand_id d)).
Qed.

End DatabaseFacts.

Module StoreFacts.
Import Py Database Props DatabaseFacts.

(** C1 (amended). From the new store, the upsert of Acme with the contact
    [a@acme.id] followed by the upsert of Acme with category [Skincare]
    and the contact [+6281111111111] leaves one brand row, of category
    [Skincare], whose contacts are those of the second call only: its
    [contacts] column and its rows of the [contacts] table hold
    [+6281111111111] and nothing else. *)
Theorem upsert_replaces_contacts :
  exists w1 w2,
    save_brand no_fault acme_first new_world = Done 1%Z w1
    /\ save_brand no_fault acme_second w1 = Done 1%Z w2
    /\ map b_name (brands (db w2)) = ["Acme"]
    /\ map b_category (brands (db w2)) = ["Skincare"]
    /\ map b_contacts (brands (db w2)) = [["+6281111111111"]]
    /\ contact_values 1 (db w2) = ["+6281111111111"].
Proof.
  do 2 eexists. split; [vm_compute; reflexivity|]. repeat split.
Qed.

(** C1, as stated, fails: after the two upserts the first contact is
    neither in the [contacts] table nor in the [contacts] column. *)
Lemma upsert_drops_first_contact :
  exists w1 w2,
    save_brand no_fault acme_first new_world = Done 1%Z w1
    /\ In "a@acme.id" (contact_values 1 (db w1))
    /\ save_brand no_fault acme_second w1 = Done 1%Z w2
    /\ ~ In "a@acme.id" (contact_values 1 (db w2))
    /\ Forall (fun row => ~ In "a@acme.id" (b_contacts row)) (brands (db w2)).
Proof.
  do 2 eexists. split; [vm_compute; reflexivity|].
  split; [vm_compute; auto|].
  split; [vm_compute; reflexivity|].
  split.
  - vm_compute. intros [H|[]]. discriminate H.
  - vm_compute. constructor; [|constructor]. intros [H|[]]. discriminate H.
Qed.

(** C2 (amended). A fault-free [save_brand] of a brand that the lookup
    finds overwrites the row: website, category, location, business type,
    contacts and description become the incoming values, the empty string
    (the empty list) for an absent key; the name and the id stay.  So an
    empty or absent category erases the stored one. *)
Theorem update_overwrites_scalars (bd : brand_data) (w : world) (brand_id : Z) :
  select_brand_id (get (bd_name bd) EmptyString) (get (bd_website bd) EmptyString) (db w)
    = Some brand_id ->
  exists w',
    save_brand no_fault bd w = Done brand_id w'
    /\ brands (db w')
       = map (fun row =>
                if (b_id row =? brand_id)%Z
                then {| b_id := b_id row;
                        b_name := b_name row;
                        b_website := get (bd_website bd) EmptyString;
                        b_category := get (bd_category bd) EmptyString;
                        b_location := get (bd_location bd) EmptyString;
                        b_business_type := get (bd_business_type bd) EmptyString;
                        b_contacts := get (bd_contacts bd) [];
                        b_description := get (bd_description bd) EmptyString;
                        b_is_active := b_is_active row |}
                else row)
             (brands (db w))
    /\ (forall row', In row' (brands (db w')) -> b_id row' = brand_id ->
        b_category row' = get (bd_category bd) EmptyString).
Proof.
  intros Hsel. destruct w as [d l]. cbn [db] in *.
  rewrite (save_brand_no_fault_existing _ _ _ _ Hsel).
  eexists. split; [reflexivity|]. cbn [db].
  destruct (replace_contacts_same_brands brand_id (get (bd_contacts bd) [])
              (update_brand (get (bd_website bd) EmptyString)
                 (get (bd_category bd) EmptyString) (get (bd_location bd) EmptyString)
                 (get (bd_business_type bd) EmptyString) (get (bd_contacts bd) [])
                 (get (bd_description bd) EmptyString) brand_id d)) as [Hb _].
  rewrite Hb. cbn [update_brand brands]. split; [reflexivity|].
  intros row' Hin Hid. apply in_map_iff in Hin as (row & <- & _).
  destruct (b_id row =? brand_id)%Z eqn:E; [reflexivity|].
  apply Z.eqb_neq in E. contradiction.
Qed.

Lemma update_overwrites_scalars_witness :
  exists w1 w2,
    save_brand no_fault acme_second new_world = Done 1%Z w1
    /\ save_brand no_fault acme_no_category w1 = Done 1%Z w2
    /\ forall row', In row' (brands (db w2)) -> b_id row' = 1%Z ->
       b_category row' = EmptyString.
Proof.
  eexists.
  destruct (update_overwrites_scalars acme_no_category
              {| db := replace_contacts 1 ["+6281111111111"]
                         (snd (insert_brand "Acme" "acme.id" "Skincare" EmptyString
                                 EmptyString ["+6281111111111"] EmptyString
                                 init_database));
                 log := [LogInfo "Saved new brand: Acme"] |} 1%Z)
    as (w2 & Hrun & _ & Hcat); [reflexivity|].
  exists w2. split; [reflexivity|]. split; [exact Hrun|exact Hcat].
Defined.

(** C2, as stated, fails: Acme is stored with the category [Skincare];
    an upsert of Acme without a category leaves the category empty. *)
Lemma absent_category_erases_stored :
  exists w1 w2,
    save_brand no_fault acme_second new_world = Done 1%Z w1
    /\ map b_category (brands (db w1)) = ["Skincare"]
    /\ save_brand no_fault acme_no_category w1 = Done 1%Z w2
    /\ map b_category (brands (db w2)) = [EmptyString].
Proof.
  do 2 eexists. split; [vm_compute; reflexivity|]. repeat split.
Qed.

(** The lookup of [save_brand] as the code runs it: the incoming name and
    website, the empty string for an absent key, are compared with the
    stored ones by plain equality, with no test for emptiness.  When some
    row has that name or that website, no row is added and the id returned
    is the id of such a row; when no row has, a row is inserted with the
    next rowid. *)
Lemma lookup_matches_name_or_website (bd : brand_data) (w : world) :
  let name := get (bd_name bd) EmptyString in
  let website := get (bd_website bd) EmptyString in
  exists brand_id w',
    save_brand no_fault bd w = Done brand_id w'
    /\ ((exists row, In row (brands (db w))
                     /\ (b_name row = name \/ b_website row = website)) ->
        length (brands (db w')) = length (brands (db w))
        /\ exists row, In row (brands (db w)) /\ b_id row = brand_id
                       /\ (b_name row = name \/ b_website row = website))
    /\ ((forall row, In row (brands (db w)) ->
                     b_name row <> name /\ b_website row <> website) ->
        length (brands (db w')) = S (length (brands (db w)))
        /\ brand_id = (brands_seq (db w) + 1)%Z).
Proof.
  intros name website. destruct w as [d l]. cbn [db].
  destruct (select_brand_id name website d) as [brand_id|] eqn:Hsel.
  - rewrite (save_brand_no_fault_existing _ _ _ _ Hsel).
    do 2 eexists. split; [reflexivity|]. cbn [db]. split.
    + intros _. split.
      * destruct (replace_contacts_same_brands brand_id (get (bd_contacts bd) [])
                    (update_brand (get (bd_website bd) EmptyString)
                       (get (bd_category bd) EmptyString)
                       (get (bd_location bd) EmptyString)
                       (get (bd_business_type bd) EmptyString)
                       (get (bd_contacts bd) [])
                       (get (bd_description bd) EmptyString) brand_id d)) as [Hb _].
        rewrite Hb. cbn [update_brand brands]. apply length_map.
      * apply select_brand_id_Some, Hsel.
    + intros Hnone. exfalso.
      destruct (select_brand_id_Some _ _ _ _ Hsel) as (row & Hin & _ & Hm).
      destruct (Hnone row Hin) as [Hn Hw]. tauto.
  - rewrite (save_brand_no_fault_new _ _ _ Hsel).
    do 2 eexists. split; [reflexivity|]. cbn [db]. split.
    + intros (row & Hin & Hm). exfalso.
      destruct (select_brand_id_None _ _ _ Hsel row Hin) as [Hn Hw]. tauto.
    + intros _. split; [|reflexivity].
      match goal with
      | |- context [replace_contacts ?i ?c ?d0] =>
          destruct (replace_contacts_same_brands i c d0) as [Hb _]
      end.
      rewrite Hb. unfold insert_brand. cbn [snd brands].
      rewrite length_app. cbn [length]. lia.
Qed.

(** C3. The code fails the claim at two brands known by different names
    and no website: the second upsert finds the first brand through the
    empty website, returns its id and logs [Updated existing brand: Toko B],
    while the one stored row keeps the name [Toko A] and no row is stored
    for [Toko B]. *)
Lemma empty_website_unifies_brands :
  exists w1 w2,
    save_brand no_fault (named "Toko A") new_world = Done 1%Z w1
    /\ save_brand no_fault (named "Toko B") w1 = Done 1%Z w2
    /\ map b_name (brands (db w2)) = ["Toko A"]
    /\ map b_website (brands (db w2)) = [EmptyString]
    /\ log w2 = [LogInfo "Saved new brand: Toko A";
                 LogInfo "Updated existing brand: Toko B"].
Proof.
  do 2 eexists. split; [vm_compute; reflexivity|]. repeat split.
Qed.




End StoreFacts.

Module ReplaceFacts.
Import Py Database Props DatabaseFacts.

Lemma contact_values_fold brand_id contact_list :
  forall d,
    contact_values brand_id (fold_left (store_contact brand_id) contact_list d)
    = (contact_values brand_id d
       ++ List.filter (fun v => negb (is_empty v))
            (map _extract_contact_value contact_list))%list.
Proof.
  induction contact_list as [|contact rest IH]; intros d;
    cbn [fold_left map List.filter].
  - rewrite app_nil_r. reflexivity.
  - rewrite IH. unfold store_contact.
    destruct (negb (is_empty (_extract_contact_value contact))).
    + unfold contact_values at 1, contacts_of, insert_contact. cbn [contacts].
      rewrite List.filter_app, map_app. cbn [List.filter c_brand_id].
      rewrite Z.eqb_refl. cbn [map c_contact_value].
      rewrite <- app_assoc. reflexivity.
    + reflexivity.
Qed.

Lemma contact_values_delete brand_id d :
  contact_values brand_id (delete_contacts brand_id d) = [].
Proof.
  unfold contact_values, contacts_of, delete_contacts. cbn [contacts].
  induction (contacts d) as [|c rest IH]; [reflexivity|].
  cbn [List.filter]. destruct (c_brand_id c =? brand_id)%Z eqn:E; cbn [negb]; [exact IH|].
  cbn [List.filter]. rewrite E. exact IH.
Qed.

(** The contacts of a brand after a fault-free [_save_contacts] are the
    values cut from the incoming strings, the empty ones left out. *)
Lemma contact_values_replace brand_id contact_list d :
  contact_values brand_id (replace_contacts brand_id contact_list d)
  = List.filter (fun v => negb (is_empty v)) (map _extract_contact_value contact_list).
Proof.
  unfold replace_contacts. rewrite contact_values_fold, contact_values_delete.
  reflexivity.
Qed.

(** X1. Replacement in general: whatever the store held, after a fault-free
    [save_brand] the rows of the returned brand in the [contacts] table are
    those of the incoming list, and nothing of what the brand had before. *)
Theorem save_brand_replaces_contacts (bd : brand_data) (w : world) :
  exists brand_id w',
    save_brand no_fault bd w = Done brand_id w'
    /\ contact_values brand_id (db w')
       = List.filter (fun v => negb (is_empty v))
           (map _extract_contact_value (get (bd_contacts bd) [])).
Proof.
  destruct w as [d l].
  destruct (select_brand_id (get (bd_name bd) EmptyString)
              (get (bd_website bd) EmptyString) d) as [brand_id|] eqn:Hsel.
  - rewrite (save_brand_no_fault_existing _ _ _ _ Hsel).
    do 2 eexists. split; [reflexivity|]. cbn [db]. apply contact_values_replace.
  - rewrite (save_brand_no_fault_new _ _ _ Hsel).
    do 2 eexists. split; [reflexivity|]. cbn [db]. apply contact_values_replace.
Qed.

End ReplaceFacts.

Module AgentFacts.
Import Py Agent Props.

Lemma group_contacts_snoc (l : list contact) (c : contact) :
  group_contacts (l ++ [c]) = group_step (group_contacts l) c.
Proof. unfold group_contacts. rewrite fold_left_app. reflexivity. Qed.

Lemma first_with_value_snoc (v : string) (l : list contact) (c : contact) :
  first_with_value v (l ++ [c]) =
  match first_with_value v l with
  | Some x => Some x
  | None => if String.eqb (ct_value c) v then Some c else None
  end.
Proof.
  unfold first_with_value. induction l as [|a l IH]; simpl; [reflexivity|].
  destruct (String.eqb (ct_value a) v); [reflexivity|exact IH].
Qed.

(** [seen_values] after one more candidate. *)
Lemma group_step_seen (seen : gset string) (g : grouped_contacts) (c : contact) (x : string) :
  x ∈ fst (group_step (seen, g) c) <-> x ∈ seen \/ x = ct_value c.
Proof.
  unfold group_step. case_bool_decide as Hnew.
  - repeat match goal with |- context [if ?b then _ else _] => destruct b end;
      cbn [fst]; rewrite elem_of_union, elem_of_singleton; reflexivity.
  - cbn [fst]. split; [auto|intros [H| ->]; assumption].
Qed.

(** [seen_values] holds the values of the candidates read so far. *)
Lemma group_contacts_seen (l : list contact) (v : string) :
  v ∈ fst (group_contacts l) <-> first_with_value v l <> None.
Proof.
  induction l as [|c l IH] using rev_ind.
  - cbn. split; [set_solver|congruence].
  - rewrite group_contacts_snoc, first_with_value_snoc.
    destruct (group_contacts l) as [seen g]. rewrite group_step_seen.
    cbn [fst] in IH. rewrite IH.
    destruct (first_with_value v l) as [x|].
    + split; [congruence|auto].
    + destruct (String.eqb_spec (ct_value c) v) as [E|E].
      * split; [congruence|auto].
      * split; [intros [H|H]; congruence|congruence].
Qed.

(** A bucket that grows by the value of every new candidate that passes
    [rule] holds the values whose first candidate passes [rule]. *)
Lemma bucket_characterised (bucket : grouped_contacts -> list string) (rule : contact -> bool) :
  bucket empty_groups = [] ->
  (forall seen g c,
      bucket (snd (group_step (seen, g) c)) =
      (bucket g ++ if bool_decide (ct_value c ∉ seen) && rule c then [ct_value c] else [])%list) ->
  forall (l : list contact) (v : string),
    In v (bucket (snd (group_contacts l)))
    <-> exists c, first_with_value v l = Some c /\ rule c = true.
Proof.
  intros Hempty Hstep l v.
  induction l as [|c l IH] using rev_ind.
  - cbn [group_contacts fold_left snd]. rewrite Hempty. cbn.
    split; [intros []|intros (c & H & _); discriminate].
  - rewrite group_contacts_snoc, first_with_value_snoc.
    pose proof (group_contacts_seen l v) as Hseen.
    destruct (group_contacts l) as [seen g]. cbn [fst snd] in *.
    rewrite Hstep, in_app_iff, IH.
    destruct (first_with_value v l) as [x|].
    + assert (v ∈ seen) as Hv by (apply Hseen; congruence).
      split; [intros [H|H]; [exact H|]|auto]. exfalso.
      case_bool_decide as Hnew; destruct (rule c); simpl in H;
        try contradiction; destruct H as [<-|[]]; contradiction.
    + assert (v ∉ seen) as Hv by (intros H; apply Hseen in H; congruence).
      destruct (String.eqb_spec (ct_value c) v) as [E|E].
      * subst v. rewrite bool_decide_true by exact Hv. cbn [andb].
        split.
        -- intros [(x & H & _)|H]; [discriminate|].
           destruct (rule c) eqn:R; [eauto|simpl in H; contradiction].
        -- intros (x & [= <-] & R). right. rewrite R. left. reflexivity.
      * split.
        -- intros [(x & H & _)|H]; [discriminate|]. exfalso.
           destruct (_ && _); simpl in H; [destruct H as [H|[]]; congruence|exact H].
        -- intros (x & H & _). discriminate.
Qed.

Lemma whatsapp_step seen g c :
  whatsapp (snd (group_step (seen, g) c)) =
  (whatsapp g ++ if bool_decide (ct_value c ∉ seen) && whatsapp_rule c then [ct_value c] else [])%list.
Proof.
  unfold group_step, whatsapp_rule. case_bool_decide; cbn [andb];
    repeat match goal with |- context [if ?b then _ else _] => destruct b end;
    cbn [snd whatsapp]; rewrite ?app_nil_r; reflexivity.
Qed.

Lemma phone_step seen g c :
  phone (snd (group_step (seen, g) c)) =
  (phone g ++ if bool_decide (ct_value c ∉ seen) && phone_rule c then [ct_value c] else [])%list.
Proof.
  unfold group_step, phone_rule, whatsapp_rule. case_bool_decide; cbn [andb];
    [|cbn [snd]; rewrite app_nil_r; reflexivity].
  destruct (String.eqb (ct_type c) "whatsapp"); cbn [orb negb andb snd phone];
    [rewrite app_nil_r; reflexivity|].
  destruct (String.eqb (ct_type c) "phone"); cbn [orb negb andb];
    [destruct (startswith (ct_value c) "+62"); cbn [negb andb snd phone];
       rewrite ?app_nil_r; reflexivity|].
  repeat match goal with |- context [if ?b then _ else _] => destruct b end;
    cbn [snd phone]; rewrite ?app_nil_r; reflexivity.
Qed.

Section ExtractionFacts.

Variable re_findall : string -> string -> bool -> list string.
Variable re_search : string -> string -> option string.
Variable PhoneNumber : Type.
Variable phonenumbers_parse : string -> string -> res PhoneNumber.
Variable phonenumbers_is_valid_number : PhoneNumber -> res bool.
Variable phonenumbers_format_E164 : PhoneNumber -> res string.
Variable ValidatedEmail : Type.
Variable validate_email : string -> res ValidatedEmail.
Variable validated_email : ValidatedEmail -> string.

Abbreviation cleaned_matches :=
  (Agent.cleaned_matches PhoneNumber phonenumbers_parse phonenumbers_is_valid_number
     phonenumbers_format_E164).
Abbreviation validated_emails :=
  (Agent.validated_emails re_search ValidatedEmail validate_email validated_email).
Abbreviation _extract_all_contacts :=
  (Agent._extract_all_contacts re_findall re_search PhoneNumber phonenumbers_parse
     phonenumbers_is_valid_number phonenumbers_format_E164
     ValidatedEmail validate_email validated_email).
Abbreviation _parse_contact_results :=
  (Agent._parse_contact_results re_findall re_search PhoneNumber phonenumbers_parse
     phonenumbers_is_valid_number phonenumbers_format_E164
     ValidatedEmail validate_email validated_email).

Lemma cleaned_matches_returns contact_type source_url matches :
  exists cs, cleaned_matches contact_type source_url matches = Ret cs
             /\ Forall (fun c => ct_type c = contact_type) cs.
Proof.
  induction matches as [|m rest (cs & IH & Hty)]; [exists []; split; [reflexivity|constructor]|].
  cbn [Agent.cleaned_matches].
  unfold _clean_phone_number at 1, try_except.
  destruct (_clean_phone_number_body _ _ _ _ m) as [cleaned|e]; cbn [res_bind];
    rewrite IH; cbn [res_bind].
  - destruct (truthy cleaned); eexists; (split; [reflexivity|]); auto.
  - eexists; split; [reflexivity|]; auto.
Qed.

Lemma validated_emails_returns source_url matches :
  exists cs, validated_emails source_url matches = Ret cs.
Proof.
  induction matches as [|m rest (cs & IH)]; [exists []; reflexivity|].
  cbn [Agent.validated_emails].
  unfold _validate_email_address at 1, try_except.
  match goal with |- context [res_bind (match ?b with Ret a => _ | Raise e => _ end)] =>
    destruct b as [validated|e] end; cbn [res_bind]; rewrite IH; cbn [res_bind]; eauto.
Qed.

(** X2. Whatever the libraries return or raise and whatever the patterns
    match, [_extract_all_contacts] returns a list and
    [_parse_contact_results] returns the grouping of that list. *)
Lemma _parse_contact_results_groups (agent_result original_query : string) :
  exists all_contacts,
    _extract_all_contacts agent_result EmptyString = Ret all_contacts
    /\ _parse_contact_results agent_result original_query
       = Ret (build_results all_contacts original_query).
Proof.
  unfold Agent._parse_contact_results, Agent._extract_all_contacts.
  destruct (cleaned_matches_returns "phone" EmptyString
              (flat_map (fun pattern => re_findall pattern agent_result true)
                 phone_patterns)) as (phones & -> & _).
  destruct (validated_emails_returns EmptyString
              (re_findall email_pattern agent_result false)) as (emails & ->).
  destruct (cleaned_matches_returns "whatsapp" EmptyString
              (flat_map (fun pattern => re_findall pattern agent_result true)
                 whatsapp_patterns)) as (whatsapps & -> & _).
  cbn [res_bind try_except]. eexists. split; reflexivity.
Qed.

End ExtractionFacts.

(** C7 (amended).  In the grouped output a value is in the [whatsapp]
    bucket exactly when its first candidate has the type [whatsapp], or has
    the type [phone] and a value that starts with [+62]; it is in the
    [phone] bucket exactly when its first candidate has the type [phone]
    and a value that does not start with [+62].  No value is in both
    buckets. *)
Theorem group_contacts_buckets (all_contacts : list contact) (v : string) :
  let g := snd (group_contacts all_contacts) in
  (In v (whatsapp g) <->
   exists c, first_with_value v all_contacts = Some c
             /\ (ct_type c = "whatsapp"
                 \/ (ct_type c = "phone" /\ startswith v "+62" = true)))
  /\ (In v (phone g) <->
      exists c, first_with_value v all_contacts = Some c
                /\ ct_type c = "phone" /\ startswith v "+62" = false)
  /\ ~ (In v (whatsapp g) /\ In v (phone g)).
Proof.
  cbv zeta.
  pose proof (bucket_characterised whatsapp whatsapp_rule eq_refl whatsapp_step
                all_contacts v) as Hw.
  pose proof (bucket_characterised phone phone_rule eq_refl phone_step
                all_contacts v) as Hp.
  assert (forall c, first_with_value v all_contacts = Some c -> ct_value c = v) as Hval.
  { intros c H. apply find_some in H as [_ H]. apply String.eqb_eq, H. }
  split; [|split].
  - rewrite Hw. split; intros (c & Hc & R); exists c; (split; [exact Hc|]);
      rewrite <- (Hval c Hc) in *; unfold whatsapp_rule in *.
    + apply orb_true_iff in R as [R|R]; [left; apply String.eqb_eq, R|].
      apply andb_true_iff in R as [R1 R2]. right. split; [apply String.eqb_eq, R1|exact R2].
    + destruct R as [R|[R1 R2]].
      * apply String.eqb_eq in R. rewrite R. reflexivity.
      * apply String.eqb_eq in R1. rewrite R1, R2. apply orb_true_r.
  - rewrite Hp. split; intros (c & Hc & R); exists c; (split; [exact Hc|]);
      rewrite <- (Hval c Hc) in *; unfold phone_rule, whatsapp_rule in *.
    + apply andb_true_iff in R as [R1 R2]. apply String.eqb_eq in R2.
      split; [exact R2|].
      rewrite R2 in R1. cbn in R1.
      destruct (startswith (ct_value c) "+62"); [discriminate|reflexivity].
    + destruct R as [R1 R2]. rewrite R1, R2. reflexivity.
  - rewrite Hw, Hp. intros [(c & Hc & Rw) (c' & Hc' & Rp)].
    rewrite Hc in Hc'. injection Hc' as <-.
    unfold phone_rule in Rp. rewrite Rw in Rp. discriminate.
Qed.

Lemma group_contacts_buckets_witness :
  In "+6281234567890"
     (whatsapp (snd (group_contacts [plain_phone "+6281234567890" "081234567890"]))).
Proof.
  apply (group_contacts_buckets [plain_phone "+6281234567890" "081234567890"]).
  eexists. split; [reflexivity|]. right. split; reflexivity.
Defined.

(** C7, as stated, fails: a number found by a plain phone pattern only,
    and cleaned to [+6281234567890], is put in the [whatsapp] bucket and
    not in the [phone] bucket. *)
Lemma plain_phone_lands_in_whatsapp :
  build_results [plain_phone "+6281234567890" "081234567890"] "Acme"
  = [ {| query := "Acme";
         whatsapp_numbers := ["+6281234567890"];
         phone_numbers := [];
         email_addresses := [];
         social_media := [];
         total_contacts_found := 1 |} ].
Proof. vm_compute. reflexivity. Qed.

End AgentFacts.

Module AgentPhoneFacts.
Import Py Agent Props PyFacts.

Section AgentPhone.

Variable PhoneNumber : Type.
Variable phonenumbers_parse : string -> string -> res PhoneNumber.
Variable phonenumbers_is_valid_number : PhoneNumber -> res bool.
Variable phonenumbers_format_E164 : PhoneNumber -> res string.

Abbreviation _clean_phone_number :=
(Agent._clean_phone_number PhoneNumber phonenumbers_parse
   phonenumbers_is_valid_number phonenumbers_format_E164).

(** X3. The agent's cleaner returns what [phonenumbers] formats for a number
  it finds valid, and otherwise a value of the same shape as the helper's:
  [+62], 12 to 15 characters, digits and plus signs. *)
Lemma _clean_phone_number_returns (phone c : string) :
_clean_phone_number phone = Ret (Some c) ->
(exists number parsed,
    phonenumbers_parse number "ID" = Ret parsed
    /\ phonenumbers_is_valid_number parsed = Ret true
    /\ phonenumbers_format_E164 parsed = Ret c)
\/ (startswith c "+62" = true
    /\ (12 <= String.length c <= 15)%nat
    /\ all_str Helpers.digit_or_plus c = true).
Proof.
unfold Agent._clean_phone_number, _clean_phone_number_body, try_except.
cbv zeta.
set (filtered := re_sub_not_in Helpers.digit_or_plus phone).
assert (all_str Helpers.digit_or_plus filtered = true) as Hf
  by apply filter_str_all.
set (cleaned := if startswith filtered "08" then _ else _).
assert (all_str Helpers.digit_or_plus cleaned = true) as Hc.
{ subst cleaned.
  repeat match goal with |- context [if ?b then _ else _] => destruct b end;
    rewrite ?all_str_app, ?all_str_slice_from by exact Hf; rewrite ?Hf; reflexivity. }
clearbody cleaned.
assert (forall o : res (option string),
           match (if startswith cleaned "+62"
                     && (12 <=? String.length cleaned)%nat
                     && (String.length cleaned <=? 15)%nat
                  then Ret (Some cleaned) else Ret None)
           with Ret a => Ret a | Raise _ => o end = Ret (Some c) ->
           startswith c "+62" = true
           /\ (12 <= String.length c <= 15)%nat
           /\ all_str Helpers.digit_or_plus c = true) as Hfallback.
{ intros o. destruct (startswith cleaned "+62" && _ && _) eqn:E; [|discriminate].
  intros [= <-].
  apply andb_true_iff in E as [E Hhi]. apply andb_true_iff in E as [Hpre Hlo].
  apply Nat.leb_le in Hhi, Hlo. auto. }
specialize (Hfallback (Ret None)).
destruct (phonenumbers_parse cleaned "ID") as [parsed|e] eqn:Hparse;
  cbn [res_bind try_except_only].
- destruct (phonenumbers_is_valid_number parsed) as [[|]|e] eqn:Hvalid;
    cbn [res_bind try_except_only].
  + destruct (phonenumbers_format_E164 parsed) as [e164|e] eqn:Hfmt;
      cbn [res_bind try_except_only].
    * intros [= <-]. left. eauto.
    * destruct (is_NumberParseException e); cbn [res_bind];
      [intros H; right; apply Hfallback, H|discriminate].
  + intros H; right; apply Hfallback, H.
  + destruct (is_NumberParseException e); cbn [res_bind];
      [intros H; right; apply Hfallback, H|discriminate].
- destruct (is_NumberParseException e); cbn [res_bind];
      [intros H; right; apply Hfallback, H|discriminate].
Qed.

End AgentPhone.

(** With a library that parses nothing, a cleaned value has the helper's
    shape. *)
Lemma _clean_phone_number_returns_witness :
  startswith "+6281234567890" "+62" = true
  /\ (12 <= String.length "+6281234567890" <= 15)%nat
  /\ all_str Helpers.digit_or_plus "+6281234567890" = true.
Proof.
  destruct (_clean_phone_number_returns unit
              (fun _ _ => Raise NumberParseException) (fun _ => Ret false)
              (fun _ => Raise (OtherException "unused"))
              "0812 3456 7890" "+6281234567890" eq_refl)
    as [(number & parsed & Hparse & _)|Hshape].
  - discriminate Hparse.
  - exact Hshape.
Defined.

End AgentPhoneFacts.

Module MoreStringFacts.
Import Py PyFacts.

Lemma lower_char_idempotent (c : ascii) : lower_char (lower_char c) = lower_char c.
Proof. destruct c as [[] [] [] [] [] [] [] []]; reflexivity. Qed.

Lemma lower_idempotent (s : string) : lower (lower s) = lower s.
Proof.
  unfold lower. induction s as [|c s IH]; cbn [map_str]; [reflexivity|].
  rewrite lower_char_idempotent, IH. reflexivity.
Qed.

Lemma lower_length (s : string) : String.length (lower s) = String.length s.
Proof.
  unfold lower. induction s as [|c s IH]; cbn [map_str String.length]; congruence.
Qed.

Lemma startswith_empty (s : string) : startswith s EmptyString = true.
Proof. destruct s; reflexivity. Qed.

Lemma startswith_length (s p : string) :
  startswith s p = true -> (String.length p <= String.length s)%nat.
Proof.
  revert s. induction p as [|a p IH]; intros s; cbn [startswith String.length]; [lia|].
  destruct s as [|b s]; [discriminate|]. cbn [String.length].
  intros H. apply andb_true_iff in H as [_ H]. apply IH in H. lia.
Qed.

(** A substring is not longer than the string. *)
Lemma contains_length (s sub : string) :
  contains s sub = true -> (String.length sub <= String.length s)%nat.
Proof.
  induction s as [|c s IH]; cbn [contains]; intros H;
    apply orb_true_iff in H as [H|H].
  - apply startswith_length, H.
  - discriminate.
  - apply startswith_length, H.
  - apply IH in H. cbn [String.length]. lia.
Qed.

(** [s.replace('+', '')] deletes the plus signs. *)
Lemma replace_plus (s : string) :
  Agent.replace_by_empty s "+" = filter_str (fun c => negb (Ascii.eqb c "+")) s.
Proof.
  unfold Agent.replace_by_empty.
  induction s as [|c s IH]; cbn [Agent.delete_occurrences filter_str]; [reflexivity|].
  cbn [startswith String.length Nat.sub].
  rewrite startswith_empty.
  rewrite andb_true_r, (Ascii.eqb_sym c "+").
  destruct (Ascii.eqb "+" c); cbn [negb]; rewrite IH; reflexivity.
Qed.

Lemma filter_str_length (p : ascii -> bool) (s : string) :
  (String.length (filter_str p s) <= String.length s)%nat.
Proof.
  induction s as [|c s IH]; cbn [filter_str String.length]; [lia|].
  destruct (p c); cbn [String.length]; lia.
Qed.

(** Deleting the plus signs of a string of digits and plus signs leaves
    digits. *)
Lemma digits_without_plus (s : string) :
  all_str Helpers.digit_or_plus s = true ->
  all_str re_digit (filter_str (fun c => negb (Ascii.eqb c "+")) s) = true.
Proof.
  induction s as [|c s IH]; cbn [all_str filter_str]; [reflexivity|].
  intros H. apply andb_true_iff in H as [Hc Hs]. unfold Helpers.digit_or_plus in Hc.
  destruct (Ascii.eqb c "+"); cbn [negb]; [apply IH, Hs|].
  cbn [all_str]. rewrite orb_false_r in Hc. rewrite Hc. apply IH, Hs.
Qed.

Lemma digits_have_no_plus (s : string) :
  all_str re_digit s = true ->
  filter_str (fun c => negb (Ascii.eqb c "+")) s = s
  /\ all_str Helpers.digit_or_plus s = true.
Proof.
  induction s as [|c s IH]; cbn [all_str filter_str]; [auto|].
  intros H. apply andb_true_iff in H as [Hc Hs]. destruct (IH Hs) as [E1 E2].
  rewrite E2, andb_true_r. unfold Helpers.digit_or_plus at 1. rewrite Hc.
  destruct (Ascii.eqb_spec c "+") as [->|]; [discriminate Hc|].
  cbn [negb orb]. rewrite E1. auto.
Qed.

Lemma digits_contain_no_plus (s : string) :
  all_str re_digit s = true -> contains_char s "+" = false.
Proof.
  unfold contains_char.
  induction s as [|c s IH]; cbn [all_str any_str]; [reflexivity|].
  intros H. apply andb_true_iff in H as [Hc Hs]. rewrite (IH Hs), orb_false_r.
  destruct (Ascii.eqb_spec "+"%char c) as [<-|]; [discriminate Hc|reflexivity].
Qed.

End MoreStringFacts.

Module HelpersMoreFacts.
Import Py Helpers HelpersMore PyFacts HelpersFacts MoreStringFacts.

(** The second prefix rule fires on a string that starts with [62]. *)
Lemma indonesian_format_62 (rest : string) :
  indonesian_format (String "6" (String "2" rest))
  = String "+" (String "6" (String "2" rest)).
Proof.
  unfold indonesian_format. cbn [startswith].
  change (Ascii.eqb "0" "6") with false. change (Ascii.eqb "6" "6") with true.
  change (Ascii.eqb "2" "2") with true. change (Ascii.eqb "+" "6") with false.
  cbn [andb negb]. rewrite startswith_empty. reflexivity.
Qed.

Lemma format_whatsapp_number_cleaned (phone c : string) :
  clean_phone_number phone = Ret (Some c) ->
  format_whatsapp_number phone
  = Ret (filter_str (fun ch => negb (Ascii.eqb ch "+")) c).
Proof.
  intros H. pose proof (clean_phone_number_returns _ _ H) as (Hpre & _ & _).
  unfold format_whatsapp_number. rewrite H. cbn [res_bind not_opt].
  destruct c as [|a c]; [discriminate Hpre|].
  cbn [is_empty negb default try_except]. rewrite replace_plus. reflexivity.
Qed.

Lemma format_whatsapp_number_not_cleaned (phone : string) :
  clean_phone_number phone = Ret None -> format_whatsapp_number phone = Ret phone.
Proof. intros H. unfold format_whatsapp_number. rewrite H. reflexivity. Qed.

(** X4. For a number that [clean_phone_number] accepts,
    [format_whatsapp_number] returns the cleaned value without its plus
    signs: a string with no plus sign whose characters all match [\d],
    starting with [62], shorter than the cleaned value and so of at most 14
    characters. *)
Theorem format_whatsapp_number_digits (phone c : string) :
  clean_phone_number phone = Ret (Some c) ->
  exists d,
    format_whatsapp_number phone = Ret d
    /\ d = filter_str (fun ch => negb (Ascii.eqb ch "+")) c
    /\ contains_char d "+" = false
    /\ all_str re_digit d = true
    /\ startswith d "62" = true
    /\ (String.length d < String.length c <= 15)%nat.
Proof.
  intros H. pose proof (clean_phone_number_returns _ _ H) as (Hpre & Hlen & Hall).
  eexists. split; [apply format_whatsapp_number_cleaned, H|].
  split; [reflexivity|].
  pose proof (digits_without_plus c Hall) as Hdigits.
  split; [apply digits_contain_no_plus, Hdigits|].
  split; [exact Hdigits|].
  apply startswith_app in Hpre. cbn [String.length slice_from] in Hpre.
  destruct c as [|c0 [|c1 [|c2 rest]]]; try discriminate Hpre.
  injection Hpre as -> -> ->.
  cbn [filter_str].
  change (Ascii.eqb "+" "+") with true. change (Ascii.eqb "6" "+") with false.
  change (Ascii.eqb "2" "+") with false. cbn [negb].
  split; [cbn [startswith]; rewrite startswith_empty; reflexivity|].
  pose proof (filter_str_length (fun ch => negb (Ascii.eqb ch "+")) rest).
  cbn [String.length] in *. lia.
Qed.

Lemma format_whatsapp_number_digits_witness :
  exists d,
    format_whatsapp_number "0812-3456+7890" = Ret d
    /\ d = "6281234567890"
    /\ contains_char d "+" = false
    /\ all_str re_digit d = true
    /\ startswith d "62" = true
    /\ (String.length d < String.length "+628123456+7890" <= 15)%nat.
Proof.
  apply (format_whatsapp_number_digits "0812-3456+7890" "+628123456+7890").
  reflexivity.
Defined.

(** X5. [format_whatsapp_number] is idempotent on every string: formatting
    its own result changes nothing. *)
Theorem format_whatsapp_number_idempotent (phone : string) :
  exists formatted,
    format_whatsapp_number phone = Ret formatted
    /\ format_whatsapp_number formatted = Ret formatted.
Proof.
  assert (exists o, clean_phone_number phone = Ret o) as [o Ho].
  { unfold clean_phone_number, try_except.
    destruct (clean_phone_number_body phone); eauto. }
  destruct o as [c|].
  - pose proof (clean_phone_number_returns _ _ Ho) as (Hpre & Hlen & Hall).
    eexists. split; [apply format_whatsapp_number_cleaned, Ho|].
    set (d := filter_str _ c).
    assert (all_str re_digit d = true) as Hd by apply digits_without_plus, Hall.
    destruct (digits_have_no_plus d Hd) as [Hnoplus Hclass].
    assert (exists o', clean_phone_number d = Ret o'
                       /\ (o' = None \/ o' = Some ("+" ++ d))) as (o' & Ho' & Hcases).
    { rewrite clean_phone_number_unfold.
      destruct (is_empty d); [eauto|]. cbv zeta.
      unfold re_sub_not_in. rewrite (filter_str_id _ _ Hclass).
      assert (indonesian_format d = "+" ++ d) as ->.
      { subst d. apply startswith_app in Hpre. cbn [String.length slice_from] in Hpre.
        destruct c as [|c0 [|c1 [|c2 rest]]]; try discriminate Hpre.
        injection Hpre as -> -> ->. cbn [filter_str].
        change (Ascii.eqb "+" "+") with true. change (Ascii.eqb "6" "+") with false.
        change (Ascii.eqb "2" "+") with false. cbn [negb].
        apply indonesian_format_62. }
      destruct (startswith _ _ && _ && _); eauto. }
    destruct Hcases as [-> | ->].
    + apply format_whatsapp_number_not_cleaned, Ho'.
    + rewrite (format_whatsapp_number_cleaned _ _ Ho').
      cbn [String.append filter_str]. change (Ascii.eqb "+" "+") with true.
      cbn [negb]. rewrite Hnoplus. reflexivity.
  - exists phone. split; apply format_whatsapp_number_not_cleaned, Ho.
Qed.


Section PhoneValidation.

Variable PhoneNumber : Type.
Variable phonenumbers_parse : string -> string -> res PhoneNumber.
Variable phonenumbers_is_valid_number : PhoneNumber -> res bool.

Abbreviation validate_phone_number :=
  (Helpers.validate_phone_number PhoneNumber phonenumbers_parse
     phonenumbers_is_valid_number).

(** X6. Whatever [phonenumbers] answers, a number that
    [validate_phone_number] reports valid is one that [clean_phone_number]
    accepts: validity implies a canonical form. *)
Theorem validate_phone_number_cleans (phone : string) :
  validate_phone_number phone = Ret true ->
  exists c, clean_phone_number phone = Ret (Some c).
Proof.
  unfold Helpers.validate_phone_number, validate_phone_number_body.
  destruct (is_empty phone); [discriminate|].
  destruct (clean_phone_number phone) as [[c|]|e]; cbn [res_bind try_except not_opt];
    [eauto|discriminate|discriminate].
Qed.

(** When [phonenumbers] cannot parse the cleaned number, the fallback rule
    decides. *)
Lemma validate_phone_number_fallback (phone c : string) :
  clean_phone_number phone = Ret (Some c) ->
  phonenumbers_parse c "ID" = Raise NumberParseException ->
  validate_phone_number phone
  = Ret (11 <=? String.length (re_sub_not_in re_digit c))%nat.
Proof.
  intros Hclean Hparse.
  pose proof (clean_phone_number_returns _ _ Hclean) as (Hpre & Hlen & Hall).
  unfold Helpers.validate_phone_number, validate_phone_number_body.
  destruct phone as [|a phone]; [discriminate Hclean|]. cbn [is_empty].
  rewrite Hclean. cbn [res_bind not_opt].
  destruct c as [|c0 c]; [discriminate Hpre|]. cbn [is_empty]. cbv zeta.
  change (default EmptyString (Some (String c0 c))) with (String c0 c).
  rewrite Hparse. cbn [res_bind try_except_only is_NumberParseException].
  rewrite Hpre. cbn [try_except].
  assert ((String.length (re_sub_not_in re_digit (String c0 c)) <=? 15)%nat = true) as ->.
  { apply Nat.leb_le. pose proof (filter_str_length re_digit (String c0 c)).
    unfold re_sub_not_in. lia. }
  rewrite andb_true_r. reflexivity.
Qed.

End PhoneValidation.

Lemma validate_phone_number_cleans_witness :
  exists c, clean_phone_number "+62 812-3456-7890" = Ret (Some c).
Proof.
  apply (validate_phone_number_cleans unit
           (fun _ _ => Raise NumberParseException) (fun _ => Ret false)
           "+62 812-3456-7890").
  reflexivity.
Defined.

Lemma count_digits_single_plus (rest : string) :
  all_str re_digit rest = true ->
  re_sub_not_in re_digit (String "+" rest) = rest.
Proof.
  intros H. unfold re_sub_not_in. cbn [filter_str].
  change (re_digit "+") with false. cbn. apply filter_str_id, H.
Qed.

(** X7. With a [phonenumbers] that parses nothing, every number that
    [clean_phone_number] accepts and that has digits only after its first
    character is valid: the fallback asks for 11 digits and a cleaned value
    has at least 12 characters; its upper bound of 15 never rejects. *)
Theorem validate_phone_number_fallback_accepts
    (PhoneNumber : Type) (phonenumbers_is_valid_number : PhoneNumber -> res bool)
    (phone c : string) :
  clean_phone_number phone = Ret (Some c) ->
  Props.digits_after_plus c = true ->
  Helpers.validate_phone_number PhoneNumber
    (fun _ _ => Raise NumberParseException) phonenumbers_is_valid_number phone
  = Ret true.
Proof.
  intros Hclean Hdigits.
  pose proof (clean_phone_number_returns _ _ Hclean) as (Hpre & Hlen & _).
  rewrite (validate_phone_number_fallback _ _ _ phone c Hclean eq_refl).
  destruct c as [|c0 rest]; [discriminate Hpre|].
  cbn [startswith] in Hpre. apply andb_true_iff in Hpre as [Hplus _].
  apply Ascii.eqb_eq in Hplus. subst c0.
  unfold Props.digits_after_plus in Hdigits. cbn [slice_from] in Hdigits.
  rewrite (count_digits_single_plus rest Hdigits).
  cbn [String.length] in Hlen. f_equal. apply Nat.leb_le. lia.
Qed.

Lemma validate_phone_number_fallback_accepts_witness :
  Helpers.validate_phone_number unit
    (fun _ _ => Raise NumberParseException) (fun _ => Ret false) "081234567890"
  = Ret true.
Proof.
  apply (validate_phone_number_fallback_accepts unit (fun _ => Ret false)
           "081234567890" "+6281234567890"); reflexivity.
Defined.


(** *** Keywords, sizes and suggestions *)

Lemma all_keywords_NoDup : List.NoDup (beauty_keywords ++ business_keywords).
Proof.
  apply (NoDup_count_occ' string_dec).
  intros k Hin. unfold beauty_keywords, business_keywords in *. cbn [app] in *.
  repeat (destruct Hin as [<-|Hin]; [vm_compute; reflexivity|]). destruct Hin.
Qed.

(** X8. [extract_business_keywords] returns keywords of its two tables
    that occur in the lower-cased text, each once; it does not depend on the
    case of the text: the text and its lower-case form give the same list. *)
Theorem extract_business_keywords_case_insensitive (text : string) :
  exists keywords,
    extract_business_keywords text = Ret keywords
    /\ extract_business_keywords (lower text) = Ret keywords
    /\ List.NoDup keywords
    /\ (forall k, In k keywords ->
          In k (beauty_keywords ++ business_keywords)
          /\ contains (lower text) k = true).
Proof.
  unfold extract_business_keywords, try_except. cbv zeta.
  eexists. split; [reflexivity|].
  split; [rewrite lower_idempotent; reflexivity|].
  split.
  - apply List.NoDup_filter, all_keywords_NoDup.
  - intros k Hin. apply List.filter_In in Hin. exact Hin.
Qed.

Lemma startswith_trans (sub : string) :
  forall s t, startswith s sub = true -> startswith t s = true ->
              startswith t sub = true.
Proof.
  induction sub as [|a sub IH]; intros s t Hsub Hpre; [apply startswith_empty|].
  destruct s as [|c s]; [discriminate Hsub|].
  destruct t as [|d t]; [discriminate Hpre|].
  cbn [startswith] in *.
  apply andb_true_iff in Hsub as [Hac Hsub]. apply andb_true_iff in Hpre as [Hcd Hpre].
  apply Ascii.eqb_eq in Hac, Hcd. subst. rewrite Ascii.eqb_refl.
  apply (IH s t Hsub Hpre).
Qed.

Lemma contains_trans_prefix (s sub : string) :
  forall t, startswith t s = true -> contains s sub = true -> contains t sub = true.
Proof.
  induction s as [|c s IH]; intros t Hpre Hsub.
  - cbn [contains] in Hsub. rewrite orb_false_r in Hsub.
    destruct sub; [|discriminate Hsub].
    destruct t; reflexivity.
  - destruct t as [|d t]; [discriminate Hpre|].
    cbn [contains] in Hsub |- *. apply orb_true_iff in Hsub as [Hsub|Hsub].
    + apply orb_true_iff. left. apply (startswith_trans sub _ _ Hsub Hpre).
    + cbn [startswith] in Hpre. apply andb_true_iff in Hpre as [_ Hpre].
      apply orb_true_iff. right. apply (IH t Hpre Hsub).
Qed.

(** A substring of a substring is a substring. *)
Lemma contains_trans (t s sub : string) :
  contains t s = true -> contains s sub = true -> contains t sub = true.
Proof.
  induction t as [|d t IH]; intros Hts Hsub; cbn [contains] in Hts;
    apply orb_true_iff in Hts as [Hts|Hts].
  - apply (contains_trans_prefix s sub _ Hts Hsub).
  - discriminate.
  - apply (contains_trans_prefix s sub _ Hts Hsub).
  - cbn [contains]. apply orb_true_iff. right. apply IH; assumption.
Qed.

Lemma contains_app_l (a b sub : string) :
  contains a sub = true -> contains (a ++ b) sub = true.
Proof.
  assert (forall a b sub, startswith a sub = true -> startswith (a ++ b) sub = true)
    as Hpre.
  { clear. intros a b sub. revert a.
    induction sub as [|c sub IH]; intros a H; [apply startswith_empty|].
    destruct a as [|d a]; [discriminate H|].
    cbn [startswith String.append] in H |- *.
    apply andb_true_iff in H as [H1 H2]. rewrite H1. apply IH, H2. }
  induction a as [|d a IH]; intros H; cbn [contains] in H;
    apply orb_true_iff in H as [H|H].
  - destruct sub; [|discriminate H]. destruct b; reflexivity.
  - discriminate.
  - cbn [String.append contains]. apply orb_true_iff. left.
    apply (Hpre (String d a) b sub H).
  - cbn [String.append contains]. apply orb_true_iff. right. apply IH, H.
Qed.

Lemma get_lower_text (field : option value) :
  get_lower field
  = if MoreProps.is_text field then Ret (MoreProps.text_of field)
    else Raise (OtherException "AttributeError").
Proof. destruct field as [[]|]; reflexivity. Qed.

Lemma any_in_app (subs1 subs2 : list string) (s : string) :
  any_in (subs1 ++ subs2) s = any_in subs1 s || any_in subs2 s.
Proof. unfold any_in. apply existsb_app. Qed.

(** X9. [categorize_business_size] never raises and answers [Large],
    [Medium], [Small] or [Unknown].  It answers [Unknown] exactly when
    name, website or description holds a value that is not a string, or
    when no indicator occurs, the website is not empty and [contacts] holds
    a value without a length ([None], a number).  When the texts are
    strings, a brand whose name speaks of a [home industry] is never
    [Small]: the medium indicator [industry] is tested before the small
    indicator [home]. *)
Theorem categorize_business_size_range (brand_info : size_input) :
  exists size,
    categorize_business_size brand_info = Ret size
    /\ In size ["Large"; "Medium"; "Small"; "Unknown"]
    /\ (size = "Unknown" <->
        MoreProps.texts_ok brand_info = false
        \/ (MoreProps.no_indicator brand_info = true
            /\ MoreProps.text_of (sz_website brand_info) <> EmptyString
            /\ MoreProps.is_sized (sz_contacts brand_info) = false))
    /\ (MoreProps.texts_ok brand_info = true ->
        contains (MoreProps.text_of (sz_name brand_info)) "home industry" = true ->
        size = "Large" \/ size = "Medium").
Proof.
  unfold categorize_business_size, MoreProps.texts_ok, MoreProps.no_indicator.
  rewrite !get_lower_text, !any_in_app.
  destruct (MoreProps.is_text (sz_name brand_info)); cbn [res_bind try_except andb];
    [|eexists; split; [reflexivity|]; split; [cbn [In]; auto 6|];
      split; [split; auto|discriminate]].
  destruct (MoreProps.is_text (sz_website brand_info)); cbn [res_bind try_except andb];
    [|eexists; split; [reflexivity|]; split; [cbn [In]; auto 6|];
      split; [split; auto|discriminate]].
  destruct (MoreProps.is_text (sz_description brand_info));
    cbn [res_bind try_except andb];
    [|eexists; split; [reflexivity|]; split; [cbn [In]; auto 6|];
      split; [split; auto|discriminate]].
  cbv zeta.
  set (name := MoreProps.text_of (sz_name brand_info)).
  set (website := MoreProps.text_of (sz_website brand_info)).
  set (text := name ++ _).
  destruct (any_in large_indicators text) eqn:Hlarge; cbn [orb negb try_except].
  { eexists; split; [reflexivity|]. split; [cbn [In]; auto|].
    split; [split; [discriminate|intros [H|(H & _)]; discriminate H]|auto]. }
  destruct (any_in medium_indicators text) eqn:Hmedium; cbn [orb negb try_except].
  { eexists; split; [reflexivity|]. split; [cbn [In]; auto|].
    split; [split; [discriminate|intros [H|(H & _)]; discriminate H]|auto]. }
  assert (contains name "home industry" = true -> False) as Hno.
  { intros Hname.
    assert (contains text "industry" = true) as Hind.
    { apply contains_app_l.
      apply (contains_trans name "home industry" "industry" Hname). reflexivity. }
    assert (any_in medium_indicators text = true) as Hyes.
    { apply existsb_exists. exists "industry". split; [|exact Hind].
      unfold medium_indicators. cbn [In]. auto. }
    congruence. }
  destruct (any_in small_indicators text) eqn:Hsmall; cbn [orb negb try_except].
  { eexists; split; [reflexivity|]. split; [cbn [In]; auto|].
    split; [split; [discriminate|intros [H|(H & _)]; discriminate H]
           |intros _ H; destruct (Hno H)]. }
  destruct website as [|c website'] eqn:Hweb; cbn [is_empty negb try_except].
  { eexists; split; [reflexivity|]. split; [cbn [In]; auto|].
    split; [split; [discriminate|intros [H|(_ & H & _)]; [discriminate H|congruence]]
           |intros _ H; destruct (Hno H)]. }
  destruct (sz_contacts brand_info) as [[|s|items|n]|];
    cbn [get_len res_bind try_except MoreProps.is_sized];
    try (eexists; split; [reflexivity|]; split; [cbn [In]; auto 6|];
         split; [split; [intros _; right; repeat split; discriminate|reflexivity]
                |intros _ H; destruct (Hno H)]);
    match goal with |- context [(2 <? ?n)%nat] => destruct (2 <? n)%nat end;
    cbn [try_except];
    (eexists; split; [reflexivity|]; split; [cbn [In]; auto 6|];
     split; [split; [discriminate|intros [H|(_ & _ & H)]; discriminate H]
            |intros _ H; destruct (Hno H)]).
Qed.

Lemma any_in_short (subs : list string) (s : string) :
  Forall (fun sub => (String.length s < String.length sub)%nat) subs ->
  any_in subs s = false.
Proof.
  unfold any_in. induction 1 as [|sub subs Hlen _ IH]; cbn [existsb]; [reflexivity|].
  rewrite IH, orb_false_r.
  destruct (contains s sub) eqn:E; [|reflexivity].
  apply contains_length in E. lia.
Qed.

(** X10. [generate_search_suggestions] never gives more than five
    suggestions; a query of at most three characters gets none at all; and
    a query that names both a beauty word and a business word gets three
    categories and two business types, no place. *)
Theorem generate_search_suggestions_bounds (query : string) :
  exists suggestions,
    generate_search_suggestions query = Ret suggestions
    /\ (length suggestions <= 5)%nat
    /\ ((String.length query <= 3)%nat -> suggestions = [])
    /\ (any_in ["beauty"; "kecantikan"; "kosmetik"] (lower query) = true ->
        any_in ["umkm"; "small"; "local"; "lokal"] (lower query) = true ->
        suggestions = ["skincare"; "makeup"; "cosmetics";
                       "UMKM skincare"; "brand lokal makeup"]).
Proof.
  unfold generate_search_suggestions, try_except. cbv zeta.
  eexists. split; [reflexivity|]. split; [apply List.firstn_le_length|]. split.
  - intros Hshort.
    rewrite !any_in_short.
    + apply Nat.ltb_ge in Hshort. rewrite Hshort. reflexivity.
    + rewrite lower_length.
      repeat (constructor; [cbn [String.length]; lia|]). constructor.
    + rewrite lower_length.
      repeat (constructor; [cbn [String.length]; lia|]). constructor.
  - intros -> ->. destruct (3 <? String.length query)%nat; reflexivity.
Qed.


(** *** The contact summary *)

Lemma size_list_to_set_le (l : list string) :
  size (list_to_set l : gset string) <= length l.
Proof.
  induction l as [|x l IH]; [rewrite list_to_set_nil, size_empty; lia|].
  rewrite list_to_set_cons, size_union_alt, size_singleton. cbn [length].
  pose proof (subseteq_size (list_to_set l ∖ {[x]}) (list_to_set l : gset string)) as H.
  assert (size (list_to_set l ∖ {[x]} : gset string) <= size (list_to_set l : gset string))
    by (apply H; intros y Hy; apply elem_of_difference in Hy as [Hy _]; exact Hy).
  lia.
Qed.

Lemma summary_step_members lists contact v :
  (In v (sl_whatsapp (summary_step lists contact)) ->
   In v (sl_whatsapp lists) \/ v = contact)
  /\ (In v (sl_email (summary_step lists contact)) ->
      In v (sl_email lists) \/ v = contact)
  /\ (In v (sl_phone (summary_step lists contact)) ->
      In v (sl_phone lists) \/ v = contact)
  /\ (In v (sl_social (summary_step lists contact)) ->
      In v (sl_social lists) \/ v = contact).
Proof.
  unfold summary_step. cbv zeta.
  repeat match goal with |- context [if ?b then _ else _] => destruct b end;
    cbn [sl_whatsapp sl_email sl_phone sl_social];
    repeat split; intros H; auto;
    apply in_app_iff in H as [H|[<-|[]]]; auto.
Qed.

Lemma summary_step_length lists contact :
  length (sl_whatsapp (summary_step lists contact))
  + length (sl_email (summary_step lists contact))
  + length (sl_phone (summary_step lists contact))
  + length (sl_social (summary_step lists contact))
  <= S (length (sl_whatsapp lists) + length (sl_email lists)
        + length (sl_phone lists) + length (sl_social lists)).
Proof.
  unfold summary_step. cbv zeta.
  repeat match goal with |- context [if ?b then _ else _] => destruct b end;
    cbn [sl_whatsapp sl_email sl_phone sl_social];
    rewrite ?length_app; cbn [length]; lia.
Qed.

Lemma summary_fold_members contact_list v :
  forall lists,
    let final := fold_left summary_step contact_list lists in
    (In v (sl_whatsapp final) -> In v (sl_whatsapp lists) \/ In v contact_list)
    /\ (In v (sl_email final) -> In v (sl_email lists) \/ In v contact_list)
    /\ (In v (sl_phone final) -> In v (sl_phone lists) \/ In v contact_list)
    /\ (In v (sl_social final) -> In v (sl_social lists) \/ In v contact_list).
Proof.
  induction contact_list as [|contact rest IH]; intros lists; cbn [fold_left].
  - cbv zeta. tauto.
  - specialize (IH (summary_step lists contact)). cbv zeta in IH |- *.
    destruct IH as (Hw & He & Hp & Hs).
    destruct (summary_step_members lists contact v) as (Sw & Se & Sp & Ss).
    cbn [In].
    repeat split; intros H;
      [apply Hw in H as [H|H]; [apply Sw in H as [H|H]|]
      |apply He in H as [H|H]; [apply Se in H as [H|H]|]
      |apply Hp in H as [H|H]; [apply Sp in H as [H|H]|]
      |apply Hs in H as [H|H]; [apply Ss in H as [H|H]|]]; auto.
Qed.

Lemma summary_fold_length contact_list :
  forall lists,
    let final := fold_left summary_step contact_list lists in
    length (sl_whatsapp final) + length (sl_email final)
    + length (sl_phone final) + length (sl_social final)
    <= length contact_list
       + (length (sl_whatsapp lists) + length (sl_email lists)
          + length (sl_phone lists) + length (sl_social lists)).
Proof.
  induction contact_list as [|contact rest IH]; intros lists; cbn [fold_left length].
  - cbv zeta. lia.
  - specialize (IH (summary_step lists contact)). cbv zeta in IH |- *.
    pose proof (summary_step_length lists contact). lia.
Qed.

(** X11. [create_contact_summary] invents nothing and loses no field
    entry: every member of a summary list is a string of [contacts] or of
    the field of that kind, every string of a field is in the list of its
    kind, and [total_contacts] is at most the number of strings given. *)
Theorem create_contact_summary_sound (brand_data : summary_input) :
  let contact_list := Database.get (si_contacts brand_data) [] in
  let whatsapp_numbers := Database.get (si_whatsapp_numbers brand_data) [] in
  let email_addresses := Database.get (si_email_addresses brand_data) [] in
  let phone_numbers := Database.get (si_phone_numbers brand_data) [] in
  let social_media := Database.get (si_social_media brand_data) [] in
  exists summary,
    create_contact_summary brand_data = Ret summary
    /\ (forall v, v ∈ whatsapp_contacts summary ->
                  In v contact_list \/ In v whatsapp_numbers)
    /\ (forall v, v ∈ email_contacts summary ->
                  In v contact_list \/ In v email_addresses)
    /\ (forall v, v ∈ phone_contacts summary ->
                  In v contact_list \/ In v phone_numbers)
    /\ (forall v, v ∈ social_contacts summary ->
                  In v contact_list \/ In v social_media)
    /\ (forall v, In v whatsapp_numbers -> v ∈ whatsapp_contacts summary)
    /\ (forall v, In v email_addresses -> v ∈ email_contacts summary)
    /\ (forall v, In v phone_numbers -> v ∈ phone_contacts summary)
    /\ (forall v, In v social_media -> v ∈ social_contacts summary)
    /\ total_contacts summary
       <= length contact_list + length whatsapp_numbers + length email_addresses
          + length phone_numbers + length social_media.
Proof.
  cbv zeta. unfold create_contact_summary, try_except. cbv zeta.
  eexists. split; [reflexivity|].
  cbn [whatsapp_contacts email_contacts phone_contacts social_contacts total_contacts].
  unfold extend_with_fields. cbn [sl_whatsapp sl_email sl_phone sl_social].
  set (init := {| sl_whatsapp := []; sl_email := []; sl_phone := []; sl_social := [] |}).
  set (contact_list := Database.get (si_contacts brand_data) []).
  assert (forall v,
            (In v (sl_whatsapp (fold_left summary_step contact_list init)) ->
             In v contact_list)
            /\ (In v (sl_email (fold_left summary_step contact_list init)) ->
                In v contact_list)
            /\ (In v (sl_phone (fold_left summary_step contact_list init)) ->
                In v contact_list)
            /\ (In v (sl_social (fold_left summary_step contact_list init)) ->
                In v contact_list)) as Hmem.
  { intros v. destruct (summary_fold_members contact_list v init) as (Hw & He & Hp & Hs).
    cbv zeta in *. cbn [sl_whatsapp sl_email sl_phone sl_social init In] in *.
    repeat split; intros H;
      [apply Hw in H|apply He in H|apply Hp in H|apply Hs in H]; tauto. }
  pose proof (summary_fold_length contact_list init) as Hlen.
  cbv zeta in Hlen. cbn [sl_whatsapp sl_email sl_phone sl_social init length] in Hlen.
  repeat split.
  - intros v Hv. apply elem_of_list_to_set, list_elem_of_In, in_app_iff in Hv.
    destruct (Hmem v) as (Hw & _). destruct Hv as [Hv|Hv]; auto.
  - intros v Hv. apply elem_of_list_to_set, list_elem_of_In, in_app_iff in Hv.
    destruct (Hmem v) as (_ & He & _). destruct Hv as [Hv|Hv]; auto.
  - intros v Hv. apply elem_of_list_to_set, list_elem_of_In, in_app_iff in Hv.
    destruct (Hmem v) as (_ & _ & Hp & _). destruct Hv as [Hv|Hv]; auto.
  - intros v Hv. apply elem_of_list_to_set, list_elem_of_In, in_app_iff in Hv.
    destruct (Hmem v) as (_ & _ & _ & Hs). destruct Hv as [Hv|Hv]; auto.
  - intros v Hv. apply elem_of_list_to_set, list_elem_of_In, in_app_iff. auto.
  - intros v Hv. apply elem_of_list_to_set, list_elem_of_In, in_app_iff. auto.
  - intros v Hv. apply elem_of_list_to_set, list_elem_of_In, in_app_iff. auto.
  - intros v Hv. apply elem_of_list_to_set, list_elem_of_In, in_app_iff. auto.
  - repeat match goal with
           | |- context [size (list_to_set ?l)] =>
               let H := fresh "Hsz" in
               pose proof (size_list_to_set_le l) as H;
               rewrite length_app in H;
               generalize dependent (size (list_to_set l : gset string)); intros
           end.
    lia.
Qed.

End HelpersMoreFacts.

Module StripFacts.
Import Py.

Lemma rstrip_idempotent (s : string) : rstrip (rstrip s) = rstrip s.
Proof.
  induction s as [|c s IH]; [reflexivity|]. cbn [rstrip].
  destruct (rstrip s) as [|d r] eqn:E.
  - destruct (isspace c) eqn:Hc; [reflexivity|]. cbn [rstrip]. rewrite Hc. reflexivity.
  - cbn [rstrip]. cbn [rstrip] in IH. rewrite IH. reflexivity.
Qed.

Lemma rstrip_head (s : string) (c : ascii) (r : string) :
  rstrip s = String c r -> exists s', s = String c s'.
Proof.
  destruct s as [|a s]; [discriminate|]. cbn [rstrip].
  destruct (rstrip s); [destruct (isspace a); [discriminate|]|];
    intros [= -> _]; eauto.
Qed.

Lemma lstrip_head (s : string) (c : ascii) (r : string) :
  lstrip s = String c r -> isspace c = false.
Proof.
  induction s as [|a s IH]; [discriminate|]. cbn [lstrip].
  destruct (isspace a) eqn:Ha; [exact IH|]. intros [= <- _]. exact Ha.
Qed.

(** [s.strip()] has no white space left at either end: stripping it again
    changes nothing. *)
Lemma strip_idempotent (s : string) : strip (strip s) = strip s.
Proof.
  unfold strip. set (t := lstrip s).
  assert (lstrip (rstrip t) = rstrip t) as ->; [|apply rstrip_idempotent].
  destruct (rstrip t) as [|c r] eqn:E; [reflexivity|].
  destruct (rstrip_head _ _ _ E) as [t' Ht].
  cbn [lstrip]. rewrite (lstrip_head s c t' Ht). reflexivity.
Qed.

End StripFacts.

Module StoreMoreFacts.
Import Py Database Props MoreProps DatabaseFacts StripFacts.

Lemma _extract_contact_value_stripped (contact : string) :
  strip (_extract_contact_value contact) = _extract_contact_value contact.
Proof.
  unfold _extract_contact_value.
  generalize ["phone:"; "email:"; "whatsapp:"; "wa:"; "social:"].
  intros prefixes. induction prefixes as [|p rest IH]; cbn [strip_first_prefix].
  - apply strip_idempotent.
  - destruct (startswith (lower contact) p); [apply strip_idempotent|exact IH].
Qed.

Lemma _determine_contact_type_range (contact : string) :
  In (_determine_contact_type contact) contact_types.
Proof.
  unfold _determine_contact_type, contact_types. cbv zeta.
  repeat match goal with |- context [if ?b then _ else _] => destruct b end;
    cbn [In]; auto 6.
Qed.

Lemma contacts_of_delete brand_id d :
  contacts_of brand_id (delete_contacts brand_id d) = [].
Proof.
  unfold contacts_of, delete_contacts. cbn [contacts].
  induction (contacts d) as [|c rest IH]; [reflexivity|].
  cbn [List.filter]. destruct (c_brand_id c =? brand_id)%Z eqn:E; cbn [negb]; [exact IH|].
  cbn [List.filter]. rewrite E. exact IH.
Qed.

Lemma contacts_of_fold brand_id contact_list :
  forall d,
    map row_pair (contacts_of brand_id (fold_left (store_contact brand_id) contact_list d))
    = (map row_pair (contacts_of brand_id d)
       ++ map (fun contact => (_determine_contact_type contact,
                               _extract_contact_value contact))
            (List.filter (fun contact => negb (is_empty (_extract_contact_value contact)))
               contact_list))%list.
Proof.
  induction contact_list as [|contact rest IH]; intros d; cbn [fold_left List.filter].
  - cbn [map]. rewrite app_nil_r. reflexivity.
  - rewrite IH. unfold store_contact.
    destruct (negb (is_empty (_extract_contact_value contact))).
    + unfold contacts_of at 1, insert_contact. cbn [contacts].
      rewrite List.filter_app, map_app. cbn [List.filter c_brand_id].
      rewrite Z.eqb_refl. cbn [map]. unfold row_pair at 2.
      cbn [c_contact_type c_contact_value].
      rewrite <- app_assoc. reflexivity.
    + reflexivity.
Qed.

(** The rows of a brand after a fault-free [_save_contacts], by type and
    value. *)
Lemma contacts_of_replace brand_id contact_list d :
  map row_pair (contacts_of brand_id (replace_contacts brand_id contact_list d))
  = map (fun contact => (_determine_contact_type contact, _extract_contact_value contact))
      (List.filter (fun contact => negb (is_empty (_extract_contact_value contact)))
         contact_list).
Proof.
  unfold replace_contacts. rewrite contacts_of_fold, contacts_of_delete. reflexivity.
Qed.

(** A fault-free [save_brand] in terms of the tables. *)
Lemma save_brand_no_fault_db (bd : brand_data) (w : world) (brand_id : Z) (w' : world) :
  save_brand no_fault bd w = Done brand_id w' ->
  exists d0,
    db w' = replace_contacts brand_id (get (bd_contacts bd) []) d0
    /\ contacts d0 = contacts (db w)
    /\ (exists row, In row (brands d0) /\ b_id row = brand_id
                    /\ b_contacts row = get (bd_contacts bd) []
                    /\ b_category row = get (bd_category bd) EmptyString
                    /\ b_website row = get (bd_website bd) EmptyString
                    /\ b_location row = get (bd_location bd) EmptyString
                    /\ b_business_type row = get (bd_business_type bd) EmptyString
                    /\ b_description row = get (bd_description bd) EmptyString
                    /\ (all_active (db w) -> b_is_active row = true))
    /\ (all_active (db w) -> all_active d0)
    /\ (length (brands (db w)) <= length (brands d0) <= S (length (brands (db w))))%nat.
Proof.
  destruct w as [d l]. cbn [db].
  destruct (select_brand_id (get (bd_name bd) EmptyString)
              (get (bd_website bd) EmptyString) d) as [found|] eqn:Hsel.
  - rewrite (save_brand_no_fault_existing _ _ _ _ Hsel). intros [= <- <-]. cbn [db].
    eexists. split; [reflexivity|]. split; [reflexivity|].
    destruct (select_brand_id_Some _ _ _ _ Hsel) as (row & Hin & Hid & _).
    split; [|split].
    + eexists. split.
      * cbn [update_brand brands]. apply in_map_iff. exists row. split; [|exact Hin].
        rewrite Hid, Z.eqb_refl. reflexivity.
      * cbn [set_brand_fields b_id b_contacts b_category b_website b_location
             b_business_type b_description b_is_active].
        repeat split; auto.
        intros Hact. unfold all_active in Hact. rewrite List.Forall_forall in Hact.
        apply Hact, Hin.
    + unfold all_active. cbn [update_brand brands]. rewrite !List.Forall_forall.
      intros Hact row' Hin'. apply in_map_iff in Hin' as (row0 & <- & Hin0).
      destruct (b_id row0 =? found)%Z; cbn [set_brand_fields b_is_active]; auto.
    + cbn [update_brand brands]. rewrite length_map. lia.
  - rewrite (save_brand_no_fault_new _ _ _ Hsel). intros [= <- <-]. cbn [db].
    eexists. split; [reflexivity|]. unfold insert_brand. cbn [snd contacts brands].
    split; [reflexivity|]. split; [|split].
    + eexists. split; [apply in_or_app; right; left; reflexivity|].
      cbn [b_id b_contacts b_category b_website b_location b_business_type
             b_description b_is_active]. repeat split; auto.
    + unfold all_active. rewrite !List.Forall_forall.
      intros Hact row' Hin'. apply in_app_iff in Hin' as [Hin'|[<-|[]]]; auto.
    + rewrite length_app. cbn [length]. lia.
Qed.

(** X12. The rows that a fault-free [save_brand] leaves for the returned
    brand in the [contacts] table are well formed: the value is not empty
    and has no white space at either end, and the type is one of whatsapp,
    email, phone, social and other. *)
Theorem saved_contacts_well_formed (bd : brand_data) (w : world) :
  exists brand_id w',
    save_brand no_fault bd w = Done brand_id w'
    /\ Forall (fun c => c_contact_value c <> EmptyString
                        /\ strip (c_contact_value c) = c_contact_value c
                        /\ In (c_contact_type c) contact_types)
         (contacts_of brand_id (db w')).
Proof.
  assert (exists brand_id w', save_brand no_fault bd w = Done brand_id w')
    as (brand_id & w' & Hrun).
  { destruct w as [d l].
    destruct (select_brand_id (get (bd_name bd) EmptyString)
                (get (bd_website bd) EmptyString) d) as [found|] eqn:Hsel.
    - rewrite (save_brand_no_fault_existing _ _ _ _ Hsel). eauto.
    - rewrite (save_brand_no_fault_new _ _ _ Hsel). eauto. }
  exists brand_id, w'. split; [exact Hrun|].
  destruct (save_brand_no_fault_db _ _ _ _ Hrun) as (d0 & -> & _).
  rewrite List.Forall_forall. intros c Hc.
  assert (In (row_pair c)
            (map row_pair (contacts_of brand_id
                             (replace_contacts brand_id (get (bd_contacts bd) []) d0))))
    as Hpair by (apply in_map, Hc).
  rewrite contacts_of_replace in Hpair.
  apply in_map_iff in Hpair as (contact & Heq & Hin).
  apply List.filter_In in Hin as [_ Hne].
  unfold row_pair in Heq. injection Heq as Hty Hval. rewrite <- Hty, <- Hval.
  split; [|split].
  - intros E. rewrite E in Hne. discriminate Hne.
  - apply _extract_contact_value_stripped.
  - apply _determine_contact_type_range.
Qed.


End StoreMoreFacts.

Module QueryFacts.
Import Py Database Props MoreProps Queries DatabaseFacts StoreMoreFacts.

Lemma insert_by_In {A} (le : A -> A -> bool) (x y : A) (l : list A) :
  In y (insert_by le x l) <-> y = x \/ In y l.
Proof.
  induction l as [|z l IH]; cbn [insert_by In]; [intuition congruence|].
  destruct (le x z); cbn [In]; [intuition congruence|]. rewrite IH. intuition congruence.
Qed.

(** Ordering keeps the rows. *)
Lemma order_by_In {A} (le : A -> A -> bool) (y : A) (l : list A) :
  In y (order_by le l) <-> In y l.
Proof.
  unfold order_by. induction l as [|x l IH]; cbn [fold_right In]; [tauto|].
  rewrite insert_by_In, IH. intuition congruence.
Qed.

Lemma insert_by_length {A} (le : A -> A -> bool) (x : A) (l : list A) :
  length (insert_by le x l) = S (length l).
Proof.
  induction l as [|z l IH]; cbn [insert_by length]; [reflexivity|].
  destruct (le x z); cbn [length]; congruence.
Qed.

Lemma order_by_length {A} (le : A -> A -> bool) (l : list A) :
  length (order_by le l) = length l.
Proof.
  unfold order_by. induction l as [|x l IH]; cbn [fold_right length]; [reflexivity|].
  rewrite insert_by_length, IH. reflexivity.
Qed.

(** The entries that [get_contacts_by_type] selects. *)
Lemma select_contacts_by_type_In (contact_type : string) (d : database) (e : contact_entry) :
  In e (select_contacts_by_type contact_type d)
  <-> exists c b,
        In c (contacts d) /\ In b (brands d)
        /\ c_brand_id c = b_id b /\ c_contact_type c = contact_type
        /\ b_is_active b = true
        /\ e = {| ce_value := c_contact_value c; ce_type := c_contact_type c;
                  ce_brand_name := b_name b; ce_brand_id := b_id b |}.
Proof.
  unfold select_contacts_by_type. rewrite order_by_In, in_flat_map. split.
  - intros (c & Hc & He). apply in_map_iff in He as (b & <- & Hb).
    apply List.filter_In in Hb as [Hb Hcond].
    apply andb_true_iff in Hcond as [Hcond Hact].
    apply andb_true_iff in Hcond as [Hid Hty].
    apply Z.eqb_eq in Hid. apply String.eqb_eq in Hty.
    exists c, b. auto 7.
  - intros (c & b & Hc & Hb & Hid & Hty & Hact & ->).
    exists c. split; [exact Hc|]. apply in_map_iff. exists b. split; [reflexivity|].
    apply List.filter_In. split; [exact Hb|].
    rewrite Hid, Z.eqb_refl, Hty, String.eqb_refl, Hact. reflexivity.
Qed.

(** X13. Save, then list: after a fault-free [save_brand] on a store
    without soft-deleted brands, [get_contacts_by_type] of a type lists under
    the returned brand exactly the non-empty values cut from the incoming
    contacts of that type: every one of them, and nothing the brand had
    before. *)
Theorem saved_contacts_are_listed
    (bd : brand_data) (w : world) (brand_id : Z) (w' : world)
    (contact_type value : string) :
  all_active (db w) ->
  save_brand no_fault bd w = Done brand_id w' ->
  exists entries,
    get_contacts_by_type no_read_fault contact_type w' = Done entries w'
    /\ ((exists e, In e entries /\ ce_brand_id e = brand_id /\ ce_value e = value)
        <-> (exists contact,
               In contact (get (bd_contacts bd) [])
               /\ _determine_contact_type contact = contact_type
               /\ _extract_contact_value contact = value
               /\ value <> EmptyString)).
Proof.
  intros Hact Hrun.
  destruct (save_brand_no_fault_db _ _ _ _ Hrun)
    as (d0 & Hdb & _ & (row & Hrow & Hid & _ & _ & _ & _ & _ & _ & Hrow_act) & _ & _).
  unfold get_contacts_by_type, try_except_M, fetchall, no_read_fault.
  eexists. split; [reflexivity|].
  destruct (replace_contacts_same_brands brand_id (get (bd_contacts bd) []) d0)
    as [Hbrands _].
  pose proof (contacts_of_replace brand_id (get (bd_contacts bd) []) d0) as Hrows.
  rewrite <- Hdb in Hrows, Hbrands.
  split.
  - intros (e & He & Heid & Hval).
    apply select_contacts_by_type_In in He
      as (c & b & Hc & Hb & Hcb & Hty & _ & ->).
    cbn [ce_brand_id ce_value] in Heid, Hval.
    assert (In (row_pair c) (map row_pair (contacts_of brand_id (db w')))) as Hpair.
    { apply in_map. unfold contacts_of. apply List.filter_In. split; [exact Hc|].
      apply Z.eqb_eq. congruence. }
    rewrite Hrows in Hpair. apply in_map_iff in Hpair as (contact & Heq & Hin).
    apply List.filter_In in Hin as [Hin Hne].
    unfold row_pair in Heq. injection Heq as Hty' Hval'.
    exists contact. repeat split; try congruence.
    intros E. assert (_extract_contact_value contact = EmptyString) as E0 by congruence.
    rewrite E0 in Hne. discriminate Hne.
  - intros (contact & Hin & Hty & Hval & Hne).
    assert (In (contact_type, value) (map row_pair (contacts_of brand_id (db w'))))
      as Hpair.
    { rewrite Hrows. apply in_map_iff. exists contact. split; [congruence|].
      apply List.filter_In. split; [exact Hin|].
      rewrite Hval. destruct value; [contradiction|reflexivity]. }
    apply in_map_iff in Hpair as (c & Heq & Hc).
    unfold row_pair in Heq. injection Heq as Hty' Hval'.
    unfold contacts_of in Hc. apply List.filter_In in Hc as [Hc Hcid].
    apply Z.eqb_eq in Hcid.
    exists {| ce_value := c_contact_value c; ce_type := c_contact_type c;
              ce_brand_name := b_name row; ce_brand_id := b_id row |}.
    split; [|cbn [ce_brand_id ce_value]; auto].
    apply select_contacts_by_type_In. exists c, row.
    rewrite Hbrands. repeat split; auto; congruence.
Qed.

Lemma saved_contacts_are_listed_witness :
  exists entries w',
    get_contacts_by_type no_read_fault "phone" w' = Done entries w'
    /\ exists e, In e entries /\ ce_brand_id e = 1%Z /\ ce_value e = "+6281111111111".
Proof.
  destruct (saved_contacts_are_listed acme_second new_world 1%Z
              {| db := replace_contacts 1 ["+6281111111111"]
                         (snd (insert_brand "Acme" "acme.id" "Skincare" EmptyString
                                 EmptyString ["+6281111111111"] EmptyString
                                 init_database));
                 log := [LogInfo "Saved new brand: Acme"] |}
              "phone" "+6281111111111")
    as (entries & Hrun & Hiff); [constructor|reflexivity|].
  eexists entries, _. split; [exact Hrun|].
  apply Hiff. exists "+6281111111111". repeat split; [left; reflexivity|discriminate].
Defined.

End QueryFacts.

Module ListingFacts.
Import Py Database Props MoreProps Queries DatabaseFacts StoreMoreFacts QueryFacts.

Lemma firstn_In {A} (n : nat) (l : list A) (x : A) : In x (firstn n l) -> In x l.
Proof.
  intros H. rewrite <- (firstn_skipn n l). apply in_or_app. left. exact H.
Qed.

Lemma skipn_In {A} (n : nat) (l : list A) (x : A) : In x (skipn n l) -> In x l.
Proof.
  intros H. rewrite <- (firstn_skipn n l). apply in_or_app. right. exact H.
Qed.

Lemma insert_by_descending (key : brand_row -> Z) (x : brand_row) (l : list brand_row) :
  descending key l = true ->
  descending key (insert_by (fun r1 r2 => (key r2 <=? key r1)%Z) x l) = true.
Proof.
  induction l as [|y l IH]; cbn [insert_by descending forallb]; [reflexivity|].
  intros H. apply andb_true_iff in H as [Hall Hl].
  destruct (key y <=? key x)%Z eqn:E.
  - cbn [descending forallb]. rewrite E, Hall, Hl. cbn [andb].
    rewrite andb_true_r. apply forallb_forall. intros r Hr.
    rewrite forallb_forall in Hall. specialize (Hall r Hr). lia.
  - cbn [descending]. rewrite (IH Hl), andb_true_r.
    apply forallb_forall. intros r Hr. apply insert_by_In in Hr as [->|Hr]; [lia|].
    rewrite forallb_forall in Hall. apply Hall, Hr.
Qed.

Lemma newest_first_descending (updated_at : brand_row -> Z) (rows : list brand_row) :
  descending updated_at (newest_first updated_at rows) = true.
Proof.
  unfold newest_first, order_by.
  induction rows as [|x l IH]; cbn [fold_right]; [reflexivity|].
  apply insert_by_descending, IH.
Qed.

Lemma descending_skipn key (n : nat) (l : list brand_row) :
  descending key l = true -> descending key (skipn n l) = true.
Proof.
  revert l. induction n as [|n IH]; intros [|x l]; cbn [skipn]; auto.
  cbn [descending]. intros H. apply andb_true_iff in H as [_ H]. auto.
Qed.

Lemma descending_firstn key (n : nat) (l : list brand_row) :
  descending key l = true -> descending key (firstn n l) = true.
Proof.
  revert l. induction n as [|n IH]; intros [|x l]; cbn [firstn]; auto.
  cbn [descending]. intros H. apply andb_true_iff in H as [Hall H].
  rewrite (IH _ H), andb_true_r. apply forallb_forall. intros r Hr.
  rewrite forallb_forall in Hall. apply Hall. eapply firstn_In; eauto.
Qed.

Lemma limit_offset_In {A} (limit offset : Z) (l : list A) (x : A) :
  In x (limit_offset limit offset l) -> In x l.
Proof.
  unfold limit_offset. intros H.
  assert (In x (skipn (Z.to_nat offset) l)) as H'.
  { destruct (limit <? 0)%Z; [exact H|]. eapply firstn_In; eauto. }
  eapply skipn_In; eauto.
Qed.

Lemma limit_offset_length {A} (limit offset : Z) (l : list A) :
  (length (limit_offset limit offset l) <= length l)%nat
  /\ ((0 <= limit)%Z -> (length (limit_offset limit offset l) <= Z.to_nat limit)%nat).
Proof.
  unfold limit_offset. 
  pose proof (length_skipn (Z.to_nat offset) l) as Hs.
  destruct (limit <? 0)%Z eqn:E.
  - split; [lia|]. intros. lia.
  - rewrite length_firstn. split; lia.
Qed.

Lemma limit_offset_all {A} (limit offset : Z) (l : list A) :
  (offset <= 0)%Z ->
  (limit < 0)%Z \/ (length l <= Z.to_nat limit)%nat ->
  limit_offset limit offset l = l.
Proof.
  intros Hoff Hlim. unfold limit_offset.
  replace (Z.to_nat offset) with 0%nat by lia. cbn [skipn].
  destruct (limit <? 0)%Z eqn:E; [reflexivity|].
  apply firstn_all2. lia.
Qed.

Lemma filter_length_le {A} (f : A -> bool) (l : list A) :
  (length (List.filter f l) <= length l)%nat.
Proof.
  induction l as [|x l IH]; cbn [List.filter length]; [lia|].
  destruct (f x); cbn [length]; lia.
Qed.

Lemma filter_all_active (rows : list brand_row) :
  Forall (fun row => b_is_active row = true) rows ->
  List.filter b_is_active rows = rows.
Proof.
  induction 1 as [|r l Hr _ IH]; cbn [List.filter]; [reflexivity|].
  rewrite Hr, IH. reflexivity.
Qed.

(** X14. [get_all_brands] never raises and never changes the tables,
    whatever SQLite does and whatever integers it is given.  The rows it
    returns are rows of the [brands] table that are not soft-deleted, newest
    update first, and no more than [limit] of them when [limit] is not
    negative; after a fault, and for a [limit] or [offset] outside 64 bits,
    the answer is the empty list. *)
Theorem get_all_brands_contract
    (read_fault : read_op -> bool) (updated_at : brand_row -> Z)
    (limit offset : Z) (w : world) :
  exists rows w',
    get_all_brands read_fault updated_at limit offset w = Done rows w'
    /\ db w' = db w
    /\ (forall row, In row rows -> In row (brands (db w)) /\ b_is_active row = true)
    /\ descending updated_at rows = true
    /\ (length rows <= length (brands (db w)))%nat
    /\ ((0 <= limit)%Z -> (length rows <= Z.to_nat limit)%nat)
    /\ (read_fault ReadConnect || read_fault ReadPrepare || read_fault ReadStep
        || negb (sqlite_int limit) || negb (sqlite_int offset) = true -> rows = []).
Proof.
  unfold get_all_brands, try_except_M, fetchall, bind, logger_error, ret.
  cbn [forallb]. rewrite andb_true_r.
  assert (forall e, exists rows w',
            Done (A := list brand_row) []
              {| db := db w; log := (log w ++ [LogError "Error getting brands" e])%list |}
            = Done rows w'
            /\ db w' = db w
            /\ (forall row, In row rows -> In row (brands (db w)) /\ b_is_active row = true)
            /\ descending updated_at rows = true
            /\ (length rows <= length (brands (db w)))%nat
            /\ ((0 <= limit)%Z -> (length rows <= Z.to_nat limit)%nat)
            /\ (read_fault ReadConnect || read_fault ReadPrepare || read_fault ReadStep
                || negb (sqlite_int limit) || negb (sqlite_int offset) = true -> rows = []))
    as Hfail.
  { intros e. eexists _, _. split; [reflexivity|]. cbn [db length].
    repeat split; try contradiction; lia. }
  destruct (read_fault ReadConnect); [apply Hfail|].
  destruct (read_fault ReadPrepare); [apply Hfail|].
  destruct (sqlite_int limit); [|apply Hfail].
  destruct (sqlite_int offset); [|apply Hfail]. cbn [andb negb].
  destruct (read_fault ReadStep); [apply Hfail|].
  eexists _, _. split; [reflexivity|]. split; [reflexivity|].
  split; [|split; [|split; [|split]]].
  - intros row Hin. apply limit_offset_In in Hin.
    unfold newest_first in Hin. apply order_by_In in Hin.
    apply List.filter_In in Hin. exact Hin.
  - unfold limit_offset.
    destruct (limit <? 0)%Z.
    + apply descending_skipn, newest_first_descending.
    + apply descending_firstn, descending_skipn, newest_first_descending.
  - destruct (limit_offset_length limit offset
                (newest_first updated_at (List.filter b_is_active (brands (db w)))))
      as [Hle _].
    unfold newest_first in *. rewrite order_by_length in Hle.
    pose proof (filter_length_le b_is_active (brands (db w))). lia.
  - apply limit_offset_length.
  - cbn [orb]. discriminate.
Qed.

(** X15. Save, then list: on a store without soft-deleted brands, after a
    fault-free [save_brand] a listing by [get_all_brands] that is not cut
    short (no offset, and no limit or a limit above the number of stored
    brands, such as the default 100) has one row for every stored brand,
    and among them the row of the returned identifier with the incoming
    website, category, location, business type, contacts and
    description. *)
Theorem saved_brand_is_listed
    (updated_at : brand_row -> Z) (bd : brand_data) (w : world)
    (brand_id : Z) (w' : world) (limit : Z) :
  all_active (db w) ->
  save_brand no_fault bd w = Done brand_id w' ->
  sqlite_int limit = true ->
  (limit < 0)%Z \/ (length (brands (db w)) < Z.to_nat limit)%nat ->
  exists rows,
    get_all_brands no_read_fault updated_at limit 0 w' = Done rows w'
    /\ length rows = length (brands (db w'))
    /\ exists row,
         In row rows
         /\ b_id row = brand_id
         /\ b_website row = get (bd_website bd) EmptyString
         /\ b_category row = get (bd_category bd) EmptyString
         /\ b_location row = get (bd_location bd) EmptyString
         /\ b_business_type row = get (bd_business_type bd) EmptyString
         /\ b_contacts row = get (bd_contacts bd) []
         /\ b_description row = get (bd_description bd) EmptyString.
Proof.
  intros Hact Hrun Hint Hlim.
  destruct (save_brand_no_fault_db _ _ _ _ Hrun)
    as (d0 & Hdb & _ & (row & Hrow & Hid & Hcs & Hcat & Hws & Hloc & Hbt & Hdesc & Hrow_act)
        & Hact0 & Hlen).
  destruct (replace_contacts_same_brands brand_id (get (bd_contacts bd) []) d0)
    as [Hbrands _].
  rewrite <- Hdb in Hbrands.
  assert (List.filter b_is_active (brands (db w')) = brands (db w')) as Hall.
  { rewrite Hbrands. specialize (Hact0 Hact). unfold all_active in Hact0.
    apply filter_all_active, Hact0. }
  unfold get_all_brands, try_except_M, fetchall, no_read_fault.
  cbn [forallb]. rewrite Hint. cbn [sqlite_int andb negb].
  change (sqlite_int 0) with true. cbn [andb negb].
  eexists. split; [reflexivity|].
  rewrite Hall, limit_offset_all;
    [|lia|unfold newest_first; rewrite order_by_length, Hbrands; lia].
  unfold newest_first. rewrite order_by_length. split; [reflexivity|].
  exists row. rewrite order_by_In, Hbrands. auto 10.
Qed.

Lemma saved_brand_is_listed_witness :
  exists rows w',
    get_all_brands no_read_fault (fun row => b_id row) 100 0 w' = Done rows w'
    /\ length rows = 1%nat.
Proof.
  destruct (saved_brand_is_listed (fun row => b_id row) acme_second new_world 1%Z
              {| db := replace_contacts 1 ["+6281111111111"]
                         (snd (insert_brand "Acme" "acme.id" "Skincare" EmptyString
                                 EmptyString ["+6281111111111"] EmptyString
                                 init_database));
                 log := [LogInfo "Saved new brand: Acme"] |} 100)
    as (rows & Hrun & Hlen & _);
    [constructor|reflexivity|reflexivity|right; cbn; lia|].
  exists rows. eexists. split; [exact Hrun|exact Hlen].
Defined.

End ListingFacts.

Module SearchFacts.
Import Py Database Props MoreProps Queries MoreStringFacts QueryFacts ListingFacts.

(** [%] at the head of a pattern: the rest matches here or further on. *)
Lemma sql_like_percent (pattern text : string) :
  sql_like (String "%" pattern) text
  = sql_like pattern text
    || match text with
       | EmptyString => false
       | String _ text' => sql_like (String "%" pattern) text'
       end.
Proof.
  destruct text; reflexivity.
Qed.

Lemma sql_like_percent_only (text : string) : sql_like "%" text = true.
Proof.
  induction text as [|c t IH]; [reflexivity|].
  rewrite sql_like_percent. rewrite IH. apply orb_true_r.
Qed.

Lemma sql_like_char (p : ascii) (pattern : string) (text : string) :
  Ascii.eqb p "%" = false ->
  sql_like (String p pattern) text
  = match text with
    | EmptyString => false
    | String c text' =>
        (Ascii.eqb p "_" || Ascii.eqb (like_fold p) (like_fold c))
        && sql_like pattern text'
    end.
Proof.
  intros H. cbn [sql_like]. rewrite H. reflexivity.
Qed.

(** A pattern without wildcards, followed by [%], asks for a prefix. *)
Lemma sql_like_prefix (q text : string) :
  no_wildcard q = true ->
  sql_like (q ++ "%") text = startswith (like_folded text) (like_folded q).
Proof.
  unfold no_wildcard, contains_char, like_folded.
  revert text. induction q as [|p q IH]; intros text Hq.
  - cbn [String.append map_str]. rewrite sql_like_percent_only, startswith_empty.
    reflexivity.
  - cbn [any_str] in Hq. rewrite !negb_orb in Hq.
    apply andb_true_iff in Hq as [Hp Hu].
    apply andb_true_iff in Hp as [Hp Hq1]. apply andb_true_iff in Hu as [Hu Hq2].
    apply negb_true_iff in Hp, Hu.
    rewrite Ascii.eqb_sym in Hp. rewrite Ascii.eqb_sym in Hu.
    cbn [String.append]. rewrite sql_like_char by exact Hp.
    destruct text as [|c t]; [reflexivity|].
    cbn [map_str startswith]. rewrite Hu. cbn [orb].
    rewrite IH by (rewrite Hq1, Hq2; reflexivity). reflexivity.
Qed.

(** [LIKE '%q%'] for a [q] without wildcards: [q] occurs in the text,
    the letters A..Z compared without regard to case. *)
Lemma sql_like_mentions (q text : string) :
  no_wildcard q = true ->
  sql_like ("%" ++ q ++ "%") text = mentions text q.
Proof.
  intros Hq. unfold mentions. cbn [String.append].
  induction text as [|c t IH].
  - rewrite sql_like_percent, sql_like_prefix by exact Hq.
    cbn [contains]. reflexivity.
  - rewrite sql_like_percent, sql_like_prefix, IH by exact Hq.
    unfold like_folded. cbn [map_str contains]. reflexivity.
Qed.

Lemma mentions_empty (text : string) : mentions text EmptyString = true.
Proof.
  unfold mentions, like_folded. cbn [map_str]. destruct (map_str like_fold text); reflexivity.
Qed.

(** The [WHERE] clause, read without [LIKE]. *)
Lemma search_condition_hit (query : string) (filters : filters) (row : brand_row) :
  no_wildcard query = true ->
  no_wildcard (get (f_location filters) EmptyString) = true ->
  search_condition query filters row = search_hit query filters row.
Proof.
  intros Hq Hloc. unfold search_condition, search_hit.
  rewrite !(sql_like_mentions _ _ Hq), !(sql_like_mentions _ _ Hloc).
  f_equal; [f_equal; [f_equal; [f_equal|]|]|].
  - destruct query; [|reflexivity]. cbn [is_empty negb].
    rewrite !mentions_empty. reflexivity.
  - destruct (given (f_category filters)); reflexivity.
  - destruct (given (f_business_type filters)); reflexivity.
  - unfold given. destruct (get (f_location filters) EmptyString); cbn [is_empty negb];
      [rewrite mentions_empty|]; reflexivity.
Qed.

(** X16. [search_brands] with a query and a location filter that hold
    neither [%] nor [_]: without a fault it leaves the store as it is and
    returns at most 50 rows, newest update first; each is a stored brand
    that is not soft-deleted, has the query in its name, category, location
    or description (the letters A..Z compared without regard to case), has
    exactly the category and the business type of the filters that are
    given, and has the filter location in its location.  When no more than
    50 brands are stored, every such brand is returned. *)
Theorem search_brands_hits
    (updated_at : brand_row -> Z) (query : string) (filters : filters) (w : world) :
  no_wildcard query = true ->
  no_wildcard (get (f_location filters) EmptyString) = true ->
  exists rows,
    search_brands no_read_fault updated_at query filters w = Done rows w
    /\ (length rows <= 50)%nat
    /\ descending updated_at rows = true
    /\ (forall row, In row rows ->
          In row (brands (db w)) /\ search_hit query filters row = true)
    /\ ((length (brands (db w)) <= 50)%nat ->
        forall row, In row (brands (db w)) -> search_hit query filters row = true ->
                    In row rows).
Proof.
  intros Hq Hloc.
  unfold search_brands, try_except_M, fetchall, no_read_fault. cbn [forallb negb].
  eexists. split; [reflexivity|].
  rewrite (List.filter_ext _ _ (fun row => search_condition_hit query filters row Hq Hloc)).
  split; [apply List.firstn_le_length|].
  split; [apply descending_firstn, newest_first_descending|].
  split.
  - intros row Hin. apply firstn_In in Hin. unfold newest_first in Hin.
    apply order_by_In in Hin. apply List.filter_In in Hin. exact Hin.
  - intros Hlen row Hin Hhit. rewrite firstn_all2.
    + unfold newest_first. apply order_by_In. apply List.filter_In. auto.
    + unfold newest_first. rewrite order_by_length.
      pose proof (filter_length_le (search_hit query filters) (brands (db w))). lia.
Qed.

Lemma search_brands_hits_witness :
  exists rows,
    search_brands no_read_fault (fun row => b_id row) "ACME" no_filters
      (stored acme_second new_world)
    = Done rows (stored acme_second new_world)
    /\ exists row, In row rows /\ b_name row = "Acme".
Proof.
  destruct (search_brands_hits (fun row => b_id row) "ACME" no_filters
              (stored acme_second new_world))
    as (rows & Hrun & _ & _ & _ & Hall); [reflexivity|reflexivity|].
  exists rows. split; [exact Hrun|].
  exists {| b_id := 1; b_name := "Acme"; b_website := "acme.id";
            b_category := "Skincare"; b_location := EmptyString;
            b_business_type := EmptyString; b_contacts := ["+6281111111111"];
            b_description := EmptyString; b_is_active := true |}.
  split; [|reflexivity].
  apply Hall; [vm_compute; lia|vm_compute; left; reflexivity|reflexivity].
Defined.

Lemma sql_like_percent_run (q text : string) :
  all_str (Ascii.eqb "%") q = true ->
  sql_like ("%" ++ q ++ "%") text = true.
Proof.
  intros Hq. cbn [String.append].
  induction q as [|p q IH].
  - cbn [String.append]. rewrite sql_like_percent, sql_like_percent_only. reflexivity.
  - cbn [all_str] in Hq. apply andb_true_iff in Hq as [Hp Hq].
    apply Ascii.eqb_eq in Hp. subst p.
    cbn [String.append]. rewrite sql_like_percent, (IH Hq). reflexivity.
Qed.

(** X17. The query text goes into the [LIKE] pattern as it is: a query
    written with [%] only is a wildcard.  For such a query, with its
    pattern within SQLite's length limit, a fault-free [search_brands]
    leaves the store as it is and returns at most 50 rows, newest update
    first; each is a stored brand that passes the clause of the empty
    query (not soft-deleted, and the filters), whatever its texts are; and
    when no more than 50 brands are stored, every such brand is
    returned. *)
Theorem search_brands_percent_query
    (updated_at : brand_row -> Z) (query : string) (filters : filters) (w : world) :
  all_str (Ascii.eqb "%") query = true ->
  (Z.of_nat (String.length ("%" ++ query ++ "%")) <= like_pattern_limit)%Z ->
  exists rows,
    search_brands no_read_fault updated_at query filters w = Done rows w
    /\ (length rows <= 50)%nat
    /\ descending updated_at rows = true
    /\ (forall row, In row rows ->
          In row (brands (db w))
          /\ search_condition EmptyString filters row = true)
    /\ ((length (brands (db w)) <= 50)%nat ->
        forall row, In row (brands (db w)) ->
                    search_condition EmptyString filters row = true ->
                    In row rows).
Proof.
  intros Hq _.
  unfold search_brands, try_except_M, fetchall, no_read_fault. cbn [forallb negb].
  eexists. split; [reflexivity|].
  assert (forall row, search_condition query filters row
                      = search_condition EmptyString filters row) as Hsame.
  { intros row. unfold search_condition.
    rewrite !(sql_like_percent_run _ _ Hq). cbn [orb is_empty negb].
    destruct query; reflexivity. }
  rewrite (List.filter_ext _ _ Hsame).
  split; [apply List.firstn_le_length|].
  split; [apply descending_firstn, newest_first_descending|].
  split.
  - intros row Hin. apply firstn_In in Hin. unfold newest_first in Hin.
    apply order_by_In in Hin. apply List.filter_In in Hin. exact Hin.
  - intros Hlen row Hin Hhit. rewrite firstn_all2.
    + unfold newest_first. apply order_by_In. apply List.filter_In. auto.
    + unfold newest_first. rewrite order_by_length.
      pose proof (filter_length_le (search_condition EmptyString filters)
                    (brands (db w))). lia.
Qed.

Lemma search_brands_percent_query_witness :
  exists rows,
    search_brands no_read_fault (fun row => b_id row) "%%" no_filters
      (stored acme_second new_world)
    = Done rows (stored acme_second new_world)
    /\ exists row, In row rows /\ b_name row = "Acme".
Proof.
  destruct (search_brands_percent_query (fun row => b_id row) "%%" no_filters
              (stored acme_second new_world))
    as (rows & Hrun & _ & _ & _ & Hall);
    [reflexivity|unfold like_pattern_limit; cbn; lia|].
  exists rows. split; [exact Hrun|].
  exists {| b_id := 1; b_name := "Acme"; b_website := "acme.id";
            b_category := "Skincare"; b_location := EmptyString;
            b_business_type := EmptyString; b_contacts := ["+6281111111111"];
            b_description := EmptyString; b_is_active := true |}.
  split; [|reflexivity].
  apply Hall; [vm_compute; lia|vm_compute; left; reflexivity|reflexivity].
Defined.

End SearchFacts.

Module BotFacts.
Import Py Database Props MoreProps Bot DatabaseFacts StoreMoreFacts.

Lemma contacts_of_replace_nil (brand_id : Z) (d : database) :
  contacts_of brand_id (replace_contacts brand_id [] d) = [].
Proof.
  pose proof (contacts_of_replace brand_id [] d) as H. cbn [List.filter map] in H.
  destruct (contacts_of brand_id (replace_contacts brand_id [] d)); [reflexivity|discriminate H].
Qed.

(** X18. What [process_contact_search] stores: the dictionary of
    [_parse_contact_results] has none of the keys that [save_brand] reads,
    so a fault-free save of a search result leaves a brand row whose
    website, category, location, business type, contacts and description
    are empty and which has no row in the [contacts] table: the numbers and
    addresses that were found are not stored.  If a stored brand has an
    empty name or an empty website, no row is added and such a brand is the
    one overwritten; otherwise the new row is named Unknown. *)
Theorem search_result_stored_blank
    (result : Agent.result) (rest : list Agent.result) (w : world) :
  exists w' row,
    save_search_results no_fault (result :: rest) w = Done tt w'
    /\ In row (brands (db w'))
    /\ b_website row = EmptyString /\ b_category row = EmptyString
    /\ b_location row = EmptyString /\ b_business_type row = EmptyString
    /\ b_contacts row = [] /\ b_description row = EmptyString
    /\ contacts_of (b_id row) (db w') = []
    /\ ((exists old, In old (brands (db w))
                     /\ (b_name old = EmptyString \/ b_website old = EmptyString)) ->
        length (brands (db w')) = length (brands (db w))
        /\ exists old, In old (brands (db w)) /\ b_id old = b_id row
                       /\ (b_name old = EmptyString \/ b_website old = EmptyString))
    /\ ((forall old, In old (brands (db w)) ->
                     b_name old <> EmptyString /\ b_website old <> EmptyString) ->
        length (brands (db w')) = S (length (brands (db w)))
        /\ b_name row = "Unknown").
Proof.
  destruct w as [d l]. unfold save_search_results, bind. cbn [db].
  destruct (select_brand_id EmptyString EmptyString d) as [found|] eqn:Hsel.
  - rewrite (save_brand_no_fault_existing (as_brand_data result) d l found Hsel).
    unfold ret. cbn [as_brand_data bd_name bd_website bd_category bd_location
                     bd_business_type bd_contacts bd_description get].
    destruct (select_brand_id_Some _ _ _ _ Hsel) as (row0 & Hin & Hid & Hmatch).
    eexists _, (set_brand_fields EmptyString EmptyString EmptyString EmptyString []
                  EmptyString row0).
    split; [reflexivity|]. cbn [db].
    destruct (replace_contacts_same_brands found []
                (update_brand EmptyString EmptyString EmptyString EmptyString []
                   EmptyString found d)) as [Hbrands _].
    rewrite Hbrands.
    cbn [set_brand_fields b_id b_website b_category b_location b_business_type
           b_contacts b_description].
    split.
    { cbn [update_brand brands]. apply in_map_iff. exists row0.
      rewrite Hid, Z.eqb_refl. auto. }
    do 6 (split; [reflexivity|]).
    split; [rewrite Hid; apply contacts_of_replace_nil|].
    split.
    + intros _. split; [cbn [update_brand brands]; apply length_map|].
      exists row0. auto.
    + intros Hnone. destruct (Hnone row0 Hin) as [Hn Hw]. destruct Hmatch; contradiction.
  - rewrite (save_brand_no_fault_new (as_brand_data result) d l Hsel).
    unfold ret. cbn [as_brand_data bd_name bd_website bd_category bd_location
                     bd_business_type bd_contacts bd_description get].
    eexists _, _. split; [reflexivity|]. cbn [db].
    destruct (replace_contacts_same_brands (brands_seq d + 1) []
                (snd (insert_brand "Unknown" EmptyString EmptyString EmptyString
                        EmptyString [] EmptyString d))) as [Hbrands _].
    rewrite Hbrands. unfold insert_brand at 1 3 4. cbn [snd brands].
    split; [apply in_or_app; right; left; reflexivity|].
    cbn [b_id b_website b_category b_location b_business_type b_contacts
           b_description b_name].
    do 6 (split; [reflexivity|]).
    split; [apply contacts_of_replace_nil|].
    split.
    + intros (old & Hin & Hmatch).
      destruct (select_brand_id_None _ _ _ Hsel old Hin) as [Hn Hw].
      destruct Hmatch; contradiction.
    + intros _. rewrite length_app. cbn [length]. split; [lia|reflexivity].
Qed.

End BotFacts.

Module GroupingFacts.
Import Py Agent Props MoreProps MoreStringFacts AgentFacts.

Lemma group_step_new (seen : gset string) (v : string) :
  v ∉ seen -> size (seen ∪ {[ v ]}) = S (size seen).
Proof.
  intros Hv. rewrite size_union by set_solver. rewrite size_singleton. lia.
Qed.

(** One turn of the loop and the number of bucket entries. *)
Lemma group_step_sizes (seen : gset string) (g : grouped_contacts) (c : contact) :
  let st := group_step (seen, g) c in
  ((bucket_total g <= size seen)%nat -> (bucket_total (snd st) <= size (fst st))%nat)
  /\ (extracted_type (ct_type c) = true ->
      bucket_total g = size seen -> bucket_total (snd st) = size (fst st))
  /\ (size (fst st) <= S (size seen))%nat.
Proof.
  unfold group_step, extracted_type, bucket_total.
  case_bool_decide as Hnew; [|cbn [fst snd]; auto].
  pose proof (group_step_new seen (ct_value c) Hnew) as Hsize.
  destruct (String.eqb (ct_type c) "whatsapp"); cbn [orb andb];
    [cbn [fst snd whatsapp phone email social]; rewrite !length_app, Hsize;
     cbn [length]; repeat split; intros; lia|].
  destruct (String.eqb (ct_type c) "phone"); cbn [orb andb];
    [destruct (startswith (ct_value c) "+62");
     cbn [fst snd whatsapp phone email social]; rewrite !length_app, Hsize;
     cbn [length]; repeat split; intros; lia|].
  destruct (String.eqb (ct_type c) "email"); cbn [orb andb];
    [cbn [fst snd whatsapp phone email social]; rewrite !length_app, Hsize;
     cbn [length]; repeat split; intros; lia|].
  destruct (startswith (ct_type c) "social_");
    cbn [fst snd whatsapp phone email social]; rewrite ?length_app, Hsize;
    cbn [length]; repeat split; intros; try discriminate; lia.
Qed.

(** One turn of the loop and the occurrences of a value. *)
Lemma group_step_occurrences (seen : gset string) (g : grouped_contacts) (c : contact)
    (x : string) :
  let st := group_step (seen, g) c in
  (occurrences x g <= if bool_decide (x ∈ seen) then 1 else 0)%nat ->
  (occurrences x (snd st) <= if bool_decide (x ∈ fst st) then 1 else 0)%nat.
Proof.
  cbv zeta. unfold group_step, occurrences. intros H.
  destruct (decide (ct_value c ∈ seen)) as [Hold|Hnew];
    [rewrite (bool_decide_false (ct_value c ∉ seen)) by (intros Hn; apply Hn, Hold);
     cbn [fst snd]; exact H|].
  rewrite (bool_decide_true (ct_value c ∉ seen)) by exact Hnew.
  assert ((if bool_decide (x ∈ seen ∪ {[ct_value c]}) then 1 else 0)%nat
          = ((if bool_decide (x ∈ seen) then 1 else 0)
             + count_occ string_dec [ct_value c] x)%nat) as Hcount.
  { cbn [count_occ]. destruct (string_dec (ct_value c) x) as [E|E].
    - subst x.
      rewrite bool_decide_true
        by (apply elem_of_union; right; apply elem_of_singleton; reflexivity).
      rewrite (bool_decide_false _ Hnew). reflexivity.
    - destruct (decide (x ∈ seen)) as [Hx|Hx].
      + rewrite (bool_decide_true (x ∈ seen ∪ _)) by (apply elem_of_union; auto).
        rewrite (bool_decide_true _ Hx). reflexivity.
      + rewrite (bool_decide_false (x ∈ seen ∪ _))
          by (rewrite elem_of_union, elem_of_singleton; intros [?|?]; congruence).
        rewrite (bool_decide_false _ Hx). reflexivity. }
  repeat match goal with |- context [if ?b then (_, _) else _] => destruct b end;
    cbn [fst snd whatsapp phone email]; rewrite ?count_occ_app, Hcount; lia.
Qed.

(** The loop of [_parse_contact_results] on any list of candidates. *)
Lemma group_contacts_invariant (all_contacts : list contact) :
  let st := group_contacts all_contacts in
  (forall x, occurrences x (snd st) <= if bool_decide (x ∈ fst st) then 1 else 0)%nat
  /\ (bucket_total (snd st) <= size (fst st) <= length all_contacts)%nat
  /\ (Forall (fun c => extracted_type (ct_type c) = true) all_contacts ->
      bucket_total (snd st) = size (fst st)).
Proof.
  cbv zeta. induction all_contacts as [|c l (Hocc & Hsize & Heq)] using rev_ind.
  - cbn. repeat split; auto.
  - rewrite group_contacts_snoc. destruct (group_contacts l) as [seen g].
    cbn [fst snd] in *.
    destruct (group_step_sizes seen g c) as (Hle & Hex & Hgrow). cbv zeta in *.
    split; [|split].
    + intros x. apply group_step_occurrences, Hocc.
    + rewrite length_app. cbn [length]. lia.
    + intros Hall. apply Forall_app in Hall as [Hl Hc].
      apply Hex; [|auto]. inversion Hc; assumption.
Qed.

Lemma occurrences_NoDup (g : grouped_contacts) :
  (forall x, occurrences x g <= 1)%nat ->
  List.NoDup (whatsapp g ++ phone g ++ email g)%list.
Proof.
  intros H. apply (NoDup_count_occ string_dec). intros x.
  rewrite !count_occ_app. specialize (H x). unfold occurrences in H. lia.
Qed.

(** X19. The grouping loop of [_parse_contact_results] on any list of
    candidates: no value stands twice in the whatsapp, phone and e-mail
    buckets taken together; the four buckets hold no more entries than
    there are distinct values, which are no more than the candidates; and
    when every candidate has one of the types that [_extract_all_contacts]
    gives (phone, email, whatsapp, social_...), the buckets hold exactly
    one entry for each distinct value. *)
Theorem group_contacts_deduplicates (all_contacts : list contact) :
  List.NoDup (whatsapp (snd (group_contacts all_contacts))
              ++ phone (snd (group_contacts all_contacts))
              ++ email (snd (group_contacts all_contacts)))%list
  /\ (bucket_total (snd (group_contacts all_contacts))
      <= size (fst (group_contacts all_contacts))
      <= length all_contacts)%nat
  /\ (Forall (fun c => extracted_type (ct_type c) = true) all_contacts ->
      bucket_total (snd (group_contacts all_contacts))
      = size (fst (group_contacts all_contacts))).
Proof.
  destruct (group_contacts_invariant all_contacts) as (Hocc & Hsize & Heq).
  cbv zeta in *. split; [|split; assumption].
  apply occurrences_NoDup. intros x. specialize (Hocc x).
  destruct (bool_decide _) in Hocc; lia.
Qed.

Section ParseFacts.

Variable re_findall : string -> string -> bool -> list string.
Variable re_search : string -> string -> option string.
Variable PhoneNumber : Type.
Variable phonenumbers_parse : string -> string -> res PhoneNumber.
Variable phonenumbers_is_valid_number : PhoneNumber -> res bool.
Variable phonenumbers_format_E164 : PhoneNumber -> res string.
Variable ValidatedEmail : Type.
Variable validate_email : string -> res ValidatedEmail.
Variable validated_email : ValidatedEmail -> string.

Abbreviation cleaned_matches :=
  (Agent.cleaned_matches PhoneNumber phonenumbers_parse phonenumbers_is_valid_number
     phonenumbers_format_E164).
Abbreviation validated_emails :=
  (Agent.validated_emails re_search ValidatedEmail validate_email validated_email).
Abbreviation _extract_all_contacts :=
  (Agent._extract_all_contacts re_findall re_search PhoneNumber phonenumbers_parse
     phonenumbers_is_valid_number phonenumbers_format_E164
     ValidatedEmail validate_email validated_email).
Abbreviation _parse_contact_results :=
  (Agent._parse_contact_results re_findall re_search PhoneNumber phonenumbers_parse
     phonenumbers_is_valid_number phonenumbers_format_E164
     ValidatedEmail validate_email validated_email).

Lemma validated_emails_types source_url matches :
  exists cs, validated_emails source_url matches = Ret cs
             /\ Forall (fun c => ct_type c = "email") cs.
Proof.
  induction matches as [|m rest (cs & IH & Hty)]; [exists []; split; [reflexivity|constructor]|].
  cbn [Agent.validated_emails].
  unfold _validate_email_address at 1, try_except.
  match goal with |- context [res_bind (match ?b with Ret a => _ | Raise e => _ end)] =>
    destruct b as [validated|e] end; cbn [res_bind]; rewrite IH; cbn [res_bind].
  - destruct (truthy validated); eexists; (split; [reflexivity|]); auto.
  - eexists; split; [reflexivity|]; auto.
Qed.

Lemma social_matches_types source_url text :
  Forall (fun c => startswith (ct_type c) "social_" = true)
    (flat_map (fun entry => Agent.social_matches re_findall source_url entry text)
       social_patterns).
Proof.
  apply List.Forall_forall. intros c Hc. apply in_flat_map in Hc as ([platform pattern] & _ & Hc).
  unfold social_matches in Hc. apply in_map_iff in Hc as (m & <- & _).
  cbn [ct_type]. destruct platform; reflexivity.
Qed.

(** Every candidate of [_extract_all_contacts] has one of its four
    types. *)
Lemma _extract_all_contacts_types (text source_url : string) :
  exists all_contacts,
    _extract_all_contacts text source_url = Ret all_contacts
    /\ Forall (fun c => extracted_type (ct_type c) = true) all_contacts.
Proof.
  unfold Agent._extract_all_contacts.
  destruct (AgentFacts.cleaned_matches_returns PhoneNumber phonenumbers_parse
              phonenumbers_is_valid_number phonenumbers_format_E164 "phone" source_url
              (flat_map (fun pattern => re_findall pattern text true) phone_patterns))
    as (phones & -> & Hphones).
  destruct (validated_emails_types source_url (re_findall email_pattern text false))
    as (emails & -> & Hemails).
  destruct (AgentFacts.cleaned_matches_returns PhoneNumber phonenumbers_parse
              phonenumbers_is_valid_number phonenumbers_format_E164 "whatsapp" source_url
              (flat_map (fun pattern => re_findall pattern text true) whatsapp_patterns))
    as (whatsapps & -> & Hwhatsapps).
  cbn [res_bind]. eexists. split; [reflexivity|].
  pose proof (social_matches_types source_url text) as Hsocial.
  rewrite List.Forall_forall in *. intros c Hc. unfold extracted_type.
  rewrite !in_app_iff in Hc. destruct Hc as [Hc|[Hc|[Hc|Hc]]].
  - rewrite (Hphones c Hc). reflexivity.
  - rewrite (Hemails c Hc). reflexivity.
  - rewrite (Hwhatsapps c Hc). reflexivity.
  - rewrite (Hsocial c Hc). rewrite !orb_true_r. reflexivity.
Qed.

(** X20. Whatever the libraries and the [re] engine do,
    [_parse_contact_results] returns no result or one result; the one
    result carries the query it was asked for, holds no value twice in its
    whatsapp, phone and e-mail lists taken together, and its
    [total_contacts_found] is the number of entries of its four lists,
    which is at least one. *)
Theorem _parse_contact_results_total (agent_result original_query : string) :
  exists results,
    _parse_contact_results agent_result original_query = Ret results
    /\ (results = []
        \/ exists r,
             results = [r]
             /\ query r = original_query
             /\ List.NoDup (whatsapp_numbers r ++ phone_numbers r ++ email_addresses r)%list
             /\ total_contacts_found r
                = (length (whatsapp_numbers r) + length (phone_numbers r)
                   + length (email_addresses r) + length (social_media r))%nat
             /\ (1 <= total_contacts_found r)%nat).
Proof.
  unfold Agent._parse_contact_results.
  destruct (_extract_all_contacts_types agent_result EmptyString)
    as (all_contacts & -> & Htypes).
  cbn [res_bind try_except]. eexists. split; [reflexivity|].
  unfold build_results.
  destruct (group_contacts_invariant all_contacts) as (Hocc & _ & Heq).
  cbv zeta in *. specialize (Heq Htypes).
  destruct (group_contacts all_contacts) as [seen_values g]. cbn [fst snd] in *.
  destruct (any_group g) eqn:Hany; [right|left; reflexivity].
  eexists. split; [reflexivity|].
  cbn [query whatsapp_numbers phone_numbers email_addresses social_media
         total_contacts_found].
  split; [reflexivity|]. split; [|split].
  - apply occurrences_NoDup. intros x. specialize (Hocc x).
    destruct (bool_decide _) in Hocc; lia.
  - rewrite <- Heq. reflexivity.
  - rewrite <- Heq. unfold bucket_total. unfold any_group in Hany. cbn [forallb] in Hany.
    destruct (whatsapp g), (phone g), (email g), (social g); cbn [length];
      try lia; discriminate Hany.
Qed.

End ParseFacts.

End GroupingFacts.

Module ValidationFacts.
Import Py Agent Validation.

Section ValidateFacts.

Variable re_search : string -> string -> option string.
Variable PhoneNumber : Type.
Variable phonenumbers_parse : string -> string -> res PhoneNumber.
Variable phonenumbers_is_valid_number : PhoneNumber -> res bool.
Variable phonenumbers_format_E164 : PhoneNumber -> res string.
Variable ValidatedEmail : Type.
Variable validate_email : string -> res ValidatedEmail.
Variable validated_email : ValidatedEmail -> string.

Abbreviation _validate_phone_number :=
  (Validation._validate_phone_number re_search PhoneNumber phonenumbers_parse
     phonenumbers_is_valid_number phonenumbers_format_E164).
Abbreviation _validate_email_address :=
  (Agent._validate_email_address re_search ValidatedEmail validate_email validated_email).
Abbreviation validate_line :=
  (Validation.validate_line re_search PhoneNumber phonenumbers_parse
     phonenumbers_is_valid_number phonenumbers_format_E164
     ValidatedEmail validate_email validated_email).
Abbreviation validate_lines :=
  (Validation.validate_lines re_search PhoneNumber phonenumbers_parse
     phonenumbers_is_valid_number phonenumbers_format_E164
     ValidatedEmail validate_email validated_email).
Abbreviation validate_contact_info :=
  (Validation.validate_contact_info re_search PhoneNumber phonenumbers_parse
     phonenumbers_is_valid_number phonenumbers_format_E164
     ValidatedEmail validate_email validated_email).

Lemma _validate_phone_number_returns (phone : string) :
  exists r, _validate_phone_number phone = Ret r.
Proof.
  unfold Validation._validate_phone_number, try_except.
  match goal with |- context [match ?b with Ret a => _ | Raise e => _ end] =>
    destruct b end; eauto.
Qed.

Lemma _validate_email_address_returns (email : string) :
  exists r, _validate_email_address email = Ret r.
Proof.
  unfold Agent._validate_email_address, try_except.
  match goal with |- context [match ?b with Ret a => _ | Raise e => _ end] =>
    destruct b end; eauto.
Qed.

(** What one line adds to the four lists. *)
Lemma validate_line_adds (results : validation_results) (line : string) :
  exists phones emails invalid,
    validate_line results line
    = Ret {| valid_phones := valid_phones results ++ phones;
             valid_emails := valid_emails results ++ emails;
             valid_whatsapp :=
               valid_whatsapp results
               ++ List.filter (fun v => startswith v "+62") phones;
             invalid_contacts := invalid_contacts results ++ invalid |}
    /\ (length phones + length emails + length invalid
        = if checked_line (strip line) then 1 else 0)%nat
    /\ (forall v, In v phones ->
          any_str isdigit (strip line) = true
          /\ v <> EmptyString
          /\ _validate_phone_number (strip line) = Ret (Some v))
    /\ (forall v, In v emails ->
          any_str isdigit (strip line) = false
          /\ contains_char (strip line) "@" = true
          /\ _validate_email_address (strip line) = Ret (Some v)).
Proof.
  unfold Validation.validate_line, checked_line. cbv zeta.
  destruct results as [ps es ws inv]. cbn [valid_phones valid_emails valid_whatsapp
                                            invalid_contacts].
  destruct (strip line) as [|c rest] eqn:Hline.
  { exists [], [], []. cbn [is_empty any_str contains_char orb List.filter length].
    rewrite !app_nil_r. repeat split; try contradiction. }
  cbn [is_empty]. rewrite <- Hline.
  destruct (any_str isdigit (strip line)) eqn:Hdigit; cbn [orb].
  - destruct (_validate_phone_number_returns (strip line)) as (r & Hr).
    rewrite Hr. cbn [res_bind].
    destruct r as [v|]; cbn [truthy]; [destruct v as [|a v]; cbn [is_empty negb]|].
    + exists [], [], ["Invalid phone: " ++ strip line].
      cbn [List.filter length]. rewrite !app_nil_r.
      repeat split; try contradiction.
    + change (default EmptyString (Some (String a v))) with (String a v).
      exists [String a v], [], []. cbn [List.filter length].
      destruct (startswith (String a v) "+62"); rewrite !app_nil_r;
        (split; [reflexivity|]); (split; [reflexivity|]);
        (split; [|intros ? []]); intros ? [<-|[]]; repeat split; discriminate.
    + exists [], [], ["Invalid phone: " ++ strip line].
      cbn [List.filter length]. rewrite !app_nil_r.
      repeat split; try contradiction.
  - destruct (contains_char (strip line) "@") eqn:Hat.
    + destruct (_validate_email_address_returns (strip line)) as (r & Hr).
      rewrite Hr. cbn [res_bind].
      destruct r as [v|]; cbn [truthy]; [destruct v as [|a v]; cbn [is_empty negb]|].
      * exists [], [], ["Invalid email: " ++ strip line].
        cbn [List.filter length]. rewrite !app_nil_r.
        repeat split; try contradiction.
      * change (default EmptyString (Some (String a v))) with (String a v).
        exists [], [String a v], []. cbn [List.filter length]. rewrite !app_nil_r.
        (split; [reflexivity|]); (split; [reflexivity|]);
          (split; [intros ? []|]); intros ? [<-|[]]; repeat split.
      * exists [], [], ["Invalid email: " ++ strip line].
        cbn [List.filter length]. rewrite !app_nil_r.
        repeat split; try contradiction.
    + exists [], [], []. cbn [List.filter length]. rewrite !app_nil_r.
      repeat split; try contradiction.
Qed.

(** What the loop adds to the four lists. *)
Lemma validate_lines_adds (lines : list string) :
  forall results : validation_results,
  exists phones emails invalid,
    validate_lines results lines
    = Ret {| valid_phones := valid_phones results ++ phones;
             valid_emails := valid_emails results ++ emails;
             valid_whatsapp :=
               valid_whatsapp results
               ++ List.filter (fun v => startswith v "+62") phones;
             invalid_contacts := invalid_contacts results ++ invalid |}
    /\ (length phones + length emails + length invalid
        = length (List.filter checked_line (map strip lines)))%nat
    /\ (forall v, In v phones ->
          exists line, In line lines
          /\ any_str isdigit (strip line) = true
          /\ v <> EmptyString
          /\ _validate_phone_number (strip line) = Ret (Some v))
    /\ (forall v, In v emails ->
          exists line, In line lines
          /\ any_str isdigit (strip line) = false
          /\ contains_char (strip line) "@" = true
          /\ _validate_email_address (strip line) = Ret (Some v)).
Proof.
  induction lines as [|line rest IH]; intros results.
  - exists [], [], []. cbn [Validation.validate_lines List.filter map length].
    rewrite !app_nil_r. destruct results. repeat split; contradiction.
  - cbn [Validation.validate_lines].
    destruct (validate_line_adds results line)
      as (p1 & e1 & i1 & -> & Hn1 & Hp1 & He1).
    cbn [res_bind].
    match goal with |- context [Validation.validate_lines _ _ _ _ _ _ _ _ ?r rest] =>
      destruct (IH r) as (p2 & e2 & i2 & -> & Hn2 & Hp2 & He2) end.
    cbn [valid_phones valid_emails valid_whatsapp invalid_contacts].
    exists (p1 ++ p2)%list, (e1 ++ e2)%list, (i1 ++ i2)%list.
    rewrite List.filter_app, !app_assoc. split; [reflexivity|].
    split; [|split].
    + cbn [map List.filter]. rewrite !length_app.
      destruct (checked_line (strip line)); cbn [length]; lia.
    + intros v Hv. apply in_app_iff in Hv as [Hv|Hv].
      * exists line. split; [left; reflexivity|apply Hp1, Hv].
      * destruct (Hp2 v Hv) as (l & Hl & H). exists l. split; [right; exact Hl|exact H].
    + intros v Hv. apply in_app_iff in Hv as [Hv|Hv].
      * exists line. split; [left; reflexivity|apply He1, Hv].
      * destruct (He2 v Hv) as (l & Hl & H). exists l. split; [right; exact Hl|exact H].
Qed.

(** X21. [validate_contact_info] never takes its error exit, whatever
    [phonenumbers], [email_validator] and the [re] engine do.  In the
    dictionary it prints, [valid_whatsapp] holds the entries of
    [valid_phones] that start with +62, in their order; every stripped line
    with a digit or an at sign gives exactly one entry of [valid_phones],
    [valid_emails] or [invalid_contacts]; a valid phone comes from a line
    with a digit; and a valid e-mail comes from a line with an at sign and
    no digit at all, because a line with a digit is only ever checked as a
    phone number. *)
Theorem validate_contact_info_report (contact_info : string) :
  exists results,
    validate_contact_info contact_info = Printed results
    /\ valid_whatsapp results
       = List.filter (fun v => startswith v "+62") (valid_phones results)
    /\ (length (valid_phones results) + length (valid_emails results)
        + length (invalid_contacts results)
        = length (List.filter checked_line
                    (map strip (split_char newline contact_info))))%nat
    /\ (forall v, In v (valid_phones results) ->
          exists line, In line (split_char newline contact_info)
          /\ any_str isdigit (strip line) = true
          /\ v <> EmptyString
          /\ _validate_phone_number (strip line) = Ret (Some v))
    /\ (forall v, In v (valid_emails results) ->
          exists line, In line (split_char newline contact_info)
          /\ any_str isdigit (strip line) = false
          /\ contains_char (strip line) "@" = true
          /\ _validate_email_address (strip line) = Ret (Some v)).
Proof.
  unfold Validation.validate_contact_info.
  destruct (validate_lines_adds (split_char newline contact_info) empty_results)
    as (phones & emails & invalid & -> & Hn & Hp & He).
  eexists. split; [reflexivity|].
  cbn [empty_results valid_phones valid_emails valid_whatsapp invalid_contacts app].
  auto.
Qed.

End ValidateFacts.

End ValidationFacts.
